(** * UpperCompGUI: the parameter / meter state engine of the compressor view

    A shallow embedding of [Uppercomp_WAM/compui.js] and of its near-duplicate
    variant (the second source file), which differs from it only in two
    constants: the gesture sensitivity and the knob smoothing factor.

    Number model.  JavaScript numbers are embedded as exact rationals ([Q]):
    every arithmetic operation and comparison of the source is taken without
    rounding, and the special values (NaN, the infinities, negative zero) are
    outside the model.  Division by zero, which the source only meets for a
    knob with [min = max], a meter with a single dot or a scale whose two
    ends coincide, follows [Qdiv] (the result is 0); the properties that
    depend on such a quotient exclude these cases by hypothesis.  Equality
    of numbers is [Qeq] (written [==]) wherever a value has gone through
    arithmetic; plain [=] is used where the source merely stores a value.

    The knob store is modelled by its own keys; the names every object
    inherits ([constructor], [toString], ...) are outside the model.

    The DOM is not modelled.  What the source writes to it is either logged
    as an [Effect] (knob rotation, knob label, outbound host message) or
    given as a pure function of the state ([updateMeters], [dbToY]). *)

From Stdlib Require Import QArith Qabs Qminmax Qround Lqa ZArith Lia.
From Stdlib Require Import List String DecimalString.
Import ListNotations.
Open Scope Q_scope.

(* ------------------------------------------------------------------ *)
(** ** Numbers, comparisons and the [Math] object *)

Definition Qltb (x y : Q) : bool := if Qlt_le_dec x y then true else false.
Definition Qleb (x y : Q) : bool := Qle_bool x y.

Infix "<?" := Qltb (at level 70, no associativity) : Q_scope.
Infix "<=?" := Qleb (at level 70, no associativity) : Q_scope.
Notation "x >? y" := (Qltb y x) (at level 70, no associativity) : Q_scope.
Notation "x >=? y" := (Qleb y x) (at level 70, no associativity) : Q_scope.

Module Math.
Definition max (a b : Q) : Q := Qmax a b.
Definition min (a b : Q) : Q := Qmin a b.
Definition abs (a : Q) : Q := Qabs a.
(** [Math.round]: nearest integer, ties towards plus infinity. *)
Definition round (a : Q) : Z := Qfloor (a + (1 # 2)).
(** [Math.pow] at an integer exponent. *)
Definition pow (a : Q) (n : Z) : Q := Qpower a n.
End Math.

(** Decimal rendering of an integer inside a template literal. *)
Definition showZ (z : Z) : string := NilZero.string_of_int (Z.to_int z).

(* ------------------------------------------------------------------ *)
(** ** Colours and easing *)

Definition Color : Type := (Q * Q * Q)%type.

Definition ch0 (c : Color) : Q := fst (fst c).
Definition ch1 (c : Color) : Q := snd (fst c).
Definition ch2 (c : Color) : Q := snd c.

Definition offColor : Color := (51, 51, 51).
Definition greenColor : Color := (76, 175, 80).
Definition yellowColor : Color := (255, 235, 59).
Definition redColor : Color := (255, 82, 82).

(** Easing for LED meter brightness transitions. *)
Definition cubicEase (t : Q) : Q :=
  if t <? 0.5
  then 4 * t * t * t
  else 1 - Math.pow (-2 * t + 2) 3 / 2.

(** Interpolate between [offColor] and [onColor] by the eased factor. *)
Definition lerpColor (offColor onColor : Color) (t : Q) : string :=
  let eased := cubicEase t in
  let r := Math.round (ch0 offColor + (ch0 onColor - ch0 offColor) * eased) in
  let g := Math.round (ch1 offColor + (ch1 onColor - ch1 offColor) * eased) in
  let b := Math.round (ch2 offColor + (ch2 onColor - ch2 offColor) * eased) in
  ("rgb(" ++ showZ r ++ ", " ++ showZ g ++ ", " ++ showZ b ++ ")")%string.

(* ------------------------------------------------------------------ *)
(** ** State *)

Module Meter.
Record t : Type := mk { value : Q; peak : Q }.
End Meter.

Module Knob.
(** The [element] field of the source is a DOM node and is left out. *)
Record t : Type := mk {
  currentValue : Q;
  targetValue : Q;
  min : Q;
  max : Q;
  isDragging : bool;
  lastY : Q
}.

Definition set_currentValue (v : Q) (k : t) : t :=
  mk v (targetValue k) (min k) (max k) (isDragging k) (lastY k).
Definition set_targetValue (v : Q) (k : t) : t :=
  mk (currentValue k) v (min k) (max k) (isDragging k) (lastY k).
End Knob.

(** [this.knobs]: an object used as a map from parameter name to knob.  Its
    keys are enumerated in insertion order, so it is kept as an association
    list; [assign] overwrites in place or appends, as property assignment
    does. *)
Definition Knobs : Type := list (string * Knob.t).

Fixpoint lookup (param : string) (ks : Knobs) : option Knob.t :=
  match ks with
  | [] => None
  | (p, k) :: rest => if String.eqb p param then Some k else lookup param rest
  end.

Fixpoint assign (param : string) (k : Knob.t) (ks : Knobs) : Knobs :=
  match ks with
  | [] => [(param, k)]
  | (p, k0) :: rest =>
      if String.eqb p param then (p, k) :: rest else (p, k0) :: assign param k rest
  end.

Definition keys (ks : Knobs) : list string := map fst ks.

Record Sample : Type := mkSample {
  s_inputLevel : Q;
  s_gainReduction : Q;
  s_outputLevel : Q
}.

Record Meters : Type := mkMeters {
  gainReduction : Meter.t;
  inputLevel : Meter.t;
  outputLevel : Meter.t
}.

Record GUI : Type := mkGUI {
  meters : Meters;
  decayRate : Q;
  waveformHistory : list Sample;
  historyLength : nat;
  historyUpdateRate : Z;
  frameCount : Z;
  currentThresholdDb : Q;
  knobs : Knobs
}.

Definition set_meters (m : Meters) (st : GUI) : GUI :=
  mkGUI m (decayRate st) (waveformHistory st) (historyLength st)
        (historyUpdateRate st) (frameCount st) (currentThresholdDb st) (knobs st).
Definition set_history (h : list Sample) (fc : Z) (st : GUI) : GUI :=
  mkGUI (meters st) (decayRate st) h (historyLength st)
        (historyUpdateRate st) fc (currentThresholdDb st) (knobs st).
Definition set_currentThresholdDb (v : Q) (st : GUI) : GUI :=
  mkGUI (meters st) (decayRate st) (waveformHistory st) (historyLength st)
        (historyUpdateRate st) (frameCount st) v (knobs st).
Definition set_knobs (ks : Knobs) (st : GUI) : GUI :=
  mkGUI (meters st) (decayRate st) (waveformHistory st) (historyLength st)
        (historyUpdateRate st) (frameCount st) (currentThresholdDb st) ks.

(** The state the constructor builds ([this.knobs] is filled in later by
    [initializeKnobs]). *)
Definition constructor : GUI :=
  {| meters := {| gainReduction := Meter.mk 0 0;
                  inputLevel := Meter.mk (-36) (-36);
                  outputLevel := Meter.mk (-36) (-36) |};
     decayRate := 0.5;
     waveformHistory := [];
     historyLength := 30;
     historyUpdateRate := 1;
     frameCount := 0;
     currentThresholdDb := -28.0;
     knobs := [] |}.

(** What the engine sends out or writes to a knob's DOM node. *)
Inductive Effect : Type :=
| SendEventOrValue (param : string) (v : Q)
| KnobRotation (param : string) (deg : Q)
| KnobDisplayValue (param : string) (v : Q).

(* ------------------------------------------------------------------ *)
(** ** Knobs *)

(** The two source files differ only in these constants: the gesture
    sensitivity of [adjustKnobValue] and the smoothing factor of [animate]. *)
Record Variant : Type := mkVariant { sensitivity : Q; smoothing : Q }.

Definition compui : Variant := {| sensitivity := 0.3; smoothing := 0.2 |}.
Definition part_000 : Variant := {| sensitivity := 1.0; smoothing := 0.5 |}.

(** Angle written by [updateKnobRotation]: 270 degrees in total, offset -135. *)
Definition updateKnobRotation (knob : Knob.t) (value : Q) : Q :=
  let range := Knob.max knob - Knob.min knob in
  let pct := (value - Knob.min knob) / range in
  pct * 270 - 135.

(** A [.knob] element as [initializeKnobs] reads it: the parameter name and
    the three [data-] attributes after [parseFloat]. *)
Record KnobEl : Type := mkKnobEl {
  d_param : string;
  d_min : Q;
  d_max : Q;
  d_value : Q
}.

Definition initKnob (el : KnobEl) : Knob.t :=
  {| Knob.currentValue := d_value el;
     Knob.targetValue := d_value el;
     Knob.min := d_min el;
     Knob.max := d_max el;
     Knob.isDragging := false;
     Knob.lastY := 0 |}.

Definition initializeKnobs (knobEls : list KnobEl) (st : GUI) : GUI * list Effect :=
  fold_left
    (fun (acc : GUI * list Effect) el =>
       let (st, out) := acc in
       let knob := initKnob el in
       (set_knobs (assign (d_param el) knob (knobs st)) st,
        out ++ [KnobRotation (d_param el) (updateKnobRotation knob (d_value el));
                KnobDisplayValue (d_param el) (d_value el)]))
    knobEls (set_knobs [] st, []).

(** The [.knob] elements of the markup, in document order. *)
Definition knobEls : list KnobEl :=
  [ mkKnobEl "drive" 0.1 10 1.0;
    mkKnobEl "satMixIn" 0 1 1.0;
    mkKnobEl "inputGainIn" (-25) 25 0.0;
    mkKnobEl "ratioIn" 1 10 4.0;
    mkKnobEl "thresholdDbIn" (-60) 0 (-28.0);
    mkKnobEl "lookaheadMsIn" 0 50 5.0;
    mkKnobEl "attackMsIn" 1 100 25.0;
    mkKnobEl "releaseMsIn" 10 500 80.0;
    mkKnobEl "outputGainIn" (-25) 25 0.0;
    mkKnobEl "sidechainFreqIn" 20 20000 200.0;
    mkKnobEl "compMixIn" 0 1 1.0 ].

(* ------------------------------------------------------------------ *)
(** ** Patch listeners *)

(** [paramListener]: a parameter update from the host.  An [endpointID]
    that names no knob is ignored. *)
Definition paramListener (endpointID : string) (value : Q) (st : GUI)
  : GUI * list Effect :=
  match lookup endpointID (knobs st) with
  | None => (st, [])
  | Some knobObj =>
      let knobObj1 := Knob.set_targetValue value knobObj in
      let knobObj2 := Knob.set_currentValue value knobObj1 in
      let st1 := set_knobs (assign endpointID knobObj2 (knobs st)) st in
      let out := [KnobRotation endpointID (updateKnobRotation knobObj2 value);
                  KnobDisplayValue endpointID value] in
      if String.eqb endpointID "thresholdDbIn"
      then (set_currentThresholdDb value st1, out)
      else (st1, out)
  end.

Definition set_gainReduction_value (v : Q) (m : Meters) : Meters :=
  mkMeters (Meter.mk v (Meter.peak (gainReduction m))) (inputLevel m) (outputLevel m).
Definition set_inputLevel_value (v : Q) (m : Meters) : Meters :=
  mkMeters (gainReduction m) (Meter.mk v (Meter.peak (inputLevel m))) (outputLevel m).
Definition set_outputLevel_value (v : Q) (m : Meters) : Meters :=
  mkMeters (gainReduction m) (inputLevel m) (Meter.mk v (Meter.peak (outputLevel m))).

Definition gainReductionListener (value : Q) (st : GUI) : GUI :=
  set_meters (set_gainReduction_value value (meters st)) st.
Definition inputMeterListener (value : Q) (st : GUI) : GUI :=
  set_meters (set_inputLevel_value value (meters st)) st.
Definition outputMeterListener (value : Q) (st : GUI) : GUI :=
  set_meters (set_outputLevel_value value (meters st)) st.

Section Engine.

Variable v : Variant.

(** [adjustKnobValue] on the knob it has looked up. *)
Definition adjustKnob (knob : Knob.t) (deltaY : Q) : Knob.t :=
  let range := Knob.max knob - Knob.min knob in
  let change := (deltaY * sensitivity v * range) / 100 in
  Knob.set_targetValue
    (Math.max (Knob.min knob)
              (Math.min (Knob.max knob) (Knob.targetValue knob - change)))
    knob.

(** [adjustKnobValue]; [None] stands for the TypeError the source raises
    when [param] names no knob (its callers only pass keys of
    [this.knobs]). *)
Definition adjustKnobValue (param : string) (deltaY : Q) (st : GUI) : option GUI :=
  match lookup param (knobs st) with
  | None => None
  | Some knob => Some (set_knobs (assign param (adjustKnob knob deltaY) (knobs st)) st)
  end.

(* ---------------------------------------------------------------- *)
(** ** The animation loop *)

(** 1) If input is very low, force gain reduction to zero. *)
Definition silenceFloor (m : Meters) : Meters :=
  if Meter.value (inputLevel m) <? -50
  then mkMeters (Meter.mk 0 0) (inputLevel m) (outputLevel m)
  else m.

(** 2) Decay peaks for input and output. *)
Definition decayPeak (rate : Q) (m : Meter.t) : Meter.t :=
  Meter.mk (Meter.value m) (Math.max (Meter.value m) (Meter.peak m - rate)).

Definition decayPeaks (rate : Q) (m : Meters) : Meters :=
  mkMeters (gainReduction m)
           (decayPeak rate (inputLevel m))
           (decayPeak rate (outputLevel m)).

(** 3) If the gain reduction is near zero, force it to 0; otherwise the
    peak tracks the current value. *)
Definition deadZone (m : Meters) : Meters :=
  let gr := gainReduction m in
  if Math.abs (Meter.value gr) <? 0.05
  then mkMeters (Meter.mk 0 0) (inputLevel m) (outputLevel m)
  else mkMeters (Meter.mk (Meter.value gr) (Meter.value gr))
                (inputLevel m) (outputLevel m).

(** 4) Smooth knob transitions: the body of the [forEach] over
    [Object.keys(this.knobs)].  The keys are those of [this.knobs], so the
    lookup finds a knob; the [None] branch is there for totality only. *)
Definition smoothKnob (acc : GUI * list Effect) (param : string)
  : GUI * list Effect :=
  let (st, out) := acc in
  match lookup param (knobs st) with
  | None => acc
  | Some knob =>
      let diff := Knob.targetValue knob - Knob.currentValue knob in
      if Math.abs diff >? 0.0001 then
        let knob1 :=
          Knob.set_currentValue (Knob.currentValue knob + diff * smoothing v) knob in
        let cur := Knob.currentValue knob1 in
        let st1 := set_knobs (assign param knob1 (knobs st)) st in
        let out1 := out ++ [KnobRotation param (updateKnobRotation knob1 cur);
                            KnobDisplayValue param cur;
                            SendEventOrValue param cur] in
        if String.eqb param "thresholdDbIn"
        then (set_currentThresholdDb cur st1, out1)
        else (st1, out1)
      else acc
  end.

Definition smoothKnobs (st : GUI) : GUI * list Effect :=
  fold_left smoothKnob (keys (knobs st)) (st, []).

(** [waveformHistory.push(sample)] followed by the [shift] of the oldest
    entry when the length exceeds [historyLength]. *)
Definition pushSample (historyLength : nat) (history : list Sample) (s : Sample)
  : list Sample :=
  let history1 := history ++ [s] in
  if (historyLength <? List.length history1)%nat then tl history1 else history1.

(** 5) Waveform history. *)
Definition recordHistory (st : GUI) : GUI :=
  let frameCount1 := (frameCount st + 1)%Z in
  if (historyUpdateRate st <=? frameCount1)%Z then
    let m := meters st in
    let sample := {| s_inputLevel := Meter.value (inputLevel m);
                     s_gainReduction := Meter.value (gainReduction m);
                     s_outputLevel := Meter.value (outputLevel m) |} in
    set_history (pushSample (historyLength st) (waveformHistory st) sample) 0%Z st
  else set_history (waveformHistory st) frameCount1 st.

(** One animation frame, steps 1 to 5.  Step 6 only redraws from the
    state returned here (see [updateMeters] and [dbToY]). *)
Definition animate (st : GUI) : GUI * list Effect :=
  let m1 := silenceFloor (meters st) in
  let m2 := decayPeaks (decayRate st) m1 in
  let m3 := deadZone m2 in
  let (st4, out) := smoothKnobs (set_meters m3 st) in
  (recordHistory st4, out).

(** The state after [n] frames with nothing arriving in between. *)
Fixpoint frames (n : nat) (st : GUI) : GUI :=
  match n with
  | O => st
  | S n' => frames n' (fst (animate st))
  end.

End Engine.

(* ------------------------------------------------------------------ *)
(** ** Meter-LED colouring and the waveform scale *)

Definition dbToY (db height : Q) : Q :=
  let minDb := -60 in
  let maxDb := 12 in
  let dbRange := maxDb - minDb in
  let clamped := Math.max minDb (Math.min maxDb db) in
  let norm := (clamped - minDb) / dbRange in
  height * (1 - norm).

(** The keys of [meterMap], in its enumeration order. *)
Inductive MeterKey : Type := InputLevel | GainReduction | OutputLevel.

Record MeterCfg : Type := mkMeterCfg { minDb : Q; maxDb : Q; ascending : bool }.

Definition meterMap (param : MeterKey) : MeterCfg :=
  match param with
  | InputLevel => {| minDb := -36; maxDb := 6; ascending := true |}
  | GainReduction => {| minDb := 0; maxDb := -36; ascending := false |}
  | OutputLevel => {| minDb := -36; maxDb := 6; ascending := true |}
  end.

Definition isGainReduction (param : MeterKey) : bool :=
  match param with GainReduction => true | _ => false end.

Definition meterOf (param : MeterKey) (m : Meters) : Meter.t :=
  match param with
  | InputLevel => inputLevel m
  | GainReduction => gainReduction m
  | OutputLevel => outputLevel m
  end.

Definition ofNat (n : nat) : Q := inject_Z (Z.of_nat n).

(** The value a meter displays: its peak, with a gain reduction that is
    near zero forcibly shown as 0.0. *)
Definition meterValueOf (param : MeterKey) (peak : Q) : Q :=
  if isGainReduction param && (Math.abs peak <? 0.05) then 0.0 else peak.

Definition dbStepOf (cfg : MeterCfg) (total : nat) : Q :=
  let rng := Math.abs (maxDb cfg - minDb cfg) in
  rng / (ofNat total - 1).

Definition dotDbOf (cfg : MeterCfg) (total i : nat) : Q :=
  let dbStep := dbStepOf cfg total in
  if ascending cfg
  then minDb cfg + ofNat i * dbStep
  else minDb cfg - ofNat i * dbStep.

(** The intensity of dot [i] out of [total], as the loop body of
    [updateMeters] computes it, final clamp to [0, 1] included. *)
Definition dotIntensity (cfg : MeterCfg) (meterValue : Q) (total i : nat) : Q :=
  let dbStep := dbStepOf cfg total in
  let dotDb := dotDbOf cfg total i in
  let intensity :=
    if ascending cfg then
      if meterValue >=? dotDb then 1.0
      else if meterValue <? dotDb - dbStep then 0.0
      else (meterValue - (dotDb - dbStep)) / dbStep
    else
      let clampVal := Math.min 0 meterValue in
      if clampVal >=? -0.01 then 0.0
      else if clampVal <=? dotDb then 1.0
      else if clampVal >? dotDb + dbStep then 0.0
      else (dotDb + dbStep - clampVal) / dbStep in
  Math.max 0 (Math.min 1 intensity).

Definition activeColor (param : MeterKey) (dotDb : Q) : Color :=
  if isGainReduction param then redColor
  else if dotDb <? -12 then greenColor
  else if dotDb <? 0 then yellowColor
  else redColor.

(** What [updateMeters] writes to one dot: its background and whether it
    carries the [active] class.  (The glow of marker dots depends on DOM
    classes and is left out.) *)
Record Dot : Type := mkDot { background : string; active : bool }.

Definition updateDot (param : MeterKey) (meterValue : Q) (total i : nat) : Dot :=
  let cfg := meterMap param in
  let intensity := dotIntensity cfg meterValue total i in
  {| background := lerpColor offColor (activeColor param (dotDbOf cfg total i)) intensity;
     active := intensity >? 0 |}.

(** The dots of one meter, for a meter element holding [total] dots. *)
Definition updateMeter (param : MeterKey) (st : GUI) (total : nat) : list Dot :=
  let meterValue := meterValueOf param (Meter.peak (meterOf param (meters st))) in
  map (updateDot param meterValue total) (seq 0 total).

Definition updateMeters (dots : MeterKey -> nat) (st : GUI)
  : list (MeterKey * list Dot) :=
  map (fun param => (param, updateMeter param st (dots param)))
      [InputLevel; GainReduction; OutputLevel].

(* ------------------------------------------------------------------ *)
(** ** Notions used in the statements *)

(** The clamp idiom of the source ([adjustKnobValue], [dbToY]). *)
Definition clamp (lo hi x : Q) : Q := Math.max lo (Math.min hi x).

(** What one frame does to one knob, read off the body of [smoothKnob]:
    the knob afterwards, and the values sent to the host for it. *)
Definition stepKnob (v : Variant) (knob : Knob.t) : Knob.t :=
  let diff := Knob.targetValue knob - Knob.currentValue knob in
  if Math.abs diff >? 0.0001
  then Knob.set_currentValue (Knob.currentValue knob + diff * smoothing v) knob
  else knob.

Definition sentOf (v : Variant) (knob : Knob.t) : list Q :=
  let diff := Knob.targetValue knob - Knob.currentValue knob in
  if Math.abs diff >? 0.0001
  then [Knob.currentValue knob + diff * smoothing v]
  else [].

Fixpoint stepsKnob (v : Variant) (n : nat) (knob : Knob.t) : Knob.t :=
  match n with
  | O => knob
  | S n' => stepsKnob v n' (stepKnob v knob)
  end.

(** The values sent to the host for [param], in the order of sending. *)
Definition sentFor (param : string) (out : list Effect) : list Q :=
  flat_map
    (fun e =>
       match e with
       | SendEventOrValue p x => if String.eqb p param then [x] else []
       | _ => []
       end)
    out.

(** The range invariant of a knob, and of every knob of a state. *)
Definition inRange (knob : Knob.t) : Prop :=
  Knob.min knob <= Knob.currentValue knob <= Knob.max knob /\
  Knob.min knob <= Knob.targetValue knob <= Knob.max knob.

Definition knobsInRange (st : GUI) : Prop :=
  forall param knob, lookup param (knobs st) = Some knob -> inRange knob.

(** A host echo whose value lies within the bounds of the knob it names. *)
Definition hostValueInRange (endpointID : string) (value : Q) (st : GUI) : Prop :=
  forall knob,
    lookup endpointID (knobs st) = Some knob ->
    Knob.min knob <= value <= Knob.max knob.

(** A knob element whose initial value lies within its bounds. *)
Definition knobElInRange (el : KnobEl) : Prop :=
  d_min el <= d_value el <= d_max el.

(** The events of the engine: a host echo (here with an in-range value), a
    gesture delta, a meter sample and an animation frame. *)
Inductive step (v : Variant) : GUI -> GUI -> Prop :=
| step_hostValue (endpointID : string) (value : Q) (st : GUI) :
    hostValueInRange endpointID value st ->
    step v st (fst (paramListener endpointID value st))
| step_gestureDelta (param : string) (deltaY : Q) (st st' : GUI) :
    adjustKnobValue v param deltaY st = Some st' ->
    step v st st'
| step_gainReduction (value : Q) (st : GUI) :
    step v st (gainReductionListener value st)
| step_inputMeter (value : Q) (st : GUI) :
    step v st (inputMeterListener value st)
| step_outputMeter (value : Q) (st : GUI) :
    step v st (outputMeterListener value st)
| step_frame (st : GUI) :
    step v st (fst (animate v st)).

(** The states reached from an initialization with in-range knob elements. *)
Inductive reachable (v : Variant) : GUI -> Prop :=
| reachable_init (els : list KnobEl) (st0 : GUI) :
    Forall knobElInRange els ->
    reachable v (fst (initializeKnobs els st0))
| reachable_step (st st' : GUI) :
    reachable v st -> step v st st' -> reachable v st'.

(* ------------------------------------------------------------------ *)
(** ** One colour channel *)

(** The channel computation [lerpColor] repeats three times. *)
Definition lerpChannel (off on t : Q) : Z :=
  Math.round (off + (on - off) * cubicEase t).

(** A colour with integer channels, and the [rgb(r, g, b)] text of the
    template literal in [lerpColor]. *)
Definition intColor (r g b : Z) : Color := (inject_Z r, inject_Z g, inject_Z b).

Definition rgbText (r g b : Z) : string :=
  ("rgb(" ++ showZ r ++ ", " ++ showZ g ++ ", " ++ showZ b ++ ")")%string.

(* ------------------------------------------------------------------ *)
(** ** Knob drag events *)

(** Assignment to the [isDragging] and [lastY] fields of a knob. *)
Definition set_drag (isDragging : bool) (lastY : Q) (k : Knob.t) : Knob.t :=
  Knob.mk (Knob.currentValue k) (Knob.targetValue k) (Knob.min k) (Knob.max k)
          isDragging lastY.

(** [startKnobDrag]: the mouse went down on the knob of [param] at height
    [clientY].  [None] stands for the TypeError of a [param] that names no
    knob (the listeners are only installed on knob elements). *)
Definition startKnobDrag (clientY : Q) (param : string) (st : GUI) : option GUI :=
  match lookup param (knobs st) with
  | None => None
  | Some knob =>
      Some (set_knobs (assign param (set_drag true clientY knob) (knobs st)) st)
  end.

(** [stopKnobDrag]: every knob stops dragging. *)
Definition releaseKnob (st : GUI) (param : string) : GUI :=
  match lookup param (knobs st) with
  | None => st
  | Some knob =>
      set_knobs (assign param (set_drag false (Knob.lastY knob) knob) (knobs st)) st
  end.

Definition stopKnobDrag (st : GUI) : GUI :=
  fold_left releaseKnob (keys (knobs st)) st.

Section Gestures.

Variable v : Variant.

(** What a pointer move to height [clientY] does to one knob: a dragging
    knob takes the delta since [lastY], remembers [clientY] and goes through
    [adjustKnobValue]; any other knob is left alone. *)
Definition dragStep (clientY : Q) (knob : Knob.t) : Knob.t :=
  if Knob.isDragging knob then
    let deltaY := clientY - Knob.lastY knob in
    adjustKnob v (set_drag (Knob.isDragging knob) clientY knob) deltaY
  else knob.

(** The body of the [forEach] of [handleKnobDrag]. *)
Definition dragKnob (clientY : Q) (st : GUI) (param : string) : GUI :=
  match lookup param (knobs st) with
  | None => st
  | Some knob =>
      if Knob.isDragging knob
      then set_knobs (assign param (dragStep clientY knob) (knobs st)) st
      else st
  end.

(** [handleKnobDrag]: the mouse moved to height [clientY]. *)
Definition handleKnobDrag (clientY : Q) (st : GUI) : GUI :=
  fold_left (dragKnob clientY) (keys (knobs st)) st.

(** The body of the [forEach] of [handleKnobTouch] in [compui.js];
    [touches] lists the [clientY] of the touches of the event and the
    boolean is [anyKnobDragging]. *)
Definition touchKnob (touches : list Q) (acc : GUI * bool) (param : string)
  : GUI * bool :=
  let (st, anyKnobDragging) := acc in
  match lookup param (knobs st) with
  | None => acc
  | Some knob =>
      match touches with
      | clientY :: _ =>
          if Knob.isDragging knob
          then (set_knobs (assign param (dragStep clientY knob) (knobs st)) st, true)
          else acc
      | [] => acc
      end
  end.

(** [handleKnobTouch] of [compui.js]: the new state, and whether
    [preventDefault] was called on the event.  (The other source file runs
    the same loop but decides on [preventDefault] before it, from
    [isDragging] alone.) *)
Definition handleKnobTouch (touches : list Q) (st : GUI) : GUI * bool :=
  fold_left (touchKnob touches) (keys (knobs st)) (st, false).

End Gestures.

(* ------------------------------------------------------------------ *)
(** ** The events of the view *)

(** The bounds of the knob of [param], if there is one. *)
Definition boundsAt (st : GUI) (param : string) : option (Q * Q) :=
  option_map (fun k => (Knob.min k, Knob.max k)) (lookup param (knobs st)).

(** The threshold line of the waveform shows the current value of the
    threshold knob. *)
Definition thresholdSynced (st : GUI) : Prop :=
  forall knob,
    lookup "thresholdDbIn" (knobs st) = Some knob ->
    currentThresholdDb st = Knob.currentValue knob.

(** Every event that reaches the state once the view is connected: host
    echoes and meter samples with any value, mouse and touch events on the
    knobs, and animation frames. *)
Inductive uiStep (v : Variant) : GUI -> GUI -> Prop :=
| ui_paramListener (endpointID : string) (value : Q) (st : GUI) :
    uiStep v st (fst (paramListener endpointID value st))
| ui_gainReductionListener (value : Q) (st : GUI) :
    uiStep v st (gainReductionListener value st)
| ui_inputMeterListener (value : Q) (st : GUI) :
    uiStep v st (inputMeterListener value st)
| ui_outputMeterListener (value : Q) (st : GUI) :
    uiStep v st (outputMeterListener value st)
| ui_startKnobDrag (clientY : Q) (param : string) (st st' : GUI) :
    startKnobDrag clientY param st = Some st' ->
    uiStep v st st'
| ui_handleKnobDrag (clientY : Q) (st : GUI) :
    uiStep v st (handleKnobDrag v clientY st)
| ui_handleKnobTouch (touches : list Q) (st : GUI) :
    uiStep v st (fst (handleKnobTouch v touches st))
| ui_stopKnobDrag (st : GUI) :
    uiStep v st (stopKnobDrag st)
| ui_animate (st : GUI) :
    uiStep v st (fst (animate v st)).

(** The states of a view built by the constructor and connected with the
    knob elements of the markup. *)
Inductive uiReachable (v : Variant) : GUI -> Prop :=
| ui_connected :
    uiReachable v (fst (initializeKnobs knobEls constructor))
| ui_event (st st' : GUI) :
    uiReachable v st -> uiStep v st st' -> uiReachable v st'.

(* ------------------------------------------------------------------ *)
(** ** Meter markers and scale labels *)

(** The marker tables; they hold integers. *)
Definition inputOutputDbMarkers : list Z := [-36; -30; -24; -18; -12; -6; 0; 6]%Z.
Definition gainReductionDbMarkers : list Z := [0; -6; -12; -18; -24; -30; -36]%Z.

(** The number of dots [getHTML] puts into each meter. *)
Definition makeDots : nat := 24.

(** The dot index [initMeter] computes for a marker, on a meter with [total]
    dots, for a scale with [minDb] different from [maxDb]. *)
Definition markerIndex (reversed : bool) (minDb maxDb : Q) (total : nat) (marker : Z)
  : Z :=
  let rng := Math.abs (maxDb - minDb) in
  let frac := if reversed
              then (minDb - inject_Z marker) / rng
              else (inject_Z marker - minDb) / rng in
  Math.round (Math.max 0 (Math.min 1 frac) * (ofNat total - 1)).

(** The dots of a meter element as [initMeter] sees them: a dot is either
    plain or a marker dot carrying its [dbValue]. *)
Definition Dots : Type := list (option Z).

Fixpoint setDot (idx : nat) (marker : Z) (dots : Dots) : Dots :=
  match dots, idx with
  | [], _ => []
  | _ :: rest, O => Some marker :: rest
  | d :: rest, S idx' => d :: setDot idx' marker rest
  end.

(** One pass of the [forEach] of [initMeter]: [dots[idx]] is marked; [None]
    stands for the TypeError of an index that names no dot. *)
Definition markDot (reversed : bool) (minDb maxDb : Q) (acc : option Dots) (marker : Z)
  : option Dots :=
  match acc with
  | None => None
  | Some dots =>
      let idx := markerIndex reversed minDb maxDb (List.length dots) marker in
      if ((0 <=? idx)%Z && (idx <? Z.of_nat (List.length dots))%Z)%bool
      then Some (setDot (Z.to_nat idx) marker dots)
      else None
  end.

Definition initMeter (markers : list Z) (minDb maxDb : Q) (reversed : bool) (dots : Dots)
  : option Dots :=
  fold_left (markDot reversed minDb maxDb) markers (Some dots).




(* ------------------------------------------------------------------ *)
(** ** The waveform bars *)

(** A rectangle handed to [fillRect]. *)
Record Rect : Type := mkRect { rx : Q; ry : Q; rw : Q; rh : Q }.

(** The history bars [drawWaveform] fills on a canvas of width [w] and
    height [h]: one per sample whose bar height is positive. *)
Definition waveformBars (w h : Q) (st : GUI) : list Rect :=
  if (0 <? List.length (waveformHistory st))%nat then
    let barW := w / ofNat (historyLength st) in
    flat_map
      (fun entry : nat * Sample =>
         let (i, sample) := entry in
         let x := ofNat i * barW in
         let lvl := s_inputLevel sample in
         let y := dbToY lvl h in
         let barH := h - y in
         if barH >? 0 then [mkRect x y (barW - 1) barH] else [])
      (combine (seq 0 (List.length (waveformHistory st))) (waveformHistory st))
  else [].

(* ------------------------------------------------------------------ *)
(** * Properties *)

(** ** Comparisons and [Math] *)

Lemma Qltb_true (x y : Q) : (x <? y) = true <-> x < y.
Proof.
  unfold Qltb. destruct (Qlt_le_dec x y) as [H | H]; split; intro H0;
    try reflexivity; try assumption; try discriminate.
  exfalso. apply (Qlt_not_le _ _ H0 H).
Qed.

Lemma Qltb_false (x y : Q) : (x <? y) = false <-> y <= x.
Proof.
  unfold Qltb. destruct (Qlt_le_dec x y) as [H | H]; split; intro H0;
    try reflexivity; try assumption; try discriminate.
  exfalso. apply (Qlt_not_le _ _ H H0).
Qed.

Lemma Qleb_true (x y : Q) : (x <=? y) = true <-> x <= y.
Proof. unfold Qleb. apply Qle_bool_iff. Qed.

Lemma Qleb_false (x y : Q) : (x <=? y) = false <-> y < x.
Proof.
  unfold Qleb. split; intro H.
  - apply Qnot_le_lt. intro H0. apply Qle_bool_iff in H0. congruence.
  - destruct (Qle_bool x y) eqn:E; [| reflexivity].
    apply Qle_bool_iff in E. exfalso. apply (Qlt_not_le _ _ H E).
Qed.

Lemma max_cases (a b : Q) :
  (a < b /\ Math.max a b = b) \/ (b <= a /\ Math.max a b = a).
Proof.
  unfold Math.max, Qmax, GenericMinMax.gmax.
  destruct (a ?= b) eqn:E.
  - right. split; [| reflexivity]. apply Qeq_alt in E. rewrite E. apply Qle_refl.
  - left. split; [| reflexivity]. apply Qlt_alt. exact E.
  - right. split; [| reflexivity]. apply Qgt_alt in E. apply Qlt_le_weak. exact E.
Qed.

Lemma min_cases (a b : Q) :
  (a <= b /\ Math.min a b = a) \/ (b < a /\ Math.min a b = b).
Proof.
  unfold Math.min, Qmin, GenericMinMax.gmin.
  destruct (a ?= b) eqn:E.
  - left. split; [| reflexivity]. apply Qeq_alt in E. rewrite E. apply Qle_refl.
  - left. split; [| reflexivity]. apply Qlt_alt in E. apply Qlt_le_weak. exact E.
  - right. split; [| reflexivity]. apply Qgt_alt. exact E.
Qed.

Lemma abs_cases (a : Q) :
  (0 <= a /\ Math.abs a == a) \/ (a < 0 /\ Math.abs a == - a).
Proof.
  unfold Math.abs. destruct (Qlt_le_dec a 0) as [H | H].
  - right. split; [exact H |]. apply Qabs_neg. apply Qlt_le_weak. exact H.
  - left. split; [exact H |]. apply Qabs_pos. exact H.
Qed.

Lemma clamp_in_range (lo hi x : Q) : lo <= hi -> lo <= clamp lo hi x <= hi.
Proof.
  intro H. unfold clamp.
  destruct (min_cases hi x) as [[H1 ->] | [H1 ->]];
    [destruct (max_cases lo hi) as [[H2 ->] | [H2 ->]]
    | destruct (max_cases lo x) as [[H2 ->] | [H2 ->]]]; lra.
Qed.

Lemma clamp_id (lo hi x : Q) : lo <= x <= hi -> clamp lo hi x == x.
Proof.
  intros [H1 H2]. unfold clamp.
  destruct (min_cases hi x) as [[H3 ->] | [H3 ->]];
    [destruct (max_cases lo hi) as [[H4 ->] | [H4 ->]]
    | destruct (max_cases lo x) as [[H4 ->] | [H4 ->]]]; lra.
Qed.

(** ** [cubicEase] and [lerpColor] *)

Lemma pow3 (x : Q) : Math.pow x 3 == x * x * x.
Proof. unfold Math.pow. simpl. ring. Qed.

Lemma cube_le (a b : Q) : 0 <= a -> a <= b -> a * a * a <= b * b * b.
Proof.
  intros Ha Hab.
  assert (H1 : a * a <= b * b) by nra.
  assert (H2 : 0 <= a * a) by nra.
  assert (H3 : a * a * a <= b * b * a) by nra.
  assert (H4 : b * b * a <= b * b * b) by nra.
  lra.
Qed.

Lemma cubicEase_lo (t : Q) : t < 0.5 -> cubicEase t == 4 * t * t * t.
Proof.
  intro H. unfold cubicEase. apply Qltb_true in H. rewrite H. reflexivity.
Qed.

Lemma cubicEase_hi (t : Q) :
  0.5 <= t ->
  cubicEase t == 1 - (-2 * t + 2) * (-2 * t + 2) * (-2 * t + 2) * (1 # 2).
Proof.
  intro H. unfold cubicEase. apply Qltb_false in H. rewrite H.
  rewrite pow3. unfold Qdiv. reflexivity.
Qed.

(** C6: [cubicEase] is 0 at 0, 0.5 at 0.5 and 1 at 1, and it is monotonically
    non-decreasing on the interval from 0 to 1. *)
Theorem cubicEase_endpoints_monotone :
  cubicEase 0 == 0 /\ cubicEase 0.5 == 0.5 /\ cubicEase 1 == 1 /\
  forall s t : Q, 0 <= s -> s <= t -> t <= 1 -> cubicEase s <= cubicEase t.
Proof.
  split; [reflexivity |]. split; [reflexivity |]. split; [reflexivity |].
  intros s t H0 H1 H2.
  destruct (Qlt_le_dec s 0.5) as [Hs | Hs]; destruct (Qlt_le_dec t 0.5) as [Ht | Ht].
  - rewrite (cubicEase_lo s Hs), (cubicEase_lo t Ht).
    pose proof (cube_le s t H0 H1). lra.
  - rewrite (cubicEase_lo s Hs), (cubicEase_hi t Ht).
    assert (Hs1 : s <= 1 # 2) by lra.
    pose proof (cube_le s (1 # 2) H0 Hs1) as Hc.
    assert (Ht0 : 0 <= -2 * t + 2) by lra.
    assert (Ht1 : -2 * t + 2 <= 1) by lra.
    pose proof (cube_le (-2 * t + 2) 1 Ht0 Ht1) as Hd.
    lra.
  - lra.
  - rewrite (cubicEase_hi s Hs), (cubicEase_hi t Ht).
    assert (Ht0 : 0 <= -2 * t + 2) by lra.
    assert (Hts : -2 * t + 2 <= -2 * s + 2) by lra.
    pose proof (cube_le _ _ Ht0 Hts) as Hd.
    lra.
Qed.

Lemma cubicEase_endpoints_monotone_witness :
  cubicEase 0.25 <= cubicEase 0.75.
Proof.
  apply (proj2 (proj2 (proj2 cubicEase_endpoints_monotone)) 0.25 0.75).
  - vm_compute. discriminate.
  - vm_compute. discriminate.
  - vm_compute. discriminate.
Defined.



Lemma dotIntensity_range (cfg : MeterCfg) (meterValue : Q) (total i : nat) :
  0 <= dotIntensity cfg meterValue total i <= 1.
Proof.
  unfold dotIntensity. apply (clamp_in_range 0 1). lra.
Qed.




(** ** Gain-reduction LEDs *)

(** C10: in the gain-reduction branch the meter value is first clamped to
    [min(0, value)]; whenever that is at least -0.01, so in particular for
    every non-negative meter value, every dot gets intensity exactly 0, the
    off colour and no [active] class. *)
Theorem gainReduction_dots_dark (meterValue : Q) (total i : nat) :
  (0 <= meterValue -> -0.01 <= Math.min 0 meterValue) /\
  (-0.01 <= Math.min 0 meterValue ->
   dotIntensity (meterMap GainReduction) meterValue total i = 0 /\
   updateDot GainReduction meterValue total i =
     {| background := "rgb(51, 51, 51)"; active := false |}).
Proof.
  split.
  - intro H. destruct (min_cases 0 meterValue) as [[H1 ->] | [H1 ->]]; lra.
  - intro H.
    assert (Hi : dotIntensity (meterMap GainReduction) meterValue total i = 0).
    { unfold dotIntensity. cbn [meterMap ascending].
      apply Qleb_true in H. rewrite H. reflexivity. }
    split; [exact Hi |].
    unfold updateDot. rewrite Hi. reflexivity.
Qed.

Lemma gainReduction_dots_dark_witness :
  dotIntensity (meterMap GainReduction) 6 24 0 = 0 /\
  updateDot GainReduction 6 24 0 =
    {| background := "rgb(51, 51, 51)"; active := false |}.
Proof.
  apply (proj2 (gainReduction_dots_dark 6 24 0)).
  apply (proj1 (gainReduction_dots_dark 6 24 0)).
  vm_compute. discriminate.
Defined.

(** ** The knob store *)

Lemma lookup_assign_same (p : string) (k : Knob.t) (ks : Knobs) :
  lookup p (assign p k ks) = Some k.
Proof.
  induction ks as [| [p0 k0] rest IH]; simpl.
  - rewrite String.eqb_refl. reflexivity.
  - destruct (String.eqb p0 p) eqn:E; simpl; rewrite E; [reflexivity | exact IH].
Qed.

Lemma lookup_assign_other (p q : string) (k : Knob.t) (ks : Knobs) :
  p <> q -> lookup q (assign p k ks) = lookup q ks.
Proof.
  intro Hpq. induction ks as [| [p0 k0] rest IH]; simpl.
  - apply String.eqb_neq in Hpq. rewrite Hpq. reflexivity.
  - destruct (String.eqb p0 p) eqn:E; simpl.
    + apply String.eqb_eq in E. subst p0.
      apply String.eqb_neq in Hpq. rewrite Hpq. reflexivity.
    + rewrite IH. reflexivity.
Qed.

Lemma keys_assign_known (p : string) (k k0 : Knob.t) (ks : Knobs) :
  lookup p ks = Some k0 -> keys (assign p k ks) = keys ks.
Proof.
  induction ks as [| [p1 k1] rest IH]; simpl; [discriminate |].
  destruct (String.eqb p1 p) eqn:E; simpl; intro H; [reflexivity |].
  f_equal. apply IH. exact H.
Qed.

Lemma lookup_in_keys (p : string) (k : Knob.t) (ks : Knobs) :
  lookup p ks = Some k -> In p (keys ks).
Proof.
  induction ks as [| [p1 k1] rest IH]; simpl; [discriminate |].
  destruct (String.eqb p1 p) eqn:E; intro H.
  - left. apply String.eqb_eq. exact E.
  - right. apply IH. exact H.
Qed.

Lemma keys_assign_fresh (p : string) (k : Knob.t) (ks : Knobs) :
  lookup p ks = None -> keys (assign p k ks) = keys ks ++ [p].
Proof.
  induction ks as [| [p1 k1] rest IH]; simpl; [reflexivity |].
  destruct (String.eqb p1 p) eqn:E; simpl; intro H; [discriminate |].
  f_equal. apply IH. exact H.
Qed.

Lemma lookup_none_not_in (p : string) (ks : Knobs) :
  lookup p ks = None -> ~ In p (keys ks).
Proof.
  induction ks as [| [p1 k1] rest IH]; simpl; intros H Hin; [exact Hin |].
  destruct (String.eqb p1 p) eqn:E; [discriminate |].
  destruct Hin as [Heq | Hin].
  - apply String.eqb_neq in E. exact (E Heq).
  - exact (IH H Hin).
Qed.

Lemma NoDup_keys_assign (p : string) (k : Knob.t) (ks : Knobs) :
  NoDup (keys ks) -> NoDup (keys (assign p k ks)).
Proof.
  intro H. destruct (lookup p ks) as [k0 |] eqn:E.
  - rewrite (keys_assign_known p k k0 ks E). exact H.
  - rewrite (keys_assign_fresh p k ks E).
    apply NoDup_rev in H. rewrite <- (rev_involutive (keys ks ++ [p])).
    apply NoDup_rev. rewrite rev_app_distr. simpl.
    constructor; [| exact H].
    rewrite <- in_rev. apply lookup_none_not_in. exact E.
Qed.

(** ** Host echoes *)

(** C1 (counterexample): the markup gives the [satMixIn] knob the range
    from 0 to 1; a host echo of 2 leaves both of its values at 2, which is
    not the clamped value 1. *)
Lemma paramListener_stores_out_of_range :
  let st := fst (initializeKnobs knobEls constructor) in
  exists knob knob',
    lookup "satMixIn" (knobs st) = Some knob /\
    Knob.min knob = 0 /\ Knob.max knob = 1 /\
    lookup "satMixIn" (knobs (fst (paramListener "satMixIn" 2 st))) = Some knob' /\
    Knob.currentValue knob' = 2 /\ Knob.targetValue knob' = 2 /\
    clamp (Knob.min knob) (Knob.max knob) 2 = 1 /\
    ~ Knob.currentValue knob' == clamp (Knob.min knob) (Knob.max knob) 2.
Proof.
  eexists. eexists.
  split; [vm_compute; reflexivity |].
  split; [reflexivity |]. split; [reflexivity |].
  split; [vm_compute; reflexivity |].
  split; [reflexivity |]. split; [reflexivity |].
  split; [reflexivity |].
  vm_compute. discriminate.
Qed.

(** C1 (amended): for a host echo of a known parameter, [paramListener]
    sets both [targetValue] and [currentValue] to the host value as
    received, without clamping, and leaves the bounds alone; the stored
    value is the clamped one whenever the host value lies within the
    bounds. *)
Theorem paramListener_sets_both
  (endpointID : string) (value : Q) (st : GUI) (knobObj : Knob.t) :
  lookup endpointID (knobs st) = Some knobObj ->
  exists knob',
    lookup endpointID (knobs (fst (paramListener endpointID value st))) = Some knob' /\
    Knob.currentValue knob' = value /\
    Knob.targetValue knob' = value /\
    Knob.min knob' = Knob.min knobObj /\
    Knob.max knob' = Knob.max knobObj /\
    (Knob.min knobObj <= value <= Knob.max knobObj ->
     Knob.currentValue knob' == clamp (Knob.min knobObj) (Knob.max knobObj) value /\
     Knob.targetValue knob' == clamp (Knob.min knobObj) (Knob.max knobObj) value).
Proof.
  intro H.
  exists (Knob.set_currentValue value (Knob.set_targetValue value knobObj)).
  split.
  - unfold paramListener. rewrite H.
    destruct (String.eqb endpointID "thresholdDbIn"); cbn [fst];
      apply lookup_assign_same.
  - cbn. repeat split; try reflexivity;
      symmetry; apply clamp_id; assumption.
Qed.

Lemma paramListener_sets_both_witness :
  exists knob',
    lookup "satMixIn"
      (knobs (fst (paramListener "satMixIn" 0.5
                     (fst (initializeKnobs knobEls constructor))))) = Some knob' /\
    Knob.currentValue knob' = 0.5 /\
    Knob.targetValue knob' = 0.5 /\
    Knob.min knob' = 0 /\
    Knob.max knob' = 1 /\
    (0 <= 0.5 <= 1 ->
     Knob.currentValue knob' == clamp 0 1 0.5 /\
     Knob.targetValue knob' == clamp 0 1 0.5).
Proof.
  apply (paramListener_sets_both "satMixIn" 0.5
           (fst (initializeKnobs knobEls constructor))
           (Knob.mk 1.0 1.0 0 1 false 0)).
  vm_compute. reflexivity.
Defined.

(** ** Gestures *)

(** C9: a gesture delta moves [targetValue] to
    [clamp(targetValue - deltaY * sensitivity * (max - min) / 100, min, max)]
    and leaves [currentValue], the bounds, every other knob and the rest of
    the state as they were; a pointer moving up (a delta that is not
    positive) does not decrease the target of a knob that is in range. *)
Theorem adjustKnobValue_moves_target_only
  (v : Variant) (param : string) (deltaY : Q) (st : GUI) (knob : Knob.t) :
  lookup param (knobs st) = Some knob ->
  exists st' knob',
    adjustKnobValue v param deltaY st = Some st' /\
    lookup param (knobs st') = Some knob' /\
    Knob.targetValue knob' =
      clamp (Knob.min knob) (Knob.max knob)
            (Knob.targetValue knob
             - deltaY * sensitivity v * (Knob.max knob - Knob.min knob) / 100) /\
    Knob.currentValue knob' = Knob.currentValue knob /\
    Knob.min knob' = Knob.min knob /\
    Knob.max knob' = Knob.max knob /\
    (forall q, q <> param -> lookup q (knobs st') = lookup q (knobs st)) /\
    meters st' = meters st /\
    waveformHistory st' = waveformHistory st /\
    currentThresholdDb st' = currentThresholdDb st /\
    (0 <= sensitivity v -> deltaY <= 0 ->
     Knob.min knob <= Knob.targetValue knob <= Knob.max knob ->
     Knob.targetValue knob <= Knob.targetValue knob').
Proof.
  intro H. unfold adjustKnobValue. rewrite H.
  eexists. exists (adjustKnob v knob deltaY).
  split; [reflexivity |].
  split; [apply lookup_assign_same |].
  split; [reflexivity |].
  split; [reflexivity |]. split; [reflexivity |]. split; [reflexivity |].
  split.
  { intros q Hq. cbn. apply lookup_assign_other. congruence. }
  split; [reflexivity |]. split; [reflexivity |]. split; [reflexivity |].
  intros Hs Hd [Hlo Hhi]. cbn.
  set (change := deltaY * sensitivity v * (Knob.max knob - Knob.min knob) / 100).
  assert (Hc : change <= 0).
  { unfold change, Qdiv.
    assert (H1 : 0 <= sensitivity v * (Knob.max knob - Knob.min knob)) by nra.
    assert (H2 : deltaY * (sensitivity v * (Knob.max knob - Knob.min knob)) <= 0)
      by nra.
    assert (H3 : / 100 == 1 # 100) by reflexivity.
    rewrite H3. lra. }
  destruct (min_cases (Knob.max knob) (Knob.targetValue knob - change))
    as [[H1 ->] | [H1 ->]];
    [destruct (max_cases (Knob.min knob) (Knob.max knob)) as [[H2 ->] | [H2 ->]]
    | destruct (max_cases (Knob.min knob) (Knob.targetValue knob - change))
        as [[H2 ->] | [H2 ->]]]; lra.
Qed.

Lemma adjustKnobValue_moves_target_only_witness :
  exists st' knob',
    adjustKnobValue compui "satMixIn" 10
      (fst (initializeKnobs knobEls constructor)) = Some st' /\
    lookup "satMixIn" (knobs st') = Some knob' /\
    Knob.targetValue knob' = clamp 0 1 (1.0 - 10 * 0.3 * (1 - 0) / 100) /\
    Knob.currentValue knob' = 1.0.
Proof.
  destruct (adjustKnobValue_moves_target_only compui "satMixIn" 10
              (fst (initializeKnobs knobEls constructor))
              (Knob.mk 1.0 1.0 0 1 false 0))
    as (st' & knob' & H1 & H2 & H3 & H4 & _).
  - vm_compute. reflexivity.
  - exists st', knob'. repeat split; assumption.
Defined.

(** ** The animation loop: meters *)

Lemma smoothKnob_frame (v : Variant) (acc : GUI * list Effect) (param : string) :
  meters (fst (smoothKnob v acc param)) = meters (fst acc) /\
  decayRate (fst (smoothKnob v acc param)) = decayRate (fst acc) /\
  waveformHistory (fst (smoothKnob v acc param)) = waveformHistory (fst acc) /\
  historyLength (fst (smoothKnob v acc param)) = historyLength (fst acc) /\
  historyUpdateRate (fst (smoothKnob v acc param)) = historyUpdateRate (fst acc) /\
  frameCount (fst (smoothKnob v acc param)) = frameCount (fst acc) /\
  keys (knobs (fst (smoothKnob v acc param))) = keys (knobs (fst acc)).
Proof.
  destruct acc as [st out]. unfold smoothKnob.
  destruct (lookup param (knobs st)) as [knob |] eqn:E; [| repeat split].
  destruct (Math.abs (Knob.targetValue knob - Knob.currentValue knob) >? 0.0001);
    [| repeat split].
  destruct (String.eqb param "thresholdDbIn"); cbn;
    repeat split; apply (keys_assign_known _ _ knob); exact E.
Qed.

Lemma smoothKnobs_fold_frame (v : Variant) (ps : list string) :
  forall acc : GUI * list Effect,
    meters (fst (fold_left (smoothKnob v) ps acc)) = meters (fst acc) /\
    decayRate (fst (fold_left (smoothKnob v) ps acc)) = decayRate (fst acc) /\
    waveformHistory (fst (fold_left (smoothKnob v) ps acc)) = waveformHistory (fst acc) /\
    historyLength (fst (fold_left (smoothKnob v) ps acc)) = historyLength (fst acc) /\
    historyUpdateRate (fst (fold_left (smoothKnob v) ps acc)) = historyUpdateRate (fst acc) /\
    frameCount (fst (fold_left (smoothKnob v) ps acc)) = frameCount (fst acc) /\
    keys (knobs (fst (fold_left (smoothKnob v) ps acc))) = keys (knobs (fst acc)).
Proof.
  induction ps as [| p ps IH]; intro acc; simpl; [repeat split |].
  destruct (IH (smoothKnob v acc p)) as (H1 & H2 & H3 & H4 & H5 & H6 & H7).
  destruct (smoothKnob_frame v acc p) as (G1 & G2 & G3 & G4 & G5 & G6 & G7).
  repeat split; congruence.
Qed.

Lemma animate_fst (v : Variant) (st : GUI) :
  fst (animate v st) =
    recordHistory
      (fst (smoothKnobs v
              (set_meters
                 (deadZone (decayPeaks (decayRate st) (silenceFloor (meters st))))
                 st))).
Proof.
  unfold animate.
  destruct (smoothKnobs v _) as [st4 out]. reflexivity.
Qed.

Lemma animate_snd (v : Variant) (st : GUI) :
  snd (animate v st) =
    snd (smoothKnobs v
           (set_meters
              (deadZone (decayPeaks (decayRate st) (silenceFloor (meters st))))
              st)).
Proof.
  unfold animate.
  destruct (smoothKnobs v _) as [st4 out]. reflexivity.
Qed.

Lemma recordHistory_frame (st : GUI) :
  meters (recordHistory st) = meters st /\
  knobs (recordHistory st) = knobs st /\
  decayRate (recordHistory st) = decayRate st /\
  historyLength (recordHistory st) = historyLength st /\
  historyUpdateRate (recordHistory st) = historyUpdateRate st.
Proof.
  unfold recordHistory.
  destruct (historyUpdateRate st <=? frameCount st + 1)%Z; repeat split.
Qed.

Lemma animate_meters (v : Variant) (st : GUI) :
  meters (fst (animate v st)) =
    deadZone (decayPeaks (decayRate st) (silenceFloor (meters st))).
Proof.
  rewrite animate_fst.
  destruct (recordHistory_frame
              (fst (smoothKnobs v
                      (set_meters
                         (deadZone (decayPeaks (decayRate st)
                                      (silenceFloor (meters st)))) st))))
    as [-> _].
  unfold smoothKnobs.
  destruct (smoothKnobs_fold_frame v
              (keys (knobs (set_meters
                              (deadZone (decayPeaks (decayRate st)
                                           (silenceFloor (meters st)))) st)))
              (set_meters
                 (deadZone (decayPeaks (decayRate st) (silenceFloor (meters st))))
                 st, [])) as [-> _].
  reflexivity.
Qed.

Lemma max_jump (a b : Q) : b < a -> Math.max a b = a.
Proof.
  intro H. destruct (max_cases a b) as [[H1 ->] | [H1 ->]]; [lra | reflexivity].
Qed.

Lemma max_decay (a b : Q) : a <= b -> Math.max a b == b.
Proof.
  intro H. destruct (max_cases a b) as [[H1 ->] | [H1 ->]]; [reflexivity | lra].
Qed.

Lemma animate_inputLevel (v : Variant) (st : GUI) :
  inputLevel (meters (fst (animate v st))) =
    decayPeak (decayRate st) (inputLevel (meters st)).
Proof.
  rewrite animate_meters. unfold deadZone, silenceFloor.
  destruct (Meter.value (inputLevel (meters st)) <? -50);
    destruct (Math.abs _ <? 0.05); reflexivity.
Qed.

Lemma animate_outputLevel (v : Variant) (st : GUI) :
  outputLevel (meters (fst (animate v st))) =
    decayPeak (decayRate st) (outputLevel (meters st)).
Proof.
  rewrite animate_meters. unfold deadZone, silenceFloor.
  destruct (Meter.value (inputLevel (meters st)) <? -50);
    destruct (Math.abs _ <? 0.05); reflexivity.
Qed.

(** C7: on every frame the new peak of the input meter and of the output
    meter is [max(value, old peak - decayRate)] and their values are left
    alone; so the peak jumps to a sample that is louder than the decayed
    peak and falls by [decayRate] otherwise. *)
Theorem animate_level_peaks (v : Variant) (st : GUI) :
  let m := meters st in
  let m' := meters (fst (animate v st)) in
  Meter.peak (inputLevel m') =
    Math.max (Meter.value (inputLevel m)) (Meter.peak (inputLevel m) - decayRate st) /\
  Meter.peak (outputLevel m') =
    Math.max (Meter.value (outputLevel m)) (Meter.peak (outputLevel m) - decayRate st) /\
  Meter.value (inputLevel m') = Meter.value (inputLevel m) /\
  Meter.value (outputLevel m') = Meter.value (outputLevel m) /\
  (Meter.peak (inputLevel m) - decayRate st < Meter.value (inputLevel m) ->
   Meter.peak (inputLevel m') = Meter.value (inputLevel m)) /\
  (Meter.value (inputLevel m) <= Meter.peak (inputLevel m) - decayRate st ->
   Meter.peak (inputLevel m') == Meter.peak (inputLevel m) - decayRate st) /\
  (Meter.peak (outputLevel m) - decayRate st < Meter.value (outputLevel m) ->
   Meter.peak (outputLevel m') = Meter.value (outputLevel m)) /\
  (Meter.value (outputLevel m) <= Meter.peak (outputLevel m) - decayRate st ->
   Meter.peak (outputLevel m') == Meter.peak (outputLevel m) - decayRate st).
Proof.
  cbv zeta. rewrite animate_inputLevel, animate_outputLevel.
  cbn [decayPeak Meter.peak Meter.value].
  repeat split; try (intro H; apply max_jump; exact H);
    intro H; apply max_decay; exact H.
Qed.

Lemma animate_level_peaks_witness :
  let st := inputMeterListener (-6) (outputMeterListener (-40) constructor) in
  Meter.peak (inputLevel (meters (fst (animate compui st)))) = -6 /\
  Meter.peak (outputLevel (meters (fst (animate compui st)))) == -36.5.
Proof.
  cbv zeta.
  destruct (animate_level_peaks compui
              (inputMeterListener (-6) (outputMeterListener (-40) constructor)))
    as (_ & _ & _ & _ & Hjump & _ & _ & Hdecay).
  split.
  - apply Hjump. vm_compute. reflexivity.
  - rewrite Hdecay; [reflexivity | vm_compute; discriminate].
Defined.

(** C4: on every frame the gain-reduction meter ends with value and peak 0
    when the input meter's value is below -50; it also ends with value and
    peak 0 when the absolute value of its own value is below 0.05 (so a
    sample of 0.03 followed by a frame gives peak 0); in the remaining case
    its value is kept and its peak is set to that value, with no decay. *)
Theorem animate_gainReduction (v : Variant) (st : GUI) :
  let m := meters st in
  let gr' := gainReduction (meters (fst (animate v st))) in
  (Meter.value (inputLevel m) < -50 -> gr' = Meter.mk 0 0) /\
  (Math.abs (Meter.value (gainReduction m)) < 0.05 -> gr' = Meter.mk 0 0) /\
  (-50 <= Meter.value (inputLevel m) ->
   0.05 <= Math.abs (Meter.value (gainReduction m)) ->
   gr' = Meter.mk (Meter.value (gainReduction m)) (Meter.value (gainReduction m))) /\
  Meter.peak
    (gainReduction (meters (fst (animate v (gainReductionListener 0.03 st))))) = 0.
Proof.
  cbv zeta. rewrite !animate_meters.
  unfold deadZone, decayPeaks, silenceFloor.
  repeat split.
  - intro H. apply Qltb_true in H. rewrite H. reflexivity.
  - intro H. apply Qltb_true in H.
    destruct (Meter.value (inputLevel (meters st)) <? -50);
      cbn [gainReduction Meter.value]; [reflexivity |].
    rewrite H. reflexivity.
  - intros H1 H2. apply Qltb_false in H1, H2. rewrite H1.
    cbn [gainReduction]. rewrite H2. reflexivity.
  - cbn [gainReductionListener set_meters meters set_gainReduction_value
           inputLevel gainReduction Meter.value].
    destruct (Meter.value (inputLevel (meters st)) <? -50); reflexivity.
Qed.

Lemma animate_gainReduction_witness :
  gainReduction
    (meters (fst (animate compui
                    (inputMeterListener (-55) (gainReductionListener (-12) constructor)))))
    = Meter.mk 0 0 /\
  gainReduction (meters (fst (animate compui (gainReductionListener 0.03 constructor))))
    = Meter.mk 0 0 /\
  gainReduction (meters (fst (animate compui (gainReductionListener (-12) constructor))))
    = Meter.mk (-12) (-12).
Proof.
  split; [| split].
  - apply (proj1 (animate_gainReduction compui
                    (inputMeterListener (-55) (gainReductionListener (-12) constructor)))).
    vm_compute. reflexivity.
  - apply (proj1 (proj2 (animate_gainReduction compui
                           (gainReductionListener 0.03 constructor)))).
    vm_compute. reflexivity.
  - apply (proj1 (proj2 (proj2 (animate_gainReduction compui
                                  (gainReductionListener (-12) constructor))))).
    + vm_compute. discriminate.
    + vm_compute. discriminate.
Defined.

(** ** The animation loop: waveform history *)

Lemma pushSample_length (N : nat) (h : list Sample) (s : Sample) :
  (List.length h <= N)%nat -> (List.length (pushSample N h s) <= N)%nat.
Proof.
  intro H. unfold pushSample.
  destruct (N <? List.length (h ++ [s]))%nat eqn:E.
  - apply Nat.ltb_lt in E. rewrite length_app in E. simpl in E.
    destruct h as [| a t]; simpl in *; [lia |].
    rewrite length_app. simpl. lia.
  - apply Nat.ltb_ge in E. exact E.
Qed.

Lemma pushSample_skipn (N : nat) (h : list Sample) (s : Sample) :
  (List.length h <= N)%nat ->
  pushSample N h s = skipn (List.length (h ++ [s]) - N) (h ++ [s]).
Proof.
  intro H. unfold pushSample.
  destruct (N <? List.length (h ++ [s]))%nat eqn:E.
  - apply Nat.ltb_lt in E. rewrite length_app in *. simpl in *.
    replace (List.length h + 1 - N)%nat with 1%nat by lia.
    destruct (h ++ [s]); reflexivity.
  - apply Nat.ltb_ge in E.
    replace (List.length (h ++ [s]) - N)%nat with 0%nat by lia.
    reflexivity.
Qed.

Lemma skipn_app_within (A : Type) (d : nat) (l1 l2 : list A) :
  (d <= List.length l1)%nat -> skipn d l1 ++ l2 = skipn d (l1 ++ l2).
Proof.
  intro H. rewrite skipn_app.
  replace (d - List.length l1)%nat with 0%nat by lia. reflexivity.
Qed.

(** Pushing the samples [xs] one after the other into a buffer that holds
    at most [N] entries leaves the last [N] of everything seen. *)
Lemma pushSamples_skipn (N : nat) (xs : list Sample) :
  forall h : list Sample,
    (List.length h <= N)%nat ->
    fold_left (pushSample N) xs h = skipn (List.length (h ++ xs) - N) (h ++ xs).
Proof.
  induction xs as [| s xs IH]; intros h H; simpl.
  - rewrite app_nil_r. replace (List.length h - N)%nat with 0%nat by lia.
    reflexivity.
  - rewrite (IH _ (pushSample_length N h s H)).
    rewrite (pushSample_skipn N h s H).
    set (d := (List.length (h ++ [s]) - N)%nat).
    assert (Hd : (d <= List.length (h ++ [s]))%nat) by (unfold d; lia).
    rewrite (skipn_app_within _ d (h ++ [s]) xs Hd).
    rewrite <- app_assoc. simpl.
    rewrite skipn_skipn. f_equal.
    rewrite length_skipn. unfold d.
    rewrite !length_app. simpl. lia.
Qed.

Lemma animate_waveformHistory (v : Variant) (st : GUI) :
  (historyUpdateRate st <= frameCount st + 1)%Z ->
  waveformHistory (fst (animate v st)) =
    pushSample (historyLength st) (waveformHistory st)
      {| s_inputLevel := Meter.value (inputLevel (meters (fst (animate v st))));
         s_gainReduction := Meter.value (gainReduction (meters (fst (animate v st))));
         s_outputLevel := Meter.value (outputLevel (meters (fst (animate v st)))) |} /\
  frameCount (fst (animate v st)) = 0%Z.
Proof.
  intro H. rewrite animate_meters. rewrite animate_fst.
  set (m3 := deadZone (decayPeaks (decayRate st) (silenceFloor (meters st)))).
  unfold smoothKnobs.
  destruct (smoothKnobs_fold_frame v (keys (knobs (set_meters m3 st)))
              (set_meters m3 st, [])) as (H1 & _ & H3 & H4 & H5 & H6 & _).
  cbn [fst set_meters meters waveformHistory historyLength historyUpdateRate
       frameCount] in H1, H3, H4, H5, H6.
  unfold recordHistory. rewrite H1, H3, H4, H5, H6.
  apply Z.leb_le in H. rewrite H. cbn. split; reflexivity.
Qed.

(** C8: each push appends the sample at the end and, when the length then
    exceeds the capacity, drops the entry at index 0; the default capacity
    is 30 and, at the default update rate, every frame pushes one sample.
    Pushing [N + 5] samples into an empty buffer of capacity [N] leaves
    exactly the last [N] of them, oldest first. *)
Theorem pushSample_keeps_last (N : nat) (samples : list Sample) :
  (forall (h : list Sample) (s : Sample),
      pushSample N h s =
        if (N <? List.length (h ++ [s]))%nat then tl (h ++ [s]) else h ++ [s]) /\
  historyLength constructor = 30%nat /\
  (forall (v : Variant) (st : GUI),
      historyUpdateRate st = 1%Z -> frameCount st = 0%Z ->
      exists s, waveformHistory (fst (animate v st)) =
                  pushSample (historyLength st) (waveformHistory st) s /\
                frameCount (fst (animate v st)) = 0%Z /\
                historyUpdateRate (fst (animate v st)) = 1%Z) /\
  (List.length samples = (N + 5)%nat ->
   fold_left (pushSample N) samples [] = skipn 5 samples /\
   List.length (fold_left (pushSample N) samples []) = N /\
   samples = firstn 5 samples ++ fold_left (pushSample N) samples []).
Proof.
  split; [reflexivity |]. split; [reflexivity |]. split.
  - intros v st Hr Hf.
    assert (H : (historyUpdateRate st <= frameCount st + 1)%Z) by lia.
    destruct (animate_waveformHistory v st H) as [H1 H2].
    eexists. split; [exact H1 |]. split; [exact H2 |].
    rewrite animate_fst.
    destruct (recordHistory_frame
                (fst (smoothKnobs v
                        (set_meters
                           (deadZone (decayPeaks (decayRate st)
                                        (silenceFloor (meters st)))) st))))
      as (_ & _ & _ & _ & ->).
    unfold smoothKnobs.
    destruct (smoothKnobs_fold_frame v
                (keys (knobs (set_meters
                                (deadZone (decayPeaks (decayRate st)
                                             (silenceFloor (meters st)))) st)))
                (set_meters
                   (deadZone (decayPeaks (decayRate st) (silenceFloor (meters st))))
                   st, [])) as (_ & _ & _ & _ & -> & _).
    exact Hr.
  - intro H.
    assert (E : fold_left (pushSample N) samples [] = skipn 5 samples).
    { rewrite (pushSamples_skipn N samples []); [| simpl; lia].
      simpl. rewrite H. replace (N + 5 - N)%nat with 5%nat by lia. reflexivity. }
    rewrite E. split; [reflexivity |]. split.
    + rewrite length_skipn. lia.
    + symmetry. apply firstn_skipn.
Qed.

Lemma pushSample_keeps_last_witness :
  let s (n : Z) := mkSample (inject_Z n) 0 0 in
  fold_left (pushSample 2) [s 1%Z; s 2%Z; s 3%Z; s 4%Z; s 5%Z; s 6%Z; s 7%Z] []
    = [s 6%Z; s 7%Z] /\
  exists s0,
    waveformHistory (fst (animate compui constructor)) = pushSample 30 [] s0.
Proof.
  cbv zeta. split.
  - destruct (proj2 (proj2 (proj2
                (pushSample_keeps_last 2
                   (map (fun n => mkSample (inject_Z n) 0 0)
                        [1%Z; 2%Z; 3%Z; 4%Z; 5%Z; 6%Z; 7%Z])))))
      as [H _]; [reflexivity | exact H].
  - destruct (proj1 (proj2 (proj2 (pushSample_keeps_last 30 [])))
                compui constructor) as (s0 & H & _);
      [reflexivity | reflexivity |].
    exists s0. exact H.
Defined.

(** ** The animation loop: knob smoothing *)

Lemma sentFor_app (q : string) (out1 out2 : list Effect) :
  sentFor q (out1 ++ out2) = sentFor q out1 ++ sentFor q out2.
Proof. unfold sentFor. apply flat_map_app. Qed.

Lemma smoothKnob_lookup (v : Variant) (st : GUI) (out : list Effect) (p q : string) :
  lookup q (knobs (fst (smoothKnob v (st, out) p))) =
    if String.eqb p q
    then option_map (stepKnob v) (lookup q (knobs st))
    else lookup q (knobs st).
Proof.
  unfold smoothKnob.
  destruct (String.eqb p q) eqn:Epq.
  - apply String.eqb_eq in Epq. subst q.
    destruct (lookup p (knobs st)) as [knob |] eqn:E; [| cbn; rewrite E; reflexivity].
    cbn [option_map]. unfold stepKnob.
    destruct (Math.abs (Knob.targetValue knob - Knob.currentValue knob) >? 0.0001).
    + destruct (String.eqb p "thresholdDbIn"); cbn; apply lookup_assign_same.
    + cbn. exact E.
  - apply String.eqb_neq in Epq.
    destruct (lookup p (knobs st)) as [knob |] eqn:E; [| reflexivity].
    destruct (Math.abs (Knob.targetValue knob - Knob.currentValue knob) >? 0.0001);
      [| reflexivity].
    destruct (String.eqb p "thresholdDbIn"); cbn;
      apply lookup_assign_other; exact Epq.
Qed.

Lemma smoothKnob_sent (v : Variant) (st : GUI) (out : list Effect) (p q : string) :
  sentFor q (snd (smoothKnob v (st, out) p)) =
    sentFor q out ++
    (if String.eqb p q
     then match lookup q (knobs st) with
          | Some knob => sentOf v knob
          | None => []
          end
     else []).
Proof.
  unfold smoothKnob.
  destruct (String.eqb p q) eqn:Epq.
  - pose proof Epq as Epq'. apply String.eqb_eq in Epq'. subst q.
    destruct (lookup p (knobs st)) as [knob |] eqn:E;
      [| cbn; rewrite app_nil_r; reflexivity].
    unfold sentOf.
    destruct (Math.abs (Knob.targetValue knob - Knob.currentValue knob) >? 0.0001).
    + destruct (String.eqb p "thresholdDbIn"); cbn [snd];
        rewrite sentFor_app; cbn; rewrite Epq; reflexivity.
    + cbn. rewrite app_nil_r. reflexivity.
  - rewrite app_nil_r.
    destruct (lookup p (knobs st)) as [knob |] eqn:E; [| reflexivity].
    destruct (Math.abs (Knob.targetValue knob - Knob.currentValue knob) >? 0.0001);
      [| reflexivity].
    destruct (String.eqb p "thresholdDbIn"); cbn [snd];
      rewrite sentFor_app; cbn; rewrite Epq; rewrite app_nil_r; reflexivity.
Qed.

Lemma smoothKnobs_fold_other (v : Variant) (q : string) (ps : list string) :
  forall acc : GUI * list Effect,
    ~ In q ps ->
    lookup q (knobs (fst (fold_left (smoothKnob v) ps acc))) = lookup q (knobs (fst acc)) /\
    sentFor q (snd (fold_left (smoothKnob v) ps acc)) = sentFor q (snd acc).
Proof.
  induction ps as [| p ps IH]; intros acc Hq; simpl; [split; reflexivity |].
  assert (Hpq : p <> q) by (intro; apply Hq; left; assumption).
  assert (Hq' : ~ In q ps) by (intro; apply Hq; right; assumption).
  destruct (IH (smoothKnob v acc p) Hq') as [-> ->].
  destruct acc as [st out].
  rewrite smoothKnob_lookup, smoothKnob_sent.
  apply String.eqb_neq in Hpq. rewrite Hpq. rewrite app_nil_r.
  split; reflexivity.
Qed.

Lemma smoothKnobs_fold_member (v : Variant) (q : string) (ps : list string) :
  forall acc : GUI * list Effect,
    NoDup ps -> In q ps ->
    lookup q (knobs (fst (fold_left (smoothKnob v) ps acc))) =
      option_map (stepKnob v) (lookup q (knobs (fst acc))) /\
    sentFor q (snd (fold_left (smoothKnob v) ps acc)) =
      sentFor q (snd acc) ++
      match lookup q (knobs (fst acc)) with
      | Some knob => sentOf v knob
      | None => []
      end.
Proof.
  induction ps as [| p ps IH]; intros acc Hnd Hin; [destruct Hin |].
  inversion Hnd as [| p' ps' Hnotin Hnd']; subst.
  simpl. destruct acc as [st out].
  destruct (string_dec p q) as [Heq | Hneq].
  - subst q.
    destruct (smoothKnobs_fold_other v p ps (smoothKnob v (st, out) p) Hnotin)
      as [-> ->].
    rewrite smoothKnob_lookup, smoothKnob_sent.
    rewrite String.eqb_refl. split; reflexivity.
  - destruct Hin as [Heq | Hin]; [contradiction |].
    destruct (IH (smoothKnob v (st, out) p) Hnd' Hin) as [-> ->].
    rewrite smoothKnob_lookup, smoothKnob_sent.
    apply String.eqb_neq in Hneq. rewrite Hneq. rewrite app_nil_r.
    split; reflexivity.
Qed.

Lemma animate_keys (v : Variant) (st : GUI) :
  keys (knobs (fst (animate v st))) = keys (knobs st).
Proof.
  rewrite animate_fst.
  destruct (recordHistory_frame
              (fst (smoothKnobs v
                      (set_meters
                         (deadZone (decayPeaks (decayRate st)
                                      (silenceFloor (meters st)))) st))))
    as (_ & -> & _).
  unfold smoothKnobs.
  destruct (smoothKnobs_fold_frame v
              (keys (knobs (set_meters
                              (deadZone (decayPeaks (decayRate st)
                                           (silenceFloor (meters st)))) st)))
              (set_meters
                 (deadZone (decayPeaks (decayRate st) (silenceFloor (meters st))))
                 st, [])) as (_ & _ & _ & _ & _ & _ & ->).
  reflexivity.
Qed.

(** One frame applies [stepKnob] to every knob, once, and sends to the host
    exactly what [sentOf] lists for it. *)
Lemma animate_knob (v : Variant) (st : GUI) (param : string) (knob : Knob.t) :
  NoDup (keys (knobs st)) ->
  lookup param (knobs st) = Some knob ->
  lookup param (knobs (fst (animate v st))) = Some (stepKnob v knob) /\
  sentFor param (snd (animate v st)) = sentOf v knob.
Proof.
  intros Hnd H.
  rewrite animate_fst, animate_snd.
  destruct (recordHistory_frame
              (fst (smoothKnobs v
                      (set_meters
                         (deadZone (decayPeaks (decayRate st)
                                      (silenceFloor (meters st)))) st))))
    as (_ & -> & _).
  unfold smoothKnobs.
  set (st3 := set_meters
                (deadZone (decayPeaks (decayRate st) (silenceFloor (meters st)))) st).
  assert (Hk : knobs st3 = knobs st) by reflexivity.
  destruct (smoothKnobs_fold_member v param (keys (knobs st3)) (st3, []))
    as [H1 H2].
  - rewrite Hk. exact Hnd.
  - rewrite Hk. apply (lookup_in_keys param knob). exact H.
  - rewrite H1, H2. cbn [fst snd]. rewrite Hk, H. split; reflexivity.
Qed.

Lemma frames_knob (v : Variant) (param : string) (n : nat) :
  forall (st : GUI) (knob : Knob.t),
    NoDup (keys (knobs st)) ->
    lookup param (knobs st) = Some knob ->
    lookup param (knobs (frames v n st)) = Some (stepsKnob v n knob) /\
    NoDup (keys (knobs (frames v n st))).
Proof.
  induction n as [| n IH]; intros st knob Hnd H; simpl.
  - split; assumption.
  - apply IH.
    + rewrite animate_keys. exact Hnd.
    + apply (animate_knob v st param knob Hnd H).
Qed.

Lemma stepKnob_moves (v : Variant) (knob : Knob.t) :
  0.0001 < Math.abs (Knob.targetValue knob - Knob.currentValue knob) ->
  stepKnob v knob =
    Knob.set_currentValue
      (Knob.currentValue knob
       + (Knob.targetValue knob - Knob.currentValue knob) * smoothing v) knob /\
  sentOf v knob =
    [Knob.currentValue knob
     + (Knob.targetValue knob - Knob.currentValue knob) * smoothing v].
Proof.
  intro H. apply Qltb_true in H. unfold stepKnob, sentOf. rewrite H.
  split; reflexivity.
Qed.

Lemma stepKnob_rests (v : Variant) (knob : Knob.t) :
  Math.abs (Knob.targetValue knob - Knob.currentValue knob) <= 0.0001 ->
  stepKnob v knob = knob /\ sentOf v knob = [].
Proof.
  intro H. apply Qltb_false in H. unfold stepKnob, sentOf. rewrite H.
  split; reflexivity.
Qed.

Lemma stepsKnob_rests (v : Variant) (knob : Knob.t) (n : nat) :
  Math.abs (Knob.targetValue knob - Knob.currentValue knob) <= 0.0001 ->
  stepsKnob v n knob = knob.
Proof.
  intro H. induction n as [| n IH]; simpl; [reflexivity |].
  rewrite (proj1 (stepKnob_rests v knob H)). exact IH.
Qed.

Lemma stepsKnob_add (v : Variant) (n m : nat) (knob : Knob.t) :
  stepsKnob v (n + m) knob = stepsKnob v m (stepsKnob v n knob).
Proof.
  revert knob. induction n as [| n IH]; intro knob; simpl; [reflexivity |].
  apply IH.
Qed.

(** With the factor 0.5, a knob that is [g] below its target of 10 is [g / 2]
    below it after one frame, as long as [g] exceeds the threshold. *)
Lemma stepKnob_halves (knob : Knob.t) (g : Q) :
  Knob.targetValue knob == 10 ->
  Knob.currentValue knob == 10 - g ->
  0.0001 < g ->
  Knob.targetValue (stepKnob part_000 knob) == 10 /\
  Knob.currentValue (stepKnob part_000 knob) == 10 - g * (1 # 2).
Proof.
  intros Ht Hc Hg.
  assert (H : 0.0001 < Math.abs (Knob.targetValue knob - Knob.currentValue knob)).
  { destruct (abs_cases (Knob.targetValue knob - Knob.currentValue knob))
      as [[H1 H2] | [H1 H2]]; rewrite H2; lra. }
  rewrite (proj1 (stepKnob_moves part_000 knob H)).
  cbn [Knob.set_currentValue Knob.targetValue Knob.currentValue smoothing part_000].
  split; [exact Ht |].
  rewrite Ht, Hc.
  assert (E5 : 0.5 == 1 # 2) by reflexivity.
  rewrite E5. ring.
Qed.

Ltac halve Ht Hc :=
  lazymatch type of Hc with
  | Knob.currentValue ?k == 10 - ?g =>
      let Ht' := fresh "Ht" in
      let Hc' := fresh "Hc" in
      destruct (stepKnob_halves k g Ht Hc) as [Ht' Hc'];
      [ vm_compute; reflexivity | clear Ht Hc; rename Ht' into Ht; rename Hc' into Hc ]
  end.

(** Seventeen frames bring the knob from 0 to within the threshold of 10. *)
Lemma stepsKnob_17 (knob : Knob.t) :
  Knob.targetValue knob == 10 ->
  Knob.currentValue knob == 0 ->
  Math.abs (Knob.targetValue (stepsKnob part_000 17 knob)
            - Knob.currentValue (stepsKnob part_000 17 knob)) < 0.0001.
Proof.
  intros Ht Hc0.
  assert (Hc : Knob.currentValue knob == 10 - 10) by (rewrite Hc0; reflexivity).
  clear Hc0. cbn [stepsKnob].
  do 17 (halve Ht Hc).
  rewrite Ht, Hc. vm_compute. reflexivity.
Qed.

(** C3: with the smoothing factor 0.5, a knob with target 10 and current
    value 0 has current value 5 after one frame; after enough frames the
    gap between target and current value is below 0.0001, and from then on
    a frame leaves the knob as it is and sends nothing to the host for it.
    Whenever the gap exceeds 0.0001, a frame adds the gap times the
    smoothing factor to the current value and sends the new current value
    to the host. *)
Theorem animate_smoothing (param : string) (st : GUI) (knob : Knob.t) :
  NoDup (keys (knobs st)) ->
  lookup param (knobs st) = Some knob ->
  (Knob.targetValue knob == 10 -> Knob.currentValue knob == 0 ->
   (exists knob1,
       lookup param (knobs (fst (animate part_000 st))) = Some knob1 /\
       Knob.currentValue knob1 == 5) /\
   (exists n knobn,
       lookup param (knobs (frames part_000 n st)) = Some knobn /\
       Math.abs (Knob.targetValue knobn - Knob.currentValue knobn) < 0.0001 /\
       forall m, (n <= m)%nat ->
         lookup param (knobs (frames part_000 m st)) = Some knobn /\
         lookup param (knobs (fst (animate part_000 (frames part_000 m st))))
           = Some knobn /\
         sentFor param (snd (animate part_000 (frames part_000 m st))) = [])) /\
  (forall v : Variant,
      0.0001 < Math.abs (Knob.targetValue knob - Knob.currentValue knob) ->
      exists knob',
        lookup param (knobs (fst (animate v st))) = Some knob' /\
        Knob.currentValue knob' =
          Knob.currentValue knob
          + (Knob.targetValue knob - Knob.currentValue knob) * smoothing v /\
        Knob.targetValue knob' = Knob.targetValue knob /\
        sentFor param (snd (animate v st)) = [Knob.currentValue knob']).
Proof.
  intros Hnd H. split.
  - intros Ht Hc. split.
    + exists (stepKnob part_000 knob).
      split; [apply (animate_knob part_000 st param knob Hnd H) |].
      assert (Hc' : Knob.currentValue knob == 10 - 10) by (rewrite Hc; reflexivity).
      destruct (stepKnob_halves knob 10 Ht Hc') as [_ H5];
        [vm_compute; reflexivity |].
      rewrite H5. reflexivity.
    + exists 17%nat, (stepsKnob part_000 17 knob).
      pose proof (stepsKnob_17 knob Ht Hc) as Hgap.
      split; [apply (frames_knob part_000 param 17 st knob Hnd H) |].
      split; [exact Hgap |].
      intros m Hm.
      assert (Hle : Math.abs (Knob.targetValue (stepsKnob part_000 17 knob)
                              - Knob.currentValue (stepsKnob part_000 17 knob))
                    <= 0.0001) by (apply Qlt_le_weak; exact Hgap).
      destruct (frames_knob part_000 param m st knob Hnd H) as [Hm1 Hm2].
      assert (Hk : stepsKnob part_000 m knob = stepsKnob part_000 17 knob).
      { replace m with (17 + (m - 17))%nat by lia.
        rewrite stepsKnob_add. apply stepsKnob_rests. exact Hle. }
      rewrite Hk in Hm1.
      destruct (animate_knob part_000 (frames part_000 m st) param _ Hm2 Hm1)
        as [Ha Hs].
      destruct (stepKnob_rests part_000 _ Hle) as [Hr1 Hr2].
      rewrite Hr1 in Ha. rewrite Hr2 in Hs.
      split; [exact Hm1 |]. split; [exact Ha | exact Hs].
  - intros v Hgap.
    destruct (animate_knob v st param knob Hnd H) as [Ha Hs].
    destruct (stepKnob_moves v knob Hgap) as [Hm1 Hm2].
    rewrite Hm1 in Ha. rewrite Hm2 in Hs.
    eexists. split; [exact Ha |].
    cbn [Knob.set_currentValue Knob.currentValue Knob.targetValue].
    split; [reflexivity |]. split; [reflexivity | exact Hs].
Qed.

Lemma animate_smoothing_witness :
  let st := set_knobs [("ratioIn"%string, Knob.mk 0 10 0 10 false 0)] constructor in
  (exists knob1,
      lookup "ratioIn" (knobs (fst (animate part_000 st))) = Some knob1 /\
      Knob.currentValue knob1 == 5) /\
  (exists knob',
      lookup "ratioIn" (knobs (fst (animate compui st))) = Some knob' /\
      Knob.currentValue knob' = 0 + (10 - 0) * 0.2 /\
      sentFor "ratioIn" (snd (animate compui st)) = [Knob.currentValue knob']).
Proof.
  cbv zeta.
  destruct (animate_smoothing "ratioIn"
              (set_knobs [("ratioIn"%string, Knob.mk 0 10 0 10 false 0)] constructor)
              (Knob.mk 0 10 0 10 false 0)) as [H1 H2].
  - cbn. constructor; [intros [] | constructor].
  - reflexivity.
  - split.
    + destruct H1 as [H1 _]; [reflexivity | reflexivity | exact H1].
    + destruct (H2 compui) as (knob' & Ha & Hb & _ & Hd);
        [vm_compute; reflexivity |].
      exists knob'. split; [exact Ha |]. split; [exact Hb | exact Hd].
Defined.

(** ** The range invariant *)

Lemma lookup_assign (p q : string) (k : Knob.t) (ks : Knobs) :
  lookup q (assign p k ks) = if String.eqb p q then Some k else lookup q ks.
Proof.
  destruct (String.eqb p q) eqn:E.
  - apply String.eqb_eq in E. subst q. apply lookup_assign_same.
  - apply String.eqb_neq in E. apply lookup_assign_other. exact E.
Qed.

Lemma initKnob_inRange (el : KnobEl) : knobElInRange el -> inRange (initKnob el).
Proof. intros [H1 H2]. unfold inRange. cbn. repeat split; assumption. Qed.

Lemma initializeKnobs_inRange (els : list KnobEl) (st0 : GUI) :
  Forall knobElInRange els -> knobsInRange (fst (initializeKnobs els st0)).
Proof.
  intro Hels. unfold initializeKnobs.
  assert (Hgen : forall acc : GUI * list Effect,
             knobsInRange (fst acc) ->
             knobsInRange
               (fst (fold_left
                       (fun (acc : GUI * list Effect) el =>
                          let (st, out) := acc in
                          let knob := initKnob el in
                          (set_knobs (assign (d_param el) knob (knobs st)) st,
                           out ++ [KnobRotation (d_param el)
                                     (updateKnobRotation knob (d_value el));
                                   KnobDisplayValue (d_param el) (d_value el)]))
                       els acc))).
  { induction Hels as [| el els Hel Hels IH]; intros acc Hacc; simpl; [exact Hacc |].
    apply IH. destruct acc as [st out]. cbn [fst].
    intros p k. cbn [set_knobs knobs]. rewrite lookup_assign.
    destruct (String.eqb (d_param el) p).
    - intro E. injection E as <-. apply initKnob_inRange. exact Hel.
    - apply Hacc. }
  apply Hgen. intros p k. cbn. discriminate.
Qed.

Lemma paramListener_inRange (endpointID : string) (value : Q) (st : GUI) :
  hostValueInRange endpointID value st ->
  knobsInRange st ->
  knobsInRange (fst (paramListener endpointID value st)).
Proof.
  intros Hv Hst. unfold paramListener.
  destruct (lookup endpointID (knobs st)) as [knobObj |] eqn:E; [| exact Hst].
  assert (Hk : knobsInRange
                 (set_knobs
                    (assign endpointID
                       (Knob.set_currentValue value
                          (Knob.set_targetValue value knobObj)) (knobs st)) st)).
  { intros p k. cbn [set_knobs knobs]. rewrite lookup_assign.
    destruct (String.eqb endpointID p); [| apply Hst].
    intro E'. injection E' as <-.
    destruct (Hv knobObj E) as [H1 H2].
    unfold inRange. cbn. repeat split; assumption. }
  destruct (String.eqb endpointID "thresholdDbIn"); exact Hk.
Qed.

Lemma adjustKnob_inRange (v : Variant) (knob : Knob.t) (deltaY : Q) :
  inRange knob -> inRange (adjustKnob v knob deltaY).
Proof.
  intros [[H1 H2] [H3 H4]]. unfold inRange, adjustKnob.
  cbn [Knob.set_targetValue Knob.currentValue Knob.targetValue Knob.min Knob.max].
  split; [split; assumption |].
  apply (clamp_in_range (Knob.min knob) (Knob.max knob)). lra.
Qed.

Lemma adjustKnobValue_inRange
  (v : Variant) (param : string) (deltaY : Q) (st st' : GUI) :
  adjustKnobValue v param deltaY st = Some st' ->
  knobsInRange st -> knobsInRange st'.
Proof.
  unfold adjustKnobValue.
  destruct (lookup param (knobs st)) as [knob |] eqn:E; [| discriminate].
  intros H Hst. injection H as <-.
  intros p k. cbn [set_knobs knobs]. rewrite lookup_assign.
  destruct (String.eqb param p); [| apply Hst].
  intro E'. injection E' as <-.
  apply adjustKnob_inRange. apply (Hst param). exact E.
Qed.

Lemma stepKnob_inRange (v : Variant) (knob : Knob.t) :
  0 <= smoothing v <= 1 -> inRange knob -> inRange (stepKnob v knob).
Proof.
  intros [Hf0 Hf1] [[H1 H2] [H3 H4]]. unfold stepKnob.
  destruct (Math.abs (Knob.targetValue knob - Knob.currentValue knob) >? 0.0001);
    [| repeat split; assumption].
  unfold inRange.
  cbn [Knob.set_currentValue Knob.currentValue Knob.targetValue Knob.min Knob.max].
  set (f := smoothing v) in *.
  set (c := Knob.currentValue knob) in *.
  set (t := Knob.targetValue knob) in *.
  set (lo := Knob.min knob) in *.
  set (hi := Knob.max knob) in *.
  assert (Ha : 0 <= (1 - f) * (c - lo)) by nra.
  assert (Hb : 0 <= f * (t - lo)) by nra.
  assert (Hc : 0 <= (1 - f) * (hi - c)) by nra.
  assert (Hd : 0 <= f * (hi - t)) by nra.
  repeat split; try assumption; nra.
Qed.

Lemma smoothKnobs_fold_inRange (v : Variant) (ps : list string) :
  0 <= smoothing v <= 1 ->
  forall acc : GUI * list Effect,
    knobsInRange (fst acc) ->
    knobsInRange (fst (fold_left (smoothKnob v) ps acc)).
Proof.
  intro Hf. induction ps as [| p ps IH]; intros acc Hacc; simpl; [exact Hacc |].
  apply IH. destruct acc as [st out]. intros q k.
  rewrite smoothKnob_lookup. cbn [fst] in Hacc.
  destruct (String.eqb p q); [| apply Hacc].
  destruct (lookup q (knobs st)) as [k0 |] eqn:E; cbn [option_map]; [| discriminate].
  intro E'. injection E' as <-.
  apply stepKnob_inRange; [exact Hf |]. apply (Hacc q). exact E.
Qed.

Lemma animate_inRange (v : Variant) (st : GUI) :
  0 <= smoothing v <= 1 ->
  knobsInRange st -> knobsInRange (fst (animate v st)).
Proof.
  intros Hf Hst. rewrite animate_fst.
  set (st3 := set_meters
                (deadZone (decayPeaks (decayRate st) (silenceFloor (meters st)))) st).
  unfold knobsInRange.
  destruct (recordHistory_frame (fst (smoothKnobs v st3))) as (_ & -> & _).
  apply (smoothKnobs_fold_inRange v (keys (knobs st3)) Hf (st3, [])).
  exact Hst.
Qed.

(** C2 (counterexample): a host echo of 2 for the [satMixIn] knob, whose
    range is from 0 to 1, leaves its current value above its maximum; and an
    element whose initial value 5 lies outside its range from 0 to 1 is
    initialized with the current value 5. *)
Lemma range_invariant_broken :
  (exists knob',
      lookup "satMixIn"
        (knobs (fst (paramListener "satMixIn" 2
                       (fst (initializeKnobs knobEls constructor))))) = Some knob' /\
      Knob.max knob' < Knob.currentValue knob' /\
      Knob.max knob' < Knob.targetValue knob') /\
  ~ knobsInRange (fst (paramListener "satMixIn" 2
                         (fst (initializeKnobs knobEls constructor)))) /\
  ~ knobsInRange (fst (initializeKnobs [mkKnobEl "satMixIn" 0 1 5] constructor)).
Proof.
  split; [| split].
  - eexists. split; [vm_compute; reflexivity |].
    split; vm_compute; reflexivity.
  - intro H.
    destruct (H "satMixIn"%string (Knob.mk 2 2 0 1 false 0)) as [[_ H1] _];
      [vm_compute; reflexivity |].
    vm_compute in H1. apply H1. reflexivity.
  - intro H.
    destruct (H "satMixIn"%string (Knob.mk 5 5 0 1 false 0)) as [[_ H1] _];
      [vm_compute; reflexivity |].
    vm_compute in H1. apply H1. reflexivity.
Qed.

(** C2 (amended): when every knob element has its initial value within its
    bounds and every host echo carries a value within the bounds of the knob
    it names, then after every operation (initialization, host echo, gesture
    delta, animation frame) every knob has its current and its target value
    between its minimum and its maximum.  Gesture deltas are clamped into
    the range; initial values and host values are stored as received. *)
Theorem reachable_knobsInRange (v : Variant) (st : GUI) :
  0 <= smoothing v <= 1 ->
  reachable v st ->
  knobsInRange st.
Proof.
  intros Hf Hreach. induction Hreach as [els st0 Hels | st st' Hreach IH Hstep].
  - apply initializeKnobs_inRange. exact Hels.
  - destruct Hstep
      as [endpointID value st Hv | param deltaY st st' Hadj
          | value st | value st | value st | st].
    + apply paramListener_inRange; assumption.
    + apply (adjustKnobValue_inRange v param deltaY st st' Hadj IH).
    + exact IH.
    + exact IH.
    + exact IH.
    + apply animate_inRange; assumption.
Qed.

Lemma knobEls_inRange : Forall knobElInRange knobEls.
Proof.
  unfold knobEls.
  repeat (constructor; [split; vm_compute; discriminate |]).
  constructor.
Qed.

Lemma reachable_knobsInRange_witness :
  match adjustKnobValue compui "satMixIn" (-400)
          (fst (paramListener "satMixIn" 0.5
                  (fst (initializeKnobs knobEls constructor)))) with
  | Some st2 => knobsInRange (fst (animate compui st2))
  | None => False
  end.
Proof.
  destruct (adjustKnobValue compui "satMixIn" (-400)
              (fst (paramListener "satMixIn" 0.5
                      (fst (initializeKnobs knobEls constructor)))))
    as [st2 |] eqn:E; [| vm_compute in E; discriminate].
  apply (reachable_knobsInRange compui).
  - split; vm_compute; discriminate.
  - apply (reachable_step compui st2); [| apply step_frame].
    apply (reachable_step compui
             (fst (paramListener "satMixIn" 0.5
                     (fst (initializeKnobs knobEls constructor)))));
      [| apply (step_gestureDelta compui "satMixIn" (-400)); exact E].
    apply (reachable_step compui (fst (initializeKnobs knobEls constructor))).
    + apply reachable_init. exact knobEls_inRange.
    + apply step_hostValue. intros knob Hk.
      vm_compute in Hk. injection Hk as <-.
      split; vm_compute; discriminate.
Defined.

(** ** Distinct keys *)

(** The knob store of every reachable state lists each parameter once, which
    is what the per-frame statements above ask of the state. *)
Lemma initializeKnobs_NoDup (els : list KnobEl) (st0 : GUI) :
  NoDup (keys (knobs (fst (initializeKnobs els st0)))).
Proof.
  unfold initializeKnobs.
  assert (Hgen : forall acc : GUI * list Effect,
             NoDup (keys (knobs (fst acc))) ->
             NoDup
               (keys (knobs
                  (fst (fold_left
                          (fun (acc : GUI * list Effect) el =>
                             let (st, out) := acc in
                             let knob := initKnob el in
                             (set_knobs (assign (d_param el) knob (knobs st)) st,
                              out ++ [KnobRotation (d_param el)
                                        (updateKnobRotation knob (d_value el));
                                      KnobDisplayValue (d_param el) (d_value el)]))
                          els acc))))).
  { induction els as [| el els IH]; intros acc Hacc; simpl; [exact Hacc |].
    apply IH. destruct acc as [st out]. cbn [fst set_knobs knobs].
    apply NoDup_keys_assign. exact Hacc. }
  apply Hgen. cbn. constructor.
Qed.

Lemma paramListener_keys (endpointID : string) (value : Q) (st : GUI) :
  keys (knobs (fst (paramListener endpointID value st))) = keys (knobs st).
Proof.
  unfold paramListener.
  destruct (lookup endpointID (knobs st)) as [knobObj |] eqn:E; [| reflexivity].
  destruct (String.eqb endpointID "thresholdDbIn"); cbn;
    apply (keys_assign_known _ _ knobObj); exact E.
Qed.

Lemma adjustKnobValue_keys
  (v : Variant) (param : string) (deltaY : Q) (st st' : GUI) :
  adjustKnobValue v param deltaY st = Some st' ->
  keys (knobs st') = keys (knobs st).
Proof.
  unfold adjustKnobValue.
  destruct (lookup param (knobs st)) as [knob |] eqn:E; [| discriminate].
  intro H. injection H as <-. cbn.
  apply (keys_assign_known _ _ knob). exact E.
Qed.

Lemma reachable_NoDup (v : Variant) (st : GUI) :
  reachable v st -> NoDup (keys (knobs st)).
Proof.
  intro Hreach. induction Hreach as [els st0 Hels | st st' Hreach IH Hstep].
  - apply initializeKnobs_NoDup.
  - destruct Hstep
      as [endpointID value st Hv | param deltaY st st' Hadj
          | value st | value st | value st | st].
    + rewrite paramListener_keys. exact IH.
    + rewrite (adjustKnobValue_keys v param deltaY st st' Hadj). exact IH.
    + exact IH.
    + exact IH.
    + exact IH.
    + rewrite animate_keys. exact IH.
Qed.

(* ------------------------------------------------------------------ *)
(** * Further properties of the code *)

(** ** Easing and colours *)

Lemma cubicEase_range (t : Q) : 0 <= t <= 1 -> 0 <= cubicEase t <= 1.
Proof.
  intros [H0 H1].
  destruct (Qlt_le_dec t 0.5) as [Ht | Ht].
  - rewrite (cubicEase_lo t Ht).
    assert (Hh : t <= 1 # 2) by lra.
    pose proof (cube_le t (1 # 2) H0 Hh) as Hc.
    pose proof (cube_le 0 t (Qle_refl 0) H0) as Hz.
    lra.
  - rewrite (cubicEase_hi t Ht).
    assert (Ha : 0 <= -2 * t + 2) by lra.
    assert (Hb : -2 * t + 2 <= 1) by lra.
    pose proof (cube_le (-2 * t + 2) 1 Ha Hb) as Hc.
    pose proof (cube_le 0 (-2 * t + 2) (Qle_refl 0) Ha) as Hz.
    lra.
Qed.

(** X1: the easing curve is point-symmetric about (0.5, 0.5): easing the
    mirrored argument [1 - t] gives the mirrored value, for every [t]. *)
Theorem cubicEase_symmetric (t : Q) : cubicEase (1 - t) == 1 - cubicEase t.
Proof.
  destruct (Qlt_le_dec t 0.5) as [Ht | Ht].
  - assert (Hm : 0.5 <= 1 - t) by lra.
    rewrite (cubicEase_lo t Ht), (cubicEase_hi (1 - t) Hm). ring.
  - destruct (Qlt_le_dec (1 - t) 0.5) as [Hm | Hm].
    + rewrite (cubicEase_hi t Ht), (cubicEase_lo (1 - t) Hm). ring.
    + assert (E : t == 1 # 2) by lra.
      rewrite (cubicEase_hi t Ht), (cubicEase_hi (1 - t) Hm).
      rewrite E. reflexivity.
Qed.

Lemma round_between (a b : Z) (x : Q) :
  inject_Z a <= x -> x <= inject_Z b -> (a <= Math.round x <= b)%Z.
Proof.
  intros Ha Hb. unfold Math.round. split.
  - rewrite <- (Qfloor_Z a). apply Qfloor_resp_le. lra.
  - assert (H : (Qfloor (x + (1 # 2)) < b + 1)%Z).
    { rewrite Zlt_Qlt. rewrite inject_Z_plus.
      pose proof (Qfloor_le (x + (1 # 2))) as Hf.
      assert (E : inject_Z 1 == 1) by reflexivity. lra. }
    lia.
Qed.

Lemma lerpChannel_between (a b : Z) (t : Q) :
  0 <= t <= 1 ->
  (Z.min a b <= lerpChannel (inject_Z a) (inject_Z b) t <= Z.max a b)%Z.
Proof.
  intro Ht. pose proof (cubicEase_range t Ht) as [He0 He1].
  unfold lerpChannel. set (e := cubicEase t) in *.
  destruct (Z.le_ge_cases a b) as [Hab | Hab].
  - rewrite Z.min_l, Z.max_r by assumption.
    assert (Hq : inject_Z a <= inject_Z b) by (rewrite <- Zle_Qle; exact Hab).
    apply round_between; nra.
  - rewrite Z.min_r, Z.max_l by assumption.
    assert (Hq : inject_Z b <= inject_Z a) by (rewrite <- Zle_Qle; exact Hab).
    apply round_between; nra.
Qed.

Lemma lerpColor_rgbText (off on : Color) (t : Q) :
  lerpColor off on t =
    rgbText (lerpChannel (ch0 off) (ch0 on) t)
            (lerpChannel (ch1 off) (ch1 on) t)
            (lerpChannel (ch2 off) (ch2 on) t).
Proof. reflexivity. Qed.

Lemma round_exact (a : Z) (x : Q) : x == inject_Z a -> Math.round x = a.
Proof.
  intro H.
  assert (Hb : (a <= Math.round x <= a)%Z) by (apply round_between; lra).
  lia.
Qed.

Lemma lerpChannel_0 (a b : Z) : lerpChannel (inject_Z a) (inject_Z b) 0 = a.
Proof.
  unfold lerpChannel. apply round_exact.
  assert (E : cubicEase 0 == 0) by reflexivity.
  rewrite E. ring.
Qed.

Lemma lerpChannel_1 (a b : Z) : lerpChannel (inject_Z a) (inject_Z b) 1 = b.
Proof.
  unfold lerpChannel. apply round_exact.
  assert (E : cubicEase 1 == 1) by reflexivity.
  rewrite E. ring.
Qed.

(** X2: for colours with integer channels, [lerpColor] at factor 0 is the
    text of the off colour and at factor 1 the text of the on colour. *)
Theorem lerpColor_endpoints (r0 g0 b0 r1 g1 b1 : Z) :
  lerpColor (intColor r0 g0 b0) (intColor r1 g1 b1) 0 = rgbText r0 g0 b0 /\
  lerpColor (intColor r0 g0 b0) (intColor r1 g1 b1) 1 = rgbText r1 g1 b1.
Proof.
  rewrite !lerpColor_rgbText. unfold intColor, ch0, ch1, ch2. cbn [fst snd].
  rewrite !lerpChannel_0, !lerpChannel_1. split; reflexivity.
Qed.

(** X3: for a factor between 0 and 1 and colours with integer channels,
    every channel of the blended colour lies between the corresponding
    channels of the two colours; so on a meter of at least two dots every
    dot background [updateMeters] writes has red within 51..255, green
    within 51..235 and blue within 51..82. *)
Theorem lerpColor_channels_between (r0 g0 b0 r1 g1 b1 : Z) (t : Q) :
  (0 <= t <= 1 ->
   exists r g b,
     lerpColor (intColor r0 g0 b0) (intColor r1 g1 b1) t = rgbText r g b /\
     (Z.min r0 r1 <= r <= Z.max r0 r1)%Z /\
     (Z.min g0 g1 <= g <= Z.max g0 g1)%Z /\
     (Z.min b0 b1 <= b <= Z.max b0 b1)%Z) /\
  (forall param meterValue total i,
      (2 <= total)%nat ->
      exists r g b,
        background (updateDot param meterValue total i) = rgbText r g b /\
        (51 <= r <= 255)%Z /\ (51 <= g <= 235)%Z /\ (51 <= b <= 82)%Z).
Proof.
  split.
  - intro Ht. rewrite lerpColor_rgbText.
    unfold intColor, ch0, ch1, ch2. cbn [fst snd].
    do 3 eexists. split; [reflexivity |].
    repeat split; apply lerpChannel_between; exact Ht.
  - intros param meterValue total i _.
    pose proof (dotIntensity_range (meterMap param) meterValue total i) as Ht.
    unfold updateDot. cbn [background]. rewrite lerpColor_rgbText.
    set (ti := dotIntensity (meterMap param) meterValue total i) in *.
    do 3 eexists. split; [reflexivity |].
    unfold activeColor.
    destruct (isGainReduction param);
      [| destruct (dotDbOf (meterMap param) total i <? -12);
         [| destruct (dotDbOf (meterMap param) total i <? 0)]];
      unfold offColor, redColor, greenColor, yellowColor, ch0, ch1, ch2;
      cbn [fst snd];
      repeat split;
      match goal with
      | |- context [lerpChannel ?a ?b ti] =>
          let az := eval cbv in (Qnum a) in
          let bz := eval cbv in (Qnum b) in
          let H := fresh in
          pose proof (lerpChannel_between az bz ti Ht) as H;
          change (inject_Z az) with a in H;
          change (inject_Z bz) with b in H;
          lia
      end.
Qed.

Lemma lerpColor_channels_between_witness :
  (exists r g b,
     lerpColor (intColor 51 51 51) (intColor 255 82 82) 0.25 = rgbText r g b /\
     (51 <= r <= 255)%Z /\ (51 <= g <= 82)%Z /\ (51 <= b <= 82)%Z) /\
  (exists r g b,
     background (updateDot OutputLevel (-10) 24 15) = rgbText r g b /\
     (51 <= r <= 255)%Z /\ (51 <= g <= 235)%Z /\ (51 <= b <= 82)%Z).
Proof.
  split.
  - destruct (proj1 (lerpColor_channels_between 51 51 51 255 82 82 0.25))
      as (r & g & b & H & Hr & Hg & Hb).
    + split; vm_compute; discriminate.
    + exists r, g, b. cbn in Hr, Hg, Hb. repeat split; try exact H; lia.
  - apply (proj2 (lerpColor_channels_between 0 0 0 0 0 0 0)
             OutputLevel (-10) 24%nat 15%nat).
    lia.
Defined.

(** ** The waveform scale and the knob angle *)

Lemma dbToY_clamp (db height : Q) :
  dbToY db height == height * (1 - (clamp (-60) 12 db + 60) * (1 # 72)).
Proof.
  unfold dbToY, clamp, Qdiv.
  assert (E : / (12 - -60) == 1 # 72) by reflexivity.
  rewrite E. ring.
Qed.

Lemma dbToY_bounds (db height : Q) :
  0 <= height -> 0 <= dbToY db height <= height.
Proof.
  intro Hh. rewrite dbToY_clamp.
  assert (Hlo : -60 <= 12) by lra.
  pose proof (clamp_in_range (-60) 12 db Hlo) as Hc.
  split; nra.
Qed.

Lemma dbToY_floor (db height : Q) : db <= -60 -> dbToY db height == height.
Proof.
  intro H. rewrite dbToY_clamp. unfold clamp.
  destruct (min_cases 12 db) as [[H1 ->] | [H1 ->]]; [lra |].
  destruct (max_cases (-60) db) as [[H2 ->] | [H2 ->]]; [exfalso; lra | ring].
Qed.

(** X4: on a canvas of non-negative height [dbToY] stays within the canvas,
    puts -60 dB and everything below it on the bottom edge and 12 dB and
    everything above it on the top edge, and never puts a louder level lower
    than a quieter one. *)
Theorem dbToY_within_canvas (db db' height : Q) :
  0 <= height ->
  0 <= dbToY db height <= height /\
  (db <= -60 -> dbToY db height == height) /\
  (12 <= db -> dbToY db height == 0) /\
  (db <= db' -> dbToY db' height <= dbToY db height).
Proof.
  intro Hh. rewrite !dbToY_clamp.
  pose proof (clamp_in_range (-60) 12 db) as Hc.
  pose proof (clamp_in_range (-60) 12 db') as Hc'.
  assert (Hlo : -60 <= 12) by lra.
  specialize (Hc Hlo). specialize (Hc' Hlo).
  split; [split; nra |].
  split; [| split].
  - intro H. unfold clamp.
    destruct (min_cases 12 db) as [[H1 ->] | [H1 ->]]; [lra |].
    destruct (max_cases (-60) db) as [[H2 ->] | [H2 ->]]; [nra | ring].
  - intro H. unfold clamp.
    destruct (min_cases 12 db) as [[H1 ->] | [H1 ->]].
    + destruct (max_cases (-60) 12) as [[H2 ->] | [H2 ->]]; [ring | lra].
    + lra.
  - intro H.
    assert (Hm : clamp (-60) 12 db <= clamp (-60) 12 db').
    { unfold clamp.
      destruct (min_cases 12 db) as [[H1 ->] | [H1 ->]];
        destruct (min_cases 12 db') as [[H2 ->] | [H2 ->]];
        repeat match goal with
               | |- context [Math.max ?a ?b] =>
                   destruct (max_cases a b) as [[? ->] | [? ->]]
               end; lra. }
    nra.
Qed.

Lemma dbToY_within_canvas_witness :
  0 <= dbToY 20 100 <= 100 /\ dbToY 20 100 == 0 /\ dbToY (-28) 100 <= dbToY (-70) 100.
Proof.
  assert (Hh : 0 <= 100) by (vm_compute; discriminate).
  destruct (dbToY_within_canvas 20 20 100 Hh) as (H1 & _ & H3 & _).
  destruct (dbToY_within_canvas (-70) (-28) 100 Hh) as (_ & _ & _ & H4).
  split; [exact H1 |]. split.
  - apply H3. vm_compute. discriminate.
  - apply H4. vm_compute. discriminate.
Defined.

Lemma updateKnobRotation_pct (knob : Knob.t) (value : Q) :
  Knob.min knob < Knob.max knob ->
  (updateKnobRotation knob value + 135) * (Knob.max knob - Knob.min knob)
    == (value - Knob.min knob) * 270.
Proof.
  intro H. unfold updateKnobRotation. field. lra.
Qed.

(** X5: for a knob with [min < max] the angle grows with the value, is -135
    degrees at [min] and +135 degrees at [max], hence within that sweep for
    every value within the bounds; a value above [max] is drawn beyond +135
    degrees. *)
Theorem updateKnobRotation_sweep (knob : Knob.t) (value value' : Q) :
  Knob.min knob < Knob.max knob ->
  updateKnobRotation knob (Knob.min knob) == -135 /\
  updateKnobRotation knob (Knob.max knob) == 135 /\
  (value <= value' ->
   updateKnobRotation knob value <= updateKnobRotation knob value') /\
  (Knob.min knob <= value <= Knob.max knob ->
   -135 <= updateKnobRotation knob value <= 135) /\
  (Knob.max knob < value -> 135 < updateKnobRotation knob value).
Proof.
  intro H.
  pose proof (updateKnobRotation_pct knob value H) as E.
  pose proof (updateKnobRotation_pct knob value' H) as E'.
  pose proof (updateKnobRotation_pct knob (Knob.min knob) H) as Emin.
  pose proof (updateKnobRotation_pct knob (Knob.max knob) H) as Emax.
  set (lo := Knob.min knob) in *. set (hi := Knob.max knob) in *.
  set (d := updateKnobRotation knob value) in *.
  set (d' := updateKnobRotation knob value') in *.
  set (dlo := updateKnobRotation knob lo) in *.
  set (dhi := updateKnobRotation knob hi) in *.
  assert (Hr : 0 < hi - lo) by lra.
  repeat split.
  - nra.
  - nra.
  - intro Hv. nra.
  - destruct H0 as [H1 H2]. nra.
  - destruct H0 as [H1 H2]. nra.
  - intro Hv. nra.
Qed.

Lemma updateKnobRotation_sweep_witness :
  -135 <= updateKnobRotation (Knob.mk 1.0 1.0 0 1 false 0) 0.5 <= 135 /\
  135 < updateKnobRotation (Knob.mk 1.0 1.0 0 1 false 0) 2.
Proof.
  assert (H : Knob.min (Knob.mk 1.0 1.0 0 1 false 0)
              < Knob.max (Knob.mk 1.0 1.0 0 1 false 0))
    by (vm_compute; reflexivity).
  destruct (updateKnobRotation_sweep (Knob.mk 1.0 1.0 0 1 false 0) 0.5 0.5 H)
    as (_ & _ & _ & H1 & _).
  destruct (updateKnobRotation_sweep (Knob.mk 1.0 1.0 0 1 false 0) 2 2 H)
    as (_ & _ & _ & _ & H2).
  split.
  - apply H1. split; vm_compute; discriminate.
  - apply H2. vm_compute. reflexivity.
Defined.

(** ** The shape of a meter *)

Lemma ofNat_le (i j : nat) : (i <= j)%nat -> ofNat i <= ofNat j.
Proof.
  intro H. unfold ofNat. rewrite <- Zle_Qle. apply Nat2Z.inj_le. exact H.
Qed.

Lemma ofNat_lt (i j : nat) : (i < j)%nat -> ofNat i + 1 <= ofNat j.
Proof.
  intro H. unfold ofNat.
  assert (E : inject_Z (Z.of_nat i) + 1 == inject_Z (Z.of_nat i + 1)).
  { rewrite inject_Z_plus. reflexivity. }
  rewrite E. rewrite <- Zle_Qle. lia.
Qed.

Lemma ofNat_nonneg (i : nat) : 0 <= ofNat i.
Proof. apply (ofNat_le 0 i). lia. Qed.

Lemma dbStepOf_pos (param : MeterKey) (total : nat) :
  (2 <= total)%nat -> 0 < dbStepOf (meterMap param) total.
Proof.
  intro H.
  assert (Ht : 0 < ofNat total - 1).
  { pose proof (ofNat_lt 1 total H) as H1.
    assert (E : ofNat 1 == 1) by reflexivity. lra. }
  unfold dbStepOf.
  apply Qlt_shift_div_l; [exact Ht |].
  destruct param; cbn [meterMap maxDb minDb];
    [ assert (E : Math.abs (6 - -36) == 42) by reflexivity
    | assert (E : Math.abs (-36 - 0) == 36) by reflexivity
    | assert (E : Math.abs (6 - -36) == 42) by reflexivity ];
    rewrite E; lra.
Qed.

Lemma dbStepOf_span (param : MeterKey) (total : nat) :
  (2 <= total)%nat ->
  dbStepOf (meterMap param) total * (ofNat total - 1)
    == Math.abs (maxDb (meterMap param) - minDb (meterMap param)).
Proof.
  intro H.
  assert (Ht : 0 < ofNat total - 1).
  { pose proof (ofNat_lt 1 total H) as H1.
    assert (E : ofNat 1 == 1) by reflexivity. lra. }
  unfold dbStepOf. field. lra.
Qed.

(** The three regimes of a dot of an ascending meter. *)
Lemma ascending_dot_cases (cfg : MeterCfg) (meterValue : Q) (total i : nat) :
  ascending cfg = true ->
  0 < dbStepOf cfg total ->
  (dotDbOf cfg total i <= meterValue /\
   dotIntensity cfg meterValue total i == 1) \/
  (meterValue < dotDbOf cfg total i - dbStepOf cfg total /\
   dotIntensity cfg meterValue total i == 0) \/
  (dotDbOf cfg total i - dbStepOf cfg total <= meterValue < dotDbOf cfg total i /\
   dotIntensity cfg meterValue total i * dbStepOf cfg total
     == meterValue - (dotDbOf cfg total i - dbStepOf cfg total) /\
   0 <= dotIntensity cfg meterValue total i < 1).
Proof.
  intros Hasc Hs. unfold dotIntensity. rewrite Hasc.
  set (s := dbStepOf cfg total) in *. set (d := dotDbOf cfg total i) in *.
  destruct (meterValue >=? d) eqn:E1.
  - left. apply Qleb_true in E1. split; [exact E1 | reflexivity].
  - apply Qleb_false in E1. right.
    destruct (meterValue <? d - s) eqn:E2.
    + left. apply Qltb_true in E2. split; [exact E2 | reflexivity].
    + right. apply Qltb_false in E2. split; [split; assumption |].
      assert (H0 : 0 <= (meterValue - (d - s)) / s).
      { apply Qle_shift_div_l; [exact Hs | lra]. }
      assert (H1 : (meterValue - (d - s)) / s < 1).
      { apply Qlt_shift_div_r; [exact Hs | lra]. }
      assert (Hx : Math.max 0 (Math.min 1 ((meterValue - (d - s)) / s))
                   == (meterValue - (d - s)) / s).
      { apply (clamp_id 0 1). split; [exact H0 | lra]. }
      rewrite Hx. split; [| split; assumption].
      field. lra.
Qed.

Lemma ascending_dotDb_diff (cfg : MeterCfg) (total i j : nat) :
  ascending cfg = true ->
  dotDbOf cfg total j - dotDbOf cfg total i
    == (ofNat j - ofNat i) * dbStepOf cfg total.
Proof. intro H. unfold dotDbOf. rewrite H. ring. Qed.

(** X6: on a level meter with at least two dots the lit dots form a
    thermometer: a higher dot is never brighter than a lower one, and as soon
    as a dot is lit at all every dot below it is fully lit (so at most one
    dot is partially lit); a louder value never dims a dot. *)
Theorem level_meter_thermometer
  (param : MeterKey) (meterValue meterValue' : Q) (total i j : nat) :
  isGainReduction param = false ->
  (2 <= total)%nat ->
  ((i <= j)%nat ->
   dotIntensity (meterMap param) meterValue total j
     <= dotIntensity (meterMap param) meterValue total i) /\
  ((i < j)%nat ->
   0 < dotIntensity (meterMap param) meterValue total j ->
   dotIntensity (meterMap param) meterValue total i == 1) /\
  (meterValue <= meterValue' ->
   dotIntensity (meterMap param) meterValue total i
     <= dotIntensity (meterMap param) meterValue' total i).
Proof.
  intros Hp Ht.
  assert (Hasc : ascending (meterMap param) = true)
    by (destruct param; try discriminate; reflexivity).
  pose proof (dbStepOf_pos param total Ht) as Hs.
  pose proof (ascending_dotDb_diff (meterMap param) total i j Hasc) as Hd.
  pose proof (dotIntensity_range (meterMap param) meterValue total i) as Ri.
  pose proof (dotIntensity_range (meterMap param) meterValue total j) as Rj.
  pose proof (dotIntensity_range (meterMap param) meterValue' total i) as Ri'.
  pose proof (ascending_dot_cases (meterMap param) meterValue total i Hasc Hs) as Ci.
  pose proof (ascending_dot_cases (meterMap param) meterValue total j Hasc Hs) as Cj.
  pose proof (ascending_dot_cases (meterMap param) meterValue' total i Hasc Hs) as Ci'.
  set (s := dbStepOf (meterMap param) total) in *.
  set (di := dotDbOf (meterMap param) total i) in *.
  set (dj := dotDbOf (meterMap param) total j) in *.
  set (xi := dotIntensity (meterMap param) meterValue total i) in *.
  set (xj := dotIntensity (meterMap param) meterValue total j) in *.
  set (xi' := dotIntensity (meterMap param) meterValue' total i) in *.
  split; [| split].
  - intro Hij. pose proof (ofNat_le i j Hij) as Hn.
    assert (Hdd : di <= dj) by nra.
    destruct Ci as [[A1 A2] | [[A1 A2] | [A1 [A2 A3]]]];
      destruct Cj as [[B1 B2] | [[B1 B2] | [B1 [B2 B3]]]]; try lra.
    assert (Hm : xj * s <= xi * s) by lra.
    nra.
  - intros Hij Hpos. pose proof (ofNat_lt i j Hij) as Hn.
    assert (Hdd : di + s <= dj) by nra.
    destruct Ci as [[A1 A2] | [[A1 A2] | [A1 [A2 A3]]]];
      destruct Cj as [[B1 B2] | [[B1 B2] | [B1 [B2 B3]]]]; lra.
  - intro Hv.
    destruct Ci as [[A1 A2] | [[A1 A2] | [A1 [A2 A3]]]];
      destruct Ci' as [[B1 B2] | [[B1 B2] | [B1 [B2 B3]]]]; try lra.
    assert (Hm : xi * s <= xi' * s) by lra.
    nra.
Qed.

Lemma level_meter_thermometer_witness :
  dotIntensity (meterMap InputLevel) (-10) 24 20
    <= dotIntensity (meterMap InputLevel) (-10) 24 3 /\
  dotIntensity (meterMap InputLevel) (-10) 24 3
    <= dotIntensity (meterMap InputLevel) (-6) 24 3.
Proof.
  destruct (level_meter_thermometer InputLevel (-10) (-6) 24 3 20)
    as (H1 & _ & H3); [reflexivity | lia |].
  split.
  - apply H1. lia.
  - apply H3. vm_compute. discriminate.
Defined.

(** The regimes of a dot of a descending meter, in terms of the value
    clamped to at most 0. *)
Lemma descending_dot_cases (cfg : MeterCfg) (meterValue : Q) (total i : nat) :
  ascending cfg = false ->
  0 < dbStepOf cfg total ->
  (-0.01 <= Math.min 0 meterValue /\
   dotIntensity cfg meterValue total i == 0) \/
  (Math.min 0 meterValue < -0.01 /\
   ((Math.min 0 meterValue <= dotDbOf cfg total i /\
     dotIntensity cfg meterValue total i == 1) \/
    (dotDbOf cfg total i + dbStepOf cfg total < Math.min 0 meterValue /\
     dotIntensity cfg meterValue total i == 0) \/
    (dotDbOf cfg total i < Math.min 0 meterValue
       <= dotDbOf cfg total i + dbStepOf cfg total /\
     dotIntensity cfg meterValue total i * dbStepOf cfg total
       == dotDbOf cfg total i + dbStepOf cfg total - Math.min 0 meterValue /\
     0 <= dotIntensity cfg meterValue total i < 1))).
Proof.
  intros Hasc Hs. unfold dotIntensity. rewrite Hasc.
  set (s := dbStepOf cfg total) in *. set (d := dotDbOf cfg total i) in *.
  set (c := Math.min 0 meterValue) in *.
  destruct (c >=? -0.01) eqn:E0.
  - left. apply Qleb_true in E0. split; [exact E0 | reflexivity].
  - apply Qleb_false in E0. right. split; [exact E0 |].
    destruct (c <=? d) eqn:E1.
    + left. apply Qleb_true in E1. split; [exact E1 | reflexivity].
    + apply Qleb_false in E1. right.
      destruct (c >? d + s) eqn:E2.
      * left. apply Qltb_true in E2. split; [exact E2 | reflexivity].
      * right. apply Qltb_false in E2. split; [split; assumption |].
        assert (H0 : 0 <= (d + s - c) / s).
        { apply Qle_shift_div_l; [exact Hs | lra]. }
        assert (H1 : (d + s - c) / s < 1).
        { apply Qlt_shift_div_r; [exact Hs | lra]. }
        assert (Hx : Math.max 0 (Math.min 1 ((d + s - c) / s)) == (d + s - c) / s).
        { apply (clamp_id 0 1). split; [exact H0 | lra]. }
        rewrite Hx. split; [| split; assumption].
        field. lra.
Qed.

Lemma descending_dotDb_diff (cfg : MeterCfg) (total i j : nat) :
  ascending cfg = false ->
  dotDbOf cfg total i - dotDbOf cfg total j
    == (ofNat j - ofNat i) * dbStepOf cfg total.
Proof. intro H. unfold dotDbOf. rewrite H. ring. Qed.

Lemma min0_monotone (a b : Q) : a <= b -> Math.min 0 a <= Math.min 0 b.
Proof.
  intro H.
  destruct (min_cases 0 a) as [[H1 ->] | [H1 ->]];
    destruct (min_cases 0 b) as [[H2 ->] | [H2 ->]]; lra.
Qed.

(** X7: on the gain-reduction meter with at least two dots the lit dots
    form a thermometer from dot 0 onwards: a later dot is never brighter
    than an earlier one, a lit dot has every earlier dot fully lit, more
    reduction (a lower value) never dims a dot, and dot 0 is either dark or
    fully lit, never in between. *)
Theorem gainReduction_meter_thermometer
  (meterValue meterValue' : Q) (total i j : nat) :
  (2 <= total)%nat ->
  ((i <= j)%nat ->
   dotIntensity (meterMap GainReduction) meterValue total j
     <= dotIntensity (meterMap GainReduction) meterValue total i) /\
  ((i < j)%nat ->
   0 < dotIntensity (meterMap GainReduction) meterValue total j ->
   dotIntensity (meterMap GainReduction) meterValue total i == 1) /\
  (meterValue' <= meterValue ->
   dotIntensity (meterMap GainReduction) meterValue total i
     <= dotIntensity (meterMap GainReduction) meterValue' total i) /\
  (dotIntensity (meterMap GainReduction) meterValue total 0 == 0 \/
   dotIntensity (meterMap GainReduction) meterValue total 0 == 1).
Proof.
  intro Ht.
  assert (Hasc : ascending (meterMap GainReduction) = false) by reflexivity.
  pose proof (dbStepOf_pos GainReduction total Ht) as Hs.
  pose proof (descending_dotDb_diff (meterMap GainReduction) total i j Hasc) as Hd.
  pose proof (dotIntensity_range (meterMap GainReduction) meterValue total i) as Ri.
  pose proof (dotIntensity_range (meterMap GainReduction) meterValue total j) as Rj.
  pose proof (dotIntensity_range (meterMap GainReduction) meterValue' total i) as Ri'.
  pose proof (descending_dot_cases (meterMap GainReduction) meterValue total i Hasc Hs)
    as Ci.
  pose proof (descending_dot_cases (meterMap GainReduction) meterValue total j Hasc Hs)
    as Cj.
  pose proof (descending_dot_cases (meterMap GainReduction) meterValue' total i Hasc Hs)
    as Ci'.
  pose proof (descending_dot_cases (meterMap GainReduction) meterValue total 0 Hasc Hs)
    as C0.
  assert (D0 : dotDbOf (meterMap GainReduction) total 0 == 0).
  { unfold dotDbOf. cbn [meterMap ascending minDb]. unfold ofNat. simpl. ring. }
  assert (Hc0 : Math.min 0 meterValue <= 0).
  { destruct (min_cases 0 meterValue) as [[H1 ->] | [H1 ->]]; lra. }
  set (s := dbStepOf (meterMap GainReduction) total) in *.
  set (di := dotDbOf (meterMap GainReduction) total i) in *.
  set (dj := dotDbOf (meterMap GainReduction) total j) in *.
  set (d0 := dotDbOf (meterMap GainReduction) total 0) in *.
  set (xi := dotIntensity (meterMap GainReduction) meterValue total i) in *.
  set (xj := dotIntensity (meterMap GainReduction) meterValue total j) in *.
  set (xi' := dotIntensity (meterMap GainReduction) meterValue' total i) in *.
  set (x0 := dotIntensity (meterMap GainReduction) meterValue total 0) in *.
  set (c := Math.min 0 meterValue) in *.
  split; [| split; [| split]].
  - intro Hij. pose proof (ofNat_le i j Hij) as Hn.
    assert (Hdd : dj <= di) by nra.
    destruct Ci as [[A0 A] | [A0 [[A1 A2] | [[A1 A2] | [A1 [A2 A3]]]]]];
      destruct Cj as [[B0 B] | [B0 [[B1 B2] | [[B1 B2] | [B1 [B2 B3]]]]]];
      try lra.
    assert (Hm : xj * s <= xi * s) by lra.
    nra.
  - intros Hij Hpos. pose proof (ofNat_lt i j Hij) as Hn.
    assert (Hdd : dj + s <= di) by nra.
    destruct Ci as [[A0 A] | [A0 [[A1 A2] | [[A1 A2] | [A1 [A2 A3]]]]]];
      destruct Cj as [[B0 B] | [B0 [[B1 B2] | [[B1 B2] | [B1 [B2 B3]]]]]];
      lra.
  - intro Hv. pose proof (min0_monotone meterValue' meterValue Hv) as Hc.
    fold c in Hc. set (c' := Math.min 0 meterValue') in *.
    destruct Ci as [[A0 A] | [A0 [[A1 A2] | [[A1 A2] | [A1 [A2 A3]]]]]];
      destruct Ci' as [[B0 B] | [B0 [[B1 B2] | [[B1 B2] | [B1 [B2 B3]]]]]];
      try lra.
    assert (Hm : xi * s <= xi' * s) by lra.
    nra.
  - destruct C0 as [[A0 A] | [A0 [[A1 A2] | [[A1 A2] | [A1 [A2 A3]]]]]].
    + left. exact A.
    + right. exact A2.
    + left. exact A2.
    + lra.
Qed.

Lemma gainReduction_meter_thermometer_witness :
  dotIntensity (meterMap GainReduction) (-6) 24 9
    <= dotIntensity (meterMap GainReduction) (-6) 24 2 /\
  dotIntensity (meterMap GainReduction) (-6) 24 2
    <= dotIntensity (meterMap GainReduction) (-12) 24 2.
Proof.
  destruct (gainReduction_meter_thermometer (-6) (-12) 24 2 9)
    as (H1 & _ & H3 & _); [lia |].
  split.
  - apply H1. lia.
  - apply H3. vm_compute. discriminate.
Defined.

(** X8: with at least two dots, a level meter at or above +6 dB has every
    dot fully lit, at or above -36 dB it has dot 0 fully lit, and more than
    one step below -36 dB it is entirely dark; the gain-reduction meter at
    -36 dB or below has every dot fully lit. *)
Theorem meter_extremes (param : MeterKey) (meterValue : Q) (total i : nat) :
  (2 <= total)%nat ->
  (i < total)%nat ->
  (isGainReduction param = false ->
   (6 <= meterValue -> dotIntensity (meterMap param) meterValue total i == 1) /\
   (-36 <= meterValue -> dotIntensity (meterMap param) meterValue total 0 == 1) /\
   (meterValue < -36 - dbStepOf (meterMap param) total ->
    dotIntensity (meterMap param) meterValue total i == 0)) /\
  (meterValue <= -36 ->
   dotIntensity (meterMap GainReduction) meterValue total i == 1).
Proof.
  intros Ht Hi.
  assert (Hn : ofNat i <= ofNat total - 1).
  { pose proof (ofNat_lt i total Hi). lra. }
  pose proof (ofNat_nonneg i) as Hn0.
  split.
  - intro Hp.
    assert (Hasc : ascending (meterMap param) = true)
      by (destruct param; try discriminate; reflexivity).
    pose proof (dbStepOf_pos param total Ht) as Hs.
    pose proof (dbStepOf_span param total Ht) as Hspan.
    assert (Habs : Math.abs (maxDb (meterMap param) - minDb (meterMap param)) == 42)
      by (destruct param; try discriminate; reflexivity).
    rewrite Habs in Hspan.
    assert (Hdi : dotDbOf (meterMap param) total i
                  == -36 + ofNat i * dbStepOf (meterMap param) total).
    { unfold dotDbOf. rewrite Hasc.
      destruct param; try discriminate; reflexivity. }
    assert (Hd0 : dotDbOf (meterMap param) total 0 == -36).
    { unfold dotDbOf. rewrite Hasc.
      destruct param; try discriminate; cbn [meterMap minDb];
        unfold ofNat; simpl; ring. }
    pose proof (ascending_dot_cases (meterMap param) meterValue total i Hasc Hs) as Ci.
    pose proof (ascending_dot_cases (meterMap param) meterValue total 0 Hasc Hs) as C0.
    set (s := dbStepOf (meterMap param) total) in *.
    set (di := dotDbOf (meterMap param) total i) in *.
    set (d0 := dotDbOf (meterMap param) total 0) in *.
    assert (Hle : di <= 6) by nra.
    assert (Hge : -36 <= di) by nra.
    split; [| split].
    + intro H. destruct Ci as [[A1 A2] | [[A1 A2] | [A1 [A2 A3]]]]; lra.
    + intro H. destruct C0 as [[A1 A2] | [[A1 A2] | [A1 [A2 A3]]]]; lra.
    + intro H. destruct Ci as [[A1 A2] | [[A1 A2] | [A1 [A2 A3]]]]; lra.
  - intro H.
    assert (Hasc : ascending (meterMap GainReduction) = false) by reflexivity.
    pose proof (dbStepOf_pos GainReduction total Ht) as Hs.
    pose proof (dbStepOf_span GainReduction total Ht) as Hspan.
    assert (Habs : Math.abs (maxDb (meterMap GainReduction)
                             - minDb (meterMap GainReduction)) == 36)
      by reflexivity.
    rewrite Habs in Hspan.
    assert (Hdi : dotDbOf (meterMap GainReduction) total i
                  == 0 - ofNat i * dbStepOf (meterMap GainReduction) total)
      by reflexivity.
    pose proof (descending_dot_cases (meterMap GainReduction) meterValue total i
                  Hasc Hs) as Ci.
    assert (Hc : Math.min 0 meterValue == meterValue).
    { destruct (min_cases 0 meterValue) as [[H1 ->] | [H1 ->]]; lra. }
    set (s := dbStepOf (meterMap GainReduction) total) in *.
    set (di := dotDbOf (meterMap GainReduction) total i) in *.
    set (c := Math.min 0 meterValue) in *.
    assert (Hge : -36 <= di) by nra.
    destruct Ci as [[A0 A] | [A0 [[A1 A2] | [[A1 A2] | [A1 [A2 A3]]]]]]; lra.
Qed.

Lemma meter_extremes_witness :
  dotIntensity (meterMap OutputLevel) 7 24 23 == 1 /\
  dotIntensity (meterMap GainReduction) (-40) 24 23 == 1.
Proof.
  destruct (meter_extremes OutputLevel 7 24 23) as [H1 _]; [lia | lia |].
  destruct (meter_extremes GainReduction (-40) 24 23) as [_ H2]; [lia | lia |].
  split.
  - apply H1; [reflexivity | vm_compute; discriminate].
  - apply H2. vm_compute. discriminate.
Defined.

(** X9: along a level meter with at least two dots the colour bands come in
    the order green, yellow, red and never go back: below a green dot every
    dot is green, above a red dot every dot is red; dot 0 is green and the
    last dot is red.  Gain-reduction dots are always red. *)
Theorem level_meter_colour_bands (param : MeterKey) (total i j : nat) :
  (2 <= total)%nat ->
  (i <= j)%nat ->
  (forall dotDb, activeColor GainReduction dotDb = redColor) /\
  (isGainReduction param = false ->
   (activeColor param (dotDbOf (meterMap param) total j) = greenColor ->
    activeColor param (dotDbOf (meterMap param) total i) = greenColor) /\
   (activeColor param (dotDbOf (meterMap param) total i) = redColor ->
    activeColor param (dotDbOf (meterMap param) total j) = redColor) /\
   activeColor param (dotDbOf (meterMap param) total 0) = greenColor /\
   activeColor param (dotDbOf (meterMap param) total (total - 1)) = redColor).
Proof.
  intros Ht Hij. split; [reflexivity |].
  intro Hp.
  assert (Hasc : ascending (meterMap param) = true)
    by (destruct param; try discriminate; reflexivity).
  pose proof (dbStepOf_pos param total Ht) as Hs.
  pose proof (dbStepOf_span param total Ht) as Hspan.
  assert (Habs : Math.abs (maxDb (meterMap param) - minDb (meterMap param)) == 42)
    by (destruct param; try discriminate; reflexivity).
  rewrite Habs in Hspan.
  pose proof (ascending_dotDb_diff (meterMap param) total i j Hasc) as Hd.
  pose proof (ofNat_le i j Hij) as Hn.
  assert (Hd0 : dotDbOf (meterMap param) total 0 == -36).
  { unfold dotDbOf. rewrite Hasc.
    destruct param; try discriminate; cbn [meterMap minDb];
      unfold ofNat; simpl; ring. }
  assert (Hdl : dotDbOf (meterMap param) total (total - 1) == 6).
  { assert (E : ofNat (total - 1) == ofNat total - 1).
    { unfold ofNat. rewrite Nat2Z.inj_sub by lia.
      unfold Zminus. rewrite inject_Z_plus, inject_Z_opp. reflexivity. }
    assert (Hmin : minDb (meterMap param) = -36)
      by (destruct param; try discriminate; reflexivity).
    unfold dotDbOf. rewrite Hasc, Hmin, E. nra. }
  set (s := dbStepOf (meterMap param) total) in *.
  set (di := dotDbOf (meterMap param) total i) in *.
  set (dj := dotDbOf (meterMap param) total j) in *.
  set (d0 := dotDbOf (meterMap param) total 0) in *.
  set (dl := dotDbOf (meterMap param) total (total - 1)) in *.
  assert (Hdd : di <= dj) by nra.
  unfold activeColor. rewrite Hp.
  repeat split.
  - destruct (dj <? -12) eqn:Ej; [| destruct (dj <? 0); discriminate].
    apply Qltb_true in Ej. intros _.
    assert (Ei : (di <? -12) = true) by (apply Qltb_true; lra).
    rewrite Ei. reflexivity.
  - destruct (di <? -12) eqn:Ei; [discriminate |].
    destruct (di <? 0) eqn:Ei0; [discriminate |].
    apply Qltb_false in Ei, Ei0. intros _.
    assert (Ej : (dj <? -12) = false) by (apply Qltb_false; lra).
    assert (Ej0 : (dj <? 0) = false) by (apply Qltb_false; lra).
    rewrite Ej, Ej0. reflexivity.
  - assert (E0 : (d0 <? -12) = true) by (apply Qltb_true; lra).
    rewrite E0. reflexivity.
  - assert (El : (dl <? -12) = false) by (apply Qltb_false; lra).
    assert (El0 : (dl <? 0) = false) by (apply Qltb_false; lra).
    rewrite El, El0. reflexivity.
Qed.

Lemma level_meter_colour_bands_witness :
  activeColor InputLevel (dotDbOf (meterMap InputLevel) 24 0) = greenColor /\
  activeColor InputLevel (dotDbOf (meterMap InputLevel) 24 23) = redColor.
Proof.
  destruct (level_meter_colour_bands InputLevel 24 0 23) as [_ H]; [lia | lia |].
  destruct (H eq_refl) as (_ & _ & H0 & H1).
  split; [exact H0 | exact H1].
Defined.

(** ** Frames: meters and history *)

Lemma animate_config (v : Variant) (st : GUI) :
  decayRate (fst (animate v st)) = decayRate st /\
  historyLength (fst (animate v st)) = historyLength st /\
  historyUpdateRate (fst (animate v st)) = historyUpdateRate st.
Proof.
  rewrite animate_fst.
  set (st3 := set_meters
                (deadZone (decayPeaks (decayRate st) (silenceFloor (meters st)))) st).
  destruct (recordHistory_frame (fst (smoothKnobs v st3))) as (_ & _ & -> & -> & ->).
  unfold smoothKnobs.
  destruct (smoothKnobs_fold_frame v (keys (knobs st3)) (st3, []))
    as (_ & -> & _ & -> & -> & _).
  repeat split.
Qed.

Lemma animate_history_cases (v : Variant) (st : GUI) :
  ((historyUpdateRate st <= frameCount st + 1)%Z ->
   waveformHistory (fst (animate v st)) =
     pushSample (historyLength st) (waveformHistory st)
       {| s_inputLevel := Meter.value (inputLevel (meters (fst (animate v st))));
          s_gainReduction := Meter.value (gainReduction (meters (fst (animate v st))));
          s_outputLevel := Meter.value (outputLevel (meters (fst (animate v st)))) |} /\
   frameCount (fst (animate v st)) = 0%Z) /\
  ((frameCount st + 1 < historyUpdateRate st)%Z ->
   waveformHistory (fst (animate v st)) = waveformHistory st /\
   frameCount (fst (animate v st)) = (frameCount st + 1)%Z).
Proof.
  split; [apply animate_waveformHistory |].
  intro H. rewrite animate_fst.
  set (st3 := set_meters
                (deadZone (decayPeaks (decayRate st) (silenceFloor (meters st)))) st).
  unfold smoothKnobs.
  destruct (smoothKnobs_fold_frame v (keys (knobs st3)) (st3, []))
    as (_ & _ & H3 & _ & H5 & H6 & _).
  cbn [fst st3 set_meters waveformHistory historyUpdateRate frameCount] in H3, H5, H6.
  unfold recordHistory. rewrite H3, H5, H6.
  apply Z.leb_gt in H. rewrite H. cbn. split; reflexivity.
Qed.

Lemma frames_S (v : Variant) (n : nat) :
  forall st : GUI, frames v (S n) st = fst (animate v (frames v n st)).
Proof.
  induction n as [| n IH]; intro st; [reflexivity |].
  change (frames v (S (S n)) st) with (frames v (S n) (fst (animate v st))).
  rewrite IH. reflexivity.
Qed.

Lemma frames_config (v : Variant) (n : nat) :
  forall st : GUI,
    decayRate (frames v n st) = decayRate st /\
    historyLength (frames v n st) = historyLength st /\
    historyUpdateRate (frames v n st) = historyUpdateRate st.
Proof.
  induction n as [| n IH]; intro st; [repeat split |].
  simpl. destruct (IH (fst (animate v st))) as (-> & -> & ->).
  apply animate_config.
Qed.

(** X10: after every frame the gain-reduction meter has its peak equal to
    its value, and that value is either 0 or at least 0.05 in magnitude, so
    the dead-zone test of the display never changes what is shown; with no
    new samples a second frame leaves the gain-reduction meter as the first
    left it. *)
Theorem animate_gainReduction_settled (v : Variant) (st : GUI) :
  let gr := gainReduction (meters (fst (animate v st))) in
  Meter.peak gr = Meter.value gr /\
  (Meter.value gr = 0 \/ 0.05 <= Math.abs (Meter.value gr)) /\
  meterValueOf GainReduction (Meter.peak gr) == Meter.peak gr /\
  gainReduction (meters (frames v 2 st)) = gr.
Proof.
  cbv zeta. change (frames v 2 st) with (fst (animate v (fst (animate v st)))).
  rewrite (animate_meters v (fst (animate v st))).
  destruct (animate_config v st) as (-> & _ & _).
  rewrite !animate_meters.
  unfold deadZone, decayPeaks, silenceFloor.
  destruct (Meter.value (inputLevel (meters st)) <? -50) eqn:Ein;
    cbn [gainReduction inputLevel outputLevel decayPeak Meter.value Meter.peak].
  - assert (E0 : (Math.abs 0 <? 0.05) = true) by reflexivity.
    rewrite E0.
    cbn [gainReduction inputLevel outputLevel decayPeak Meter.value Meter.peak].
    rewrite Ein.
    cbn [gainReduction inputLevel outputLevel decayPeak Meter.value Meter.peak].
    rewrite E0. repeat split; try reflexivity. left. reflexivity.
  - assert (E0 : (Math.abs 0 <? 0.05) = true) by reflexivity.
    destruct (Math.abs (Meter.value (gainReduction (meters st))) <? 0.05) eqn:Egr;
      cbn [gainReduction inputLevel outputLevel decayPeak Meter.value Meter.peak];
      rewrite Ein;
      cbn [gainReduction inputLevel outputLevel decayPeak Meter.value Meter.peak].
    + rewrite E0. repeat split; try reflexivity. left. reflexivity.
    + rewrite Egr.
      repeat split; try reflexivity.
      * right. apply Qltb_false. exact Egr.
      * unfold meterValueOf. cbn [isGainReduction andb]. rewrite Egr. reflexivity.
Qed.

Lemma ofNat_S (n : nat) : ofNat (S n) == ofNat n + 1.
Proof.
  unfold ofNat. rewrite Nat2Z.inj_succ. unfold Z.succ.
  rewrite inject_Z_plus. reflexivity.
Qed.

Lemma max_max_decay (x p d e : Q) :
  0 <= d -> 0 <= e ->
  Math.max x (Math.max x (p - d) - e) == Math.max x (p - (e + d)).
Proof.
  intros Hd He.
  destruct (max_cases x (p - d)) as [[H1 ->] | [H1 ->]];
    destruct (max_cases x (p - (e + d))) as [[H2 ->] | [H2 ->]];
    match goal with
    | |- context [Math.max ?a ?b] =>
        destruct (max_cases a b) as [[H3 ->] | [H3 ->]]
    end; lra.
Qed.

Lemma max_compat_r (x a b : Q) : a == b -> Math.max x a == Math.max x b.
Proof.
  intro H.
  destruct (max_cases x a) as [[H1 ->] | [H1 ->]];
    destruct (max_cases x b) as [[H2 ->] | [H2 ->]]; lra.
Qed.

Lemma frames_level_peaks (v : Variant) (n : nat) :
  forall st : GUI,
    0 <= decayRate st ->
    Meter.value (inputLevel (meters (frames v (S n) st)))
      = Meter.value (inputLevel (meters st)) /\
    Meter.peak (inputLevel (meters (frames v (S n) st)))
      == Math.max (Meter.value (inputLevel (meters st)))
                  (Meter.peak (inputLevel (meters st)) - ofNat (S n) * decayRate st) /\
    Meter.value (outputLevel (meters (frames v (S n) st)))
      = Meter.value (outputLevel (meters st)) /\
    Meter.peak (outputLevel (meters (frames v (S n) st)))
      == Math.max (Meter.value (outputLevel (meters st)))
                  (Meter.peak (outputLevel (meters st)) - ofNat (S n) * decayRate st).
Proof.
  induction n as [| n IH]; intros st Hd.
  - change (frames v 1 st) with (fst (animate v st)).
    rewrite animate_inputLevel, animate_outputLevel.
    cbn [decayPeak Meter.value Meter.peak].
    assert (E : ofNat 1 == 1) by reflexivity.
    repeat split; try reflexivity; apply max_compat_r; rewrite E; ring.
  - change (frames v (S (S n)) st) with (frames v (S n) (fst (animate v st))).
    destruct (animate_config v st) as (Hrate & _ & _).
    assert (Hd' : 0 <= decayRate (fst (animate v st))) by (rewrite Hrate; exact Hd).
    destruct (IH (fst (animate v st)) Hd') as (H1 & H2 & H3 & H4).
    rewrite H1, H2, H3, H4, Hrate.
    rewrite animate_inputLevel, animate_outputLevel.
    cbn [decayPeak Meter.value Meter.peak].
    pose proof (ofNat_nonneg (S n)) as Hn.
    assert (He : 0 <= ofNat (S n) * decayRate st) by nra.
    pose proof (ofNat_S (S n)) as ES.
    repeat split; try reflexivity.
    + rewrite (max_max_decay _ _ _ _ Hd He). apply max_compat_r.
      rewrite ES. ring.
    + rewrite (max_max_decay _ _ _ _ Hd He). apply max_compat_r.
      rewrite ES. ring.
Qed.

(** X11: with a non-negative decay rate and no new samples, after [n >= 1]
    frames a level meter still has its value and its peak is
    [max(value, peak - n * decayRate)]: the peak falls linearly and comes to
    rest on the value; after a frame the peak is never below the value. *)
Theorem frames_peak_hold_decay (v : Variant) (n : nat) (st : GUI) :
  0 <= decayRate st ->
  (1 <= n)%nat ->
  Meter.value (inputLevel (meters (frames v n st)))
    = Meter.value (inputLevel (meters st)) /\
  Meter.peak (inputLevel (meters (frames v n st)))
    == Math.max (Meter.value (inputLevel (meters st)))
                (Meter.peak (inputLevel (meters st)) - ofNat n * decayRate st) /\
  Meter.value (outputLevel (meters (frames v n st)))
    = Meter.value (outputLevel (meters st)) /\
  Meter.peak (outputLevel (meters (frames v n st)))
    == Math.max (Meter.value (outputLevel (meters st)))
                (Meter.peak (outputLevel (meters st)) - ofNat n * decayRate st) /\
  Meter.value (inputLevel (meters (frames v n st)))
    <= Meter.peak (inputLevel (meters (frames v n st))) /\
  (Meter.peak (inputLevel (meters st)) - Meter.value (inputLevel (meters st))
     <= ofNat n * decayRate st ->
   Meter.peak (inputLevel (meters (frames v n st)))
     == Meter.value (inputLevel (meters st))).
Proof.
  intros Hd Hn. destruct n as [| n]; [lia |].
  destruct (frames_level_peaks v n st Hd) as (H1 & H2 & H3 & H4).
  split; [exact H1 |]. split; [exact H2 |].
  split; [exact H3 |]. split; [exact H4 |].
  rewrite H1, H2.
  destruct (max_cases (Meter.value (inputLevel (meters st)))
              (Meter.peak (inputLevel (meters st)) - ofNat (S n) * decayRate st))
    as [[H5 ->] | [H5 ->]]; split; intros; lra.
Qed.

Lemma frames_peak_hold_decay_witness :
  Meter.peak (inputLevel (meters (frames compui 4 (inputMeterListener (-40) constructor))))
    == -38.
Proof.
  destruct (frames_peak_hold_decay compui 4 (inputMeterListener (-40) constructor))
    as (_ & H & _).
  - vm_compute. discriminate.
  - lia.
  - rewrite H. reflexivity.
Defined.

Lemma animate_history_length (v : Variant) (st : GUI) :
  (List.length (waveformHistory st) <= historyLength st)%nat ->
  (List.length (waveformHistory (fst (animate v st))) <= historyLength st)%nat.
Proof.
  intro H.
  destruct (animate_history_cases v st) as [Hpush Hskip].
  destruct (Z_le_gt_dec (historyUpdateRate st) (frameCount st + 1)) as [Hr | Hr].
  - destruct (Hpush Hr) as [-> _]. apply pushSample_length. exact H.
  - destruct Hskip as [-> _]; [lia | exact H].
Qed.

(** X12: the waveform history never outgrows its capacity: if it holds at
    most [historyLength] samples, it still does after any number of
    frames. *)
Theorem frames_history_bounded (v : Variant) (n : nat) (st : GUI) :
  (List.length (waveformHistory st) <= historyLength st)%nat ->
  (List.length (waveformHistory (frames v n st)) <= historyLength st)%nat /\
  historyLength (frames v n st) = historyLength st.
Proof.
  revert st. induction n as [| n IH]; intros st H; [split; [exact H | reflexivity] |].
  simpl.
  destruct (animate_config v st) as (_ & HL & _).
  destruct (IH (fst (animate v st))) as [H1 H2].
  - rewrite HL. apply animate_history_length. exact H.
  - rewrite HL in H1, H2. split; assumption.
Qed.

Lemma frames_history_bounded_witness :
  (List.length (waveformHistory (frames compui 40 constructor)) <= 30)%nat.
Proof.
  apply (frames_history_bounded compui 40 constructor). simpl. lia.
Defined.

Lemma frames_history_idle (v : Variant) (n : nat) :
  forall st : GUI,
    (frameCount st + Z.of_nat n < historyUpdateRate st)%Z ->
    waveformHistory (frames v n st) = waveformHistory st /\
    frameCount (frames v n st) = (frameCount st + Z.of_nat n)%Z.
Proof.
  induction n as [| n IH]; intros st H.
  - simpl. split; [reflexivity | lia].
  - simpl frames.
    destruct (animate_history_cases v st) as [_ Hskip].
    destruct Hskip as [Hh Hf]; [lia |].
    destruct (animate_config v st) as (_ & _ & Hr).
    destruct (IH (fst (animate v st))) as [H1 H2].
    + rewrite Hf, Hr. lia.
    + rewrite H1, H2, Hh, Hf. split; [reflexivity | lia].
Qed.

(** X13: the history is sampled at a sub-rate: starting with the frame
    counter at 0 and an update rate of [k >= 1], the first [k - 1] frames
    leave the history alone and count up, and the [k]-th frame pushes one
    sample, taken from the meter values of that frame, and resets the
    counter. *)
Theorem frames_history_subrate (v : Variant) (k n : nat) (st : GUI) :
  frameCount st = 0%Z ->
  historyUpdateRate st = Z.of_nat k ->
  (1 <= k)%nat ->
  ((n < k)%nat ->
   waveformHistory (frames v n st) = waveformHistory st /\
   frameCount (frames v n st) = Z.of_nat n) /\
  waveformHistory (frames v k st) =
    pushSample (historyLength st) (waveformHistory st)
      {| s_inputLevel := Meter.value (inputLevel (meters (frames v k st)));
         s_gainReduction := Meter.value (gainReduction (meters (frames v k st)));
         s_outputLevel := Meter.value (outputLevel (meters (frames v k st))) |} /\
  frameCount (frames v k st) = 0%Z.
Proof.
  intros Hf Hr Hk. split.
  - intro Hn. destruct (frames_history_idle v n st) as [H1 H2]; [lia |].
    split; [exact H1 | lia].
  - destruct k as [| k]; [lia |].
    destruct (frames_history_idle v k st) as [H1 H2]; [lia |].
    destruct (frames_config v k st) as (_ & HL & HR).
    rewrite frames_S.
    destruct (animate_history_cases v (frames v k st)) as [Hpush _].
    destruct Hpush as [Hh Hc]; [rewrite HR, H2; lia |].
    rewrite Hh, Hc, HL, H1. split; reflexivity.
Qed.

Lemma frames_history_subrate_witness :
  let st := mkGUI (meters constructor) 0.5 [] 30 3 0 (-28.0) [] in
  waveformHistory (frames compui 2 st) = [] /\
  List.length (waveformHistory (frames compui 3 st)) = 1%nat.
Proof.
  cbv zeta.
  destruct (frames_history_subrate compui 3 2
              (mkGUI (meters constructor) 0.5 [] 30 3 0 (-28.0) []))
    as (H1 & H2 & _); [reflexivity | reflexivity | lia |].
  split.
  - apply H1. lia.
  - rewrite H2. reflexivity.
Defined.

(** ** Frames: knob smoothing in general *)

Lemma stepKnob_target (v : Variant) (knob : Knob.t) :
  Knob.targetValue (stepKnob v knob) = Knob.targetValue knob /\
  Knob.min (stepKnob v knob) = Knob.min knob /\
  Knob.max (stepKnob v knob) = Knob.max knob.
Proof.
  unfold stepKnob.
  destruct (Math.abs (Knob.targetValue knob - Knob.currentValue knob) >? 0.0001);
    repeat split.
Qed.

Lemma stepKnob_gap (v : Variant) (knob : Knob.t) :
  (0.0001 < Math.abs (Knob.targetValue knob - Knob.currentValue knob) ->
   Knob.targetValue (stepKnob v knob) - Knob.currentValue (stepKnob v knob)
     == (1 - smoothing v) * (Knob.targetValue knob - Knob.currentValue knob)) /\
  (Math.abs (Knob.targetValue knob - Knob.currentValue knob) <= 0.0001 ->
   Knob.targetValue (stepKnob v knob) - Knob.currentValue (stepKnob v knob)
     = Knob.targetValue knob - Knob.currentValue knob).
Proof.
  split; intro H.
  - rewrite (proj1 (stepKnob_moves v knob H)).
    cbn [Knob.set_currentValue Knob.currentValue Knob.targetValue]. ring.
  - rewrite (proj1 (stepKnob_rests v knob H)). reflexivity.
Qed.

(** X14: with a smoothing factor between 0 and 1 a frame never overshoots:
    the new current value lies between the old one and the target, the
    target is left alone, and while the knob is moving the remaining gap is
    exactly [(1 - smoothing)] times the old gap. *)
Theorem animate_no_overshoot
  (v : Variant) (param : string) (st : GUI) (knob : Knob.t) :
  NoDup (keys (knobs st)) ->
  lookup param (knobs st) = Some knob ->
  0 <= smoothing v <= 1 ->
  exists knob',
    lookup param (knobs (fst (animate v st))) = Some knob' /\
    Knob.targetValue knob' = Knob.targetValue knob /\
    (Knob.currentValue knob <= Knob.targetValue knob ->
     Knob.currentValue knob <= Knob.currentValue knob' <= Knob.targetValue knob) /\
    (Knob.targetValue knob <= Knob.currentValue knob ->
     Knob.targetValue knob <= Knob.currentValue knob' <= Knob.currentValue knob) /\
    (0.0001 < Math.abs (Knob.targetValue knob - Knob.currentValue knob) ->
     Knob.targetValue knob' - Knob.currentValue knob'
       == (1 - smoothing v) * (Knob.targetValue knob - Knob.currentValue knob)).
Proof.
  intros Hnd H [Hf0 Hf1].
  exists (stepKnob v knob).
  split; [apply (animate_knob v st param knob Hnd H) |].
  split; [apply stepKnob_target |].
  destruct (stepKnob_gap v knob) as [Hmove Hrest].
  destruct (stepKnob_target v knob) as (Ht & _ & _).
  destruct (Qlt_le_dec 0.0001
              (Math.abs (Knob.targetValue knob - Knob.currentValue knob)))
    as [Hm | Hr].
  - specialize (Hmove Hm). rewrite Ht in Hmove.
    set (f := smoothing v) in *.
    set (c := Knob.currentValue knob) in *.
    set (t := Knob.targetValue knob) in *.
    set (c' := Knob.currentValue (stepKnob v knob)) in *.
    split; [| split].
    + intro Hle. split; nra.
    + intro Hle. split; nra.
    + intros _. rewrite Ht. exact Hmove.
  - rewrite (proj1 (stepKnob_rests v knob Hr)).
    split; [| split].
    + intro Hle. split; lra.
    + intro Hle. split; lra.
    + intro Hm. lra.
Qed.

Lemma animate_no_overshoot_witness :
  exists knob',
    lookup "ratioIn"
      (knobs (fst (animate compui
                     (set_knobs [("ratioIn"%string, Knob.mk 1 10 1 10 false 0)]
                                constructor)))) = Some knob' /\
    1 <= Knob.currentValue knob' <= 10.
Proof.
  destruct (animate_no_overshoot compui "ratioIn"
              (set_knobs [("ratioIn"%string, Knob.mk 1 10 1 10 false 0)] constructor)
              (Knob.mk 1 10 1 10 false 0))
    as (knob' & H1 & _ & H2 & _).
  - cbn. constructor; [intros [] | constructor].
  - reflexivity.
  - split; vm_compute; discriminate.
  - exists knob'. split; [exact H1 |]. apply H2. vm_compute. discriminate.
Defined.

Lemma abs_scale (a x : Q) : 0 <= a -> Math.abs (a * x) == a * Math.abs x.
Proof.
  intro Ha.
  destruct (abs_cases x) as [[H1 H2] | [H1 H2]];
    destruct (abs_cases (a * x)) as [[H3 H4] | [H3 H4]];
    rewrite H2, H4; nra.
Qed.

Lemma abs_compat (x y : Q) : x == y -> Math.abs x == Math.abs y.
Proof.
  intro H.
  destruct (abs_cases x) as [[H1 H2] | [H1 H2]];
    destruct (abs_cases y) as [[H3 H4] | [H3 H4]];
    rewrite H2, H4; lra.
Qed.

(** A knob whose gap is at most [0.0001 + n * smoothing * 0.0001] is at rest
    after [n] frames: every moving frame takes at least
    [smoothing * 0.0001] off the gap. *)
Lemma stepsKnob_rest_within (v : Variant) (n : nat) :
  0 < smoothing v <= 1 ->
  forall knob : Knob.t,
    Math.abs (Knob.targetValue knob - Knob.currentValue knob)
      <= 0.0001 + ofNat n * (smoothing v * 0.0001) ->
    Math.abs (Knob.targetValue (stepsKnob v n knob)
              - Knob.currentValue (stepsKnob v n knob)) <= 0.0001.
Proof.
  intros [Hf0 Hf1]. induction n as [| n IH]; intros knob H.
  - cbn [stepsKnob]. assert (E : ofNat 0 == 0) by reflexivity. rewrite E in H. lra.
  - cbn [stepsKnob].
    destruct (Qlt_le_dec 0.0001
                (Math.abs (Knob.targetValue knob - Knob.currentValue knob)))
      as [Hm | Hr].
    + apply IH.
      rewrite (abs_compat _ _ (proj1 (stepKnob_gap v knob) Hm)).
      rewrite abs_scale by lra.
      rewrite ofNat_S in H.
      set (g := Math.abs (Knob.targetValue knob - Knob.currentValue knob)) in *.
      set (f := smoothing v) in *. set (m := ofNat n) in *.
      nra.
    + rewrite (proj1 (stepKnob_rests v knob Hr)).
      rewrite (stepsKnob_rests v knob n Hr). exact Hr.
Qed.

Lemma stepsKnob_eventually_rests (v : Variant) (knob : Knob.t) :
  0 < smoothing v <= 1 ->
  exists n : nat,
    Math.abs (Knob.targetValue (stepsKnob v n knob)
              - Knob.currentValue (stepsKnob v n knob)) <= 0.0001.
Proof.
  intros [Hf0 Hf1].
  set (g := Math.abs (Knob.targetValue knob - Knob.currentValue knob)).
  assert (Hfe : 0 < smoothing v * 0.0001) by nra.
  destruct (Qarchimedean (g / (smoothing v * 0.0001))) as [p Hp].
  exists (Pos.to_nat p).
  apply stepsKnob_rest_within; [split; assumption |].
  fold g.
  assert (En : ofNat (Pos.to_nat p) == inject_Z (Z.pos p)).
  { unfold ofNat. rewrite positive_nat_Z. reflexivity. }
  rewrite En.
  assert (Hq : g == g / (smoothing v * 0.0001) * (smoothing v * 0.0001))
    by (field; lra).
  assert (Hg : g / (smoothing v * 0.0001) * (smoothing v * 0.0001)
               < inject_Z (Z.pos p) * (smoothing v * 0.0001)).
  { apply Qmult_lt_compat_r; [exact Hfe | exact Hp]. }
  lra.
Qed.

Lemma stepsKnob_target (v : Variant) (n : nat) :
  forall knob : Knob.t,
    Knob.targetValue (stepsKnob v n knob) = Knob.targetValue knob.
Proof.
  induction n as [| n IH]; intro knob; [reflexivity |].
  cbn [stepsKnob]. rewrite IH. apply stepKnob_target.
Qed.

(** X15: for any smoothing factor above 0 and at most 1, whatever the
    target and the current value of a knob, after finitely many frames with
    no further input the gap is at most 0.0001, and from then on every frame
    leaves the knob as it is and sends nothing to the host for it. *)
Theorem frames_knob_comes_to_rest
  (v : Variant) (param : string) (st : GUI) (knob : Knob.t) :
  0 < smoothing v <= 1 ->
  NoDup (keys (knobs st)) ->
  lookup param (knobs st) = Some knob ->
  exists n knobn,
    Math.abs (Knob.targetValue knobn - Knob.currentValue knobn) <= 0.0001 /\
    Knob.targetValue knobn = Knob.targetValue knob /\
    forall m, (n <= m)%nat ->
      lookup param (knobs (frames v m st)) = Some knobn /\
      sentFor param (snd (animate v (frames v m st))) = [].
Proof.
  intros Hf Hnd H.
  destruct (stepsKnob_eventually_rests v knob Hf) as [n Hn].
  exists n, (stepsKnob v n knob).
  split; [exact Hn |]. split.
  - apply stepsKnob_target.
  - intros m Hm.
    destruct (frames_knob v param m st knob Hnd H) as [Hm1 Hm2].
    assert (Hk : stepsKnob v m knob = stepsKnob v n knob).
    { replace m with (n + (m - n))%nat by lia.
      rewrite stepsKnob_add. apply stepsKnob_rests. exact Hn. }
    rewrite Hk in Hm1. split; [exact Hm1 |].
    destruct (animate_knob v (frames v m st) param _ Hm2 Hm1) as [_ Hs].
    rewrite Hs. apply (stepKnob_rests v _ Hn).
Qed.

Lemma frames_knob_comes_to_rest_witness :
  exists n knobn,
    Math.abs (Knob.targetValue knobn - Knob.currentValue knobn) <= 0.0001 /\
    Knob.targetValue knobn = 10 /\
    forall m, (n <= m)%nat ->
      lookup "ratioIn"
        (knobs (frames compui m
                  (set_knobs [("ratioIn"%string, Knob.mk 1 10 1 10 false 0)]
                             constructor))) = Some knobn /\
      sentFor "ratioIn"
        (snd (animate compui
                (frames compui m
                   (set_knobs [("ratioIn"%string, Knob.mk 1 10 1 10 false 0)]
                              constructor)))) = [].
Proof.
  apply (frames_knob_comes_to_rest compui "ratioIn"
           (set_knobs [("ratioIn"%string, Knob.mk 1 10 1 10 false 0)] constructor)
           (Knob.mk 1 10 1 10 false 0)).
  - split; [vm_compute; reflexivity | vm_compute; discriminate].
  - cbn. constructor; [intros [] | constructor].
  - reflexivity.
Defined.

Lemma smoothKnob_rest (v : Variant) (acc : GUI * list Effect) (param : string) :
  (forall p k, lookup p (knobs (fst acc)) = Some k ->
               Math.abs (Knob.targetValue k - Knob.currentValue k) <= 0.0001) ->
  smoothKnob v acc param = acc.
Proof.
  intro H. destruct acc as [st out]. unfold smoothKnob.
  destruct (lookup param (knobs st)) as [knob |] eqn:E; [| reflexivity].
  specialize (H param knob E). apply Qltb_false in H. rewrite H. reflexivity.
Qed.

(** X16: a frame in which every knob is within 0.0001 of its target sends
    nothing at all, writes no knob rotation or label, and leaves the knobs
    and the threshold line as they were. *)
Theorem animate_idle_silent (v : Variant) (st : GUI) :
  (forall p k, lookup p (knobs st) = Some k ->
               Math.abs (Knob.targetValue k - Knob.currentValue k) <= 0.0001) ->
  snd (animate v st) = [] /\
  knobs (fst (animate v st)) = knobs st /\
  currentThresholdDb (fst (animate v st)) = currentThresholdDb st.
Proof.
  intro H. rewrite animate_fst, animate_snd.
  set (st3 := set_meters
                (deadZone (decayPeaks (decayRate st) (silenceFloor (meters st)))) st).
  assert (Hfold : forall ps, fold_left (smoothKnob v) ps (st3, []) = (st3, [])).
  { induction ps as [| p ps IH]; [reflexivity |].
    cbn [fold_left]. rewrite smoothKnob_rest; [exact IH | exact H]. }
  unfold smoothKnobs. rewrite Hfold. cbn [fst snd].
  split; [reflexivity |].
  unfold recordHistory.
  destruct (historyUpdateRate st3 <=? frameCount st3 + 1)%Z; split; reflexivity.
Qed.

Lemma initializeKnobs_at_rest (els : list KnobEl) (st0 : GUI) (p : string) (k : Knob.t) :
  lookup p (knobs (fst (initializeKnobs els st0))) = Some k ->
  Knob.targetValue k = Knob.currentValue k.
Proof.
  unfold initializeKnobs.
  assert (Hgen : forall acc : GUI * list Effect,
             (forall q k0, lookup q (knobs (fst acc)) = Some k0 ->
                           Knob.targetValue k0 = Knob.currentValue k0) ->
             forall q k0,
               lookup q
                 (knobs
                    (fst (fold_left
                            (fun (acc : GUI * list Effect) el =>
                               let (st, out) := acc in
                               let knob := initKnob el in
                               (set_knobs (assign (d_param el) knob (knobs st)) st,
                                out ++ [KnobRotation (d_param el)
                                          (updateKnobRotation knob (d_value el));
                                        KnobDisplayValue (d_param el) (d_value el)]))
                            els acc))) = Some k0 ->
               Knob.targetValue k0 = Knob.currentValue k0).
  { induction els as [| el els IH]; intros acc Hacc; simpl; [exact Hacc |].
    apply IH. destruct acc as [st out]. cbn [fst].
    intros q k0. cbn [set_knobs knobs]. rewrite lookup_assign.
    destruct (String.eqb (d_param el) q).
    - intro E. injection E as <-. reflexivity.
    - apply Hacc. }
  apply Hgen. intros q k0. cbn. discriminate.
Qed.

Lemma abs_zero (x : Q) : Math.abs (x - x) <= 0.0001.
Proof.
  destruct (abs_cases (x - x)) as [[_ E] | [_ E]]; rewrite E; lra.
Qed.

Lemma animate_idle_silent_witness :
  snd (animate compui (fst (initializeKnobs knobEls constructor))) = [].
Proof.
  apply (animate_idle_silent compui (fst (initializeKnobs knobEls constructor))).
  intros p k Hk.
  rewrite (initializeKnobs_at_rest knobEls constructor p k Hk).
  apply abs_zero.
Defined.

(** ** Host echoes and frames together *)

Lemma paramListener_lookup (endpointID : string) (value : Q) (st : GUI) (knob : Knob.t) :
  lookup endpointID (knobs st) = Some knob ->
  lookup endpointID (knobs (fst (paramListener endpointID value st)))
    = Some (Knob.set_currentValue value (Knob.set_targetValue value knob)).
Proof.
  intro H. unfold paramListener. rewrite H.
  destruct (String.eqb endpointID "thresholdDbIn"); cbn [fst];
    apply lookup_assign_same.
Qed.

(** X17: when the host echoes back the value a frame has just sent for a
    moving knob, the echo overwrites the target: the knob is left with
    current value and target both at the sent value, the next frame sends
    nothing for it, and (for a smoothing factor below 1) the target the
    gesture had set is lost. *)
Theorem echo_of_sent_value_stops_knob
  (v : Variant) (param : string) (st : GUI) (knob : Knob.t) :
  NoDup (keys (knobs st)) ->
  lookup param (knobs st) = Some knob ->
  0.0001 < Math.abs (Knob.targetValue knob - Knob.currentValue knob) ->
  exists x knob2,
    sentFor param (snd (animate v st)) = [x] /\
    lookup param (knobs (fst (paramListener param x (fst (animate v st)))))
      = Some knob2 /\
    Knob.currentValue knob2 = x /\
    Knob.targetValue knob2 = x /\
    sentFor param
      (snd (animate v (fst (paramListener param x (fst (animate v st)))))) = [] /\
    lookup param
      (knobs (fst (animate v (fst (paramListener param x (fst (animate v st)))))))
      = Some knob2 /\
    (smoothing v < 1 -> ~ Knob.targetValue knob2 == Knob.targetValue knob).
Proof.
  intros Hnd H Hgap.
  destruct (animate_knob v st param knob Hnd H) as [Ha Hs].
  destruct (stepKnob_moves v knob Hgap) as [Hm1 Hm2].
  rewrite Hm2 in Hs. rewrite Hm1 in Ha.
  set (x := Knob.currentValue knob
            + (Knob.targetValue knob - Knob.currentValue knob) * smoothing v) in *.
  set (st1 := fst (animate v st)) in *.
  pose proof (paramListener_lookup param x st1 _ Ha) as Hl.
  set (knob2 := Knob.set_currentValue x
                  (Knob.set_targetValue x (Knob.set_currentValue x knob))) in *.
  assert (Hnd2 : NoDup (keys (knobs (fst (paramListener param x st1))))).
  { rewrite paramListener_keys. unfold st1. rewrite animate_keys. exact Hnd. }
  destruct (animate_knob v (fst (paramListener param x st1)) param knob2 Hnd2 Hl)
    as [Ha2 Hs2].
  assert (Hrest : Math.abs (Knob.targetValue knob2 - Knob.currentValue knob2) <= 0.0001).
  { cbn [knob2 Knob.set_currentValue Knob.set_targetValue
         Knob.currentValue Knob.targetValue]. apply abs_zero. }
  destruct (stepKnob_rests v knob2 Hrest) as [Hr1 Hr2].
  rewrite Hr1 in Ha2. rewrite Hr2 in Hs2.
  exists x, knob2.
  split; [exact Hs |]. split; [exact Hl |].
  split; [reflexivity |]. split; [reflexivity |].
  split; [exact Hs2 |]. split; [exact Ha2 |].
  intros Hf Heq.
  cbn [knob2 Knob.set_currentValue Knob.set_targetValue Knob.targetValue] in Heq.
  unfold x in Heq.
  destruct (abs_cases (Knob.targetValue knob - Knob.currentValue knob))
    as [[H1 H2] | [H1 H2]]; rewrite H2 in Hgap; nra.
Qed.

Lemma echo_of_sent_value_stops_knob_witness :
  let st := set_knobs [("ratioIn"%string, Knob.mk 1 10 1 10 false 0)] constructor in
  exists x knob2,
    sentFor "ratioIn" (snd (animate compui st)) = [x] /\
    lookup "ratioIn" (knobs (fst (paramListener "ratioIn" x (fst (animate compui st)))))
      = Some knob2 /\
    Knob.targetValue knob2 = x /\
    ~ Knob.targetValue knob2 == 10.
Proof.
  cbv zeta.
  destruct (echo_of_sent_value_stops_knob compui "ratioIn"
              (set_knobs [("ratioIn"%string, Knob.mk 1 10 1 10 false 0)] constructor)
              (Knob.mk 1 10 1 10 false 0))
    as (x & knob2 & H1 & H2 & _ & H4 & _ & _ & H7).
  - cbn. constructor; [intros [] | constructor].
  - reflexivity.
  - vm_compute. reflexivity.
  - exists x, knob2. split; [exact H1 |]. split; [exact H2 |].
    split; [exact H4 |]. apply H7. vm_compute. reflexivity.
Defined.

Lemma assign_assign (p : string) (k1 k2 : Knob.t) (ks : Knobs) :
  assign p k2 (assign p k1 ks) = assign p k2 ks.
Proof.
  induction ks as [| [p0 k0] rest IH]; simpl.
  - rewrite String.eqb_refl. reflexivity.
  - destruct (String.eqb p0 p) eqn:E; simpl; rewrite E; [reflexivity |].
    rewrite IH. reflexivity.
Qed.

Lemma paramListener_last_wins (endpointID : string) (value value' : Q) (st : GUI) :
  fst (paramListener endpointID value' (fst (paramListener endpointID value st)))
    = fst (paramListener endpointID value' st).
Proof.
  destruct (lookup endpointID (knobs st)) as [knob |] eqn:E.
  - pose proof (paramListener_lookup endpointID value st knob E) as H1.
    unfold paramListener at 1. rewrite H1.
    unfold paramListener. rewrite E.
    destruct (String.eqb endpointID "thresholdDbIn"); cbn;
      rewrite assign_assign; reflexivity.
  - unfold paramListener. rewrite E. cbn. rewrite E. reflexivity.
Qed.

(** X18: a host echo for an endpoint that names a knob of the store sets
    that knob, never sends anything back to the host, leaves every other
    knob, the key order, the meters, the history and the frame count alone,
    and moves the threshold line only when the endpoint is [thresholdDbIn],
    to the echoed value.  Of two echoes for the same endpoint the last one
    wins and the first leaves no trace. *)
Theorem paramListener_frame
  (endpointID : string) (value value' : Q) (st : GUI) (knob : Knob.t) :
  lookup endpointID (knobs st) = Some knob ->
  fst (paramListener endpointID value' (fst (paramListener endpointID value st)))
    = fst (paramListener endpointID value' st) /\
  lookup endpointID (knobs (fst (paramListener endpointID value st)))
    = Some (Knob.mk value value (Knob.min knob) (Knob.max knob)
                    (Knob.isDragging knob) (Knob.lastY knob)) /\
  (forall q, sentFor q (snd (paramListener endpointID value st)) = []) /\
  (forall q other, q <> endpointID ->
                   lookup q (knobs st) = Some other ->
                   lookup q (knobs (fst (paramListener endpointID value st)))
                     = Some other) /\
  keys (knobs (fst (paramListener endpointID value st))) = keys (knobs st) /\
  meters (fst (paramListener endpointID value st)) = meters st /\
  waveformHistory (fst (paramListener endpointID value st)) = waveformHistory st /\
  frameCount (fst (paramListener endpointID value st)) = frameCount st /\
  (endpointID <> "thresholdDbIn"%string ->
   currentThresholdDb (fst (paramListener endpointID value st))
     = currentThresholdDb st) /\
  (endpointID = "thresholdDbIn"%string ->
   currentThresholdDb (fst (paramListener endpointID value st)) = value).
Proof.
  intro E.
  split; [apply paramListener_last_wins |].
  split; [| split; [| split; [| split; [| split; [| split; [| split; [| split]]]]]]].
  - rewrite (paramListener_lookup endpointID value st knob E).
    destruct knob; reflexivity.
  - intro q. unfold paramListener. rewrite E.
    destruct (String.eqb endpointID "thresholdDbIn"); reflexivity.
  - intros q other Hq Ho. rewrite <- Ho. unfold paramListener. rewrite E.
    destruct (String.eqb endpointID "thresholdDbIn"); cbn;
      apply lookup_assign_other; congruence.
  - apply paramListener_keys.
  - unfold paramListener. rewrite E.
    destruct (String.eqb endpointID "thresholdDbIn"); reflexivity.
  - unfold paramListener. rewrite E.
    destruct (String.eqb endpointID "thresholdDbIn"); reflexivity.
  - unfold paramListener. rewrite E.
    destruct (String.eqb endpointID "thresholdDbIn"); reflexivity.
  - intro Hne. unfold paramListener. rewrite E.
    apply String.eqb_neq in Hne. rewrite Hne. reflexivity.
  - intro He. unfold paramListener. rewrite E.
    apply String.eqb_eq in He. rewrite He. reflexivity.
Qed.

Lemma paramListener_frame_witness :
  lookup "thresholdDbIn"
         (knobs (fst (paramListener "thresholdDbIn" (-10)
                        (fst (initializeKnobs knobEls constructor)))))
    = Some (Knob.mk (-10) (-10) (-60) 0 false 0) /\
  currentThresholdDb
    (fst (paramListener "thresholdDbIn" (-10)
            (fst (initializeKnobs knobEls constructor)))) = -10.
Proof.
  pose proof (paramListener_frame "thresholdDbIn" (-10) (-10)
                (fst (initializeKnobs knobEls constructor))
                (Knob.mk (-28.0) (-28.0) (-60) 0 false 0)) as H.
  destruct H as (_ & H1 & _ & _ & _ & _ & _ & _ & _ & H2).
  - vm_compute. reflexivity.
  - split; [exact H1 | apply H2; reflexivity].
Defined.

(** ** Drag events *)

(** A loop over the keys whose body rewrites the knob it names with [g] and
    touches nothing else. *)
Section PerKeyLoop.

Variable F : GUI -> string -> GUI.
Variable g : Knob.t -> Knob.t.

Hypothesis F_lookup :
  forall st p q,
    lookup q (knobs (F st p)) =
      if String.eqb p q then option_map g (lookup q (knobs st))
      else lookup q (knobs st).

Hypothesis F_rest : forall st p, F st p = set_knobs (knobs (F st p)) st.

Lemma perKey_other (q : string) (ps : list string) :
  forall st, ~ In q ps ->
             lookup q (knobs (fold_left F ps st)) = lookup q (knobs st).
Proof.
  induction ps as [| p ps IH]; intros st Hq; simpl; [reflexivity |].
  rewrite IH by (intro; apply Hq; right; assumption).
  rewrite F_lookup.
  assert (Hpq : p <> q) by (intro; apply Hq; left; assumption).
  apply String.eqb_neq in Hpq. rewrite Hpq. reflexivity.
Qed.

Lemma perKey_member (q : string) (ps : list string) :
  forall st, NoDup ps -> In q ps ->
             lookup q (knobs (fold_left F ps st)) = option_map g (lookup q (knobs st)).
Proof.
  induction ps as [| p ps IH]; intros st Hnd Hin; [destruct Hin |].
  inversion Hnd as [| p' ps' Hnotin Hnd']; subst. simpl.
  destruct (string_dec p q) as [Heq | Hneq].
  - subst q. rewrite perKey_other by exact Hnotin.
    rewrite F_lookup, String.eqb_refl. reflexivity.
  - destruct Hin as [Heq | Hin]; [contradiction |].
    rewrite (IH _ Hnd' Hin). rewrite F_lookup.
    apply String.eqb_neq in Hneq. rewrite Hneq. reflexivity.
Qed.

Lemma perKey_rest (ps : list string) :
  forall st, fold_left F ps st = set_knobs (knobs (fold_left F ps st)) st.
Proof.
  induction ps as [| p ps IH]; intro st; simpl.
  - destruct st; reflexivity.
  - rewrite (IH (F st p)) at 1. rewrite (F_rest st p). reflexivity.
Qed.

Lemma perKey_keys (ps : list string) :
  (forall st p, keys (knobs (F st p)) = keys (knobs st)) ->
  forall st, keys (knobs (fold_left F ps st)) = keys (knobs st).
Proof.
  intro HF. induction ps as [| p ps IH]; intro st; simpl; [reflexivity |].
  rewrite IH. apply HF.
Qed.

Lemma perKey_proj (A : Type) (proj : Knob.t -> A) (q : string) (ps : list string) :
  (forall k, proj (g k) = proj k) ->
  forall st, option_map proj (lookup q (knobs (fold_left F ps st)))
             = option_map proj (lookup q (knobs st)).
Proof.
  intro Hg. induction ps as [| p ps IH]; intro st; simpl; [reflexivity |].
  rewrite IH, F_lookup.
  destruct (String.eqb p q); [| reflexivity].
  destruct (lookup q (knobs st)) as [k |]; [| reflexivity].
  cbn. rewrite Hg. reflexivity.
Qed.

End PerKeyLoop.

Lemma set_knobs_same (st : GUI) : set_knobs (knobs st) st = st.
Proof. destruct st; reflexivity. Qed.

Lemma dragStep_idle (v : Variant) (clientY : Q) (knob : Knob.t) :
  Knob.isDragging knob = false -> dragStep v clientY knob = knob.
Proof. intro H. unfold dragStep. rewrite H. reflexivity. Qed.

Lemma dragStep_fields (v : Variant) (clientY : Q) (knob : Knob.t) :
  Knob.isDragging (dragStep v clientY knob) = Knob.isDragging knob /\
  Knob.currentValue (dragStep v clientY knob) = Knob.currentValue knob /\
  Knob.min (dragStep v clientY knob) = Knob.min knob /\
  Knob.max (dragStep v clientY knob) = Knob.max knob.
Proof.
  unfold dragStep. destruct (Knob.isDragging knob) eqn:E; repeat split; exact E.
Qed.

Lemma dragKnob_lookup (v : Variant) (clientY : Q) (st : GUI) (p q : string) :
  lookup q (knobs (dragKnob v clientY st p)) =
    if String.eqb p q then option_map (dragStep v clientY) (lookup q (knobs st))
    else lookup q (knobs st).
Proof.
  unfold dragKnob.
  destruct (String.eqb p q) eqn:Epq.
  - apply String.eqb_eq in Epq. subst q.
    destruct (lookup p (knobs st)) as [knob |] eqn:E; [| rewrite E; reflexivity].
    destruct (Knob.isDragging knob) eqn:Ed.
    + cbn. apply lookup_assign_same.
    + rewrite E. cbn. rewrite (dragStep_idle v clientY knob Ed). reflexivity.
  - apply String.eqb_neq in Epq.
    destruct (lookup p (knobs st)) as [knob |] eqn:E; [| reflexivity].
    destruct (Knob.isDragging knob); [| reflexivity].
    cbn. apply lookup_assign_other. exact Epq.
Qed.

Lemma dragKnob_rest (v : Variant) (clientY : Q) (st : GUI) (p : string) :
  dragKnob v clientY st p = set_knobs (knobs (dragKnob v clientY st p)) st.
Proof.
  unfold dragKnob.
  destruct (lookup p (knobs st)) as [knob |]; [| symmetry; apply set_knobs_same].
  destruct (Knob.isDragging knob); [reflexivity | symmetry; apply set_knobs_same].
Qed.

Lemma dragKnob_keys (v : Variant) (clientY : Q) (st : GUI) (p : string) :
  keys (knobs (dragKnob v clientY st p)) = keys (knobs st).
Proof.
  unfold dragKnob.
  destruct (lookup p (knobs st)) as [knob |] eqn:E; [| reflexivity].
  destruct (Knob.isDragging knob); [| reflexivity].
  cbn. apply (keys_assign_known _ _ knob). exact E.
Qed.

Lemma handleKnobDrag_lookup
  (v : Variant) (clientY : Q) (st : GUI) (param : string) (knob : Knob.t) :
  NoDup (keys (knobs st)) ->
  lookup param (knobs st) = Some knob ->
  lookup param (knobs (handleKnobDrag v clientY st))
    = Some (dragStep v clientY knob).
Proof.
  intros Hnd H. unfold handleKnobDrag.
  rewrite (perKey_member (dragKnob v clientY) (dragStep v clientY)
             (dragKnob_lookup v clientY) param (keys (knobs st)) st Hnd
             (lookup_in_keys param knob (knobs st) H)).
  rewrite H. reflexivity.
Qed.

Lemma handleKnobDrag_rest (v : Variant) (clientY : Q) (st : GUI) :
  handleKnobDrag v clientY st = set_knobs (knobs (handleKnobDrag v clientY st)) st /\
  keys (knobs (handleKnobDrag v clientY st)) = keys (knobs st).
Proof.
  unfold handleKnobDrag. split.
  - apply (perKey_rest (dragKnob v clientY) (dragKnob_rest v clientY)).
  - apply (perKey_keys (dragKnob v clientY)). apply dragKnob_keys.
Qed.

(** X19: a mouse move changes only the knobs that are being dragged: such a
    knob takes the pointer delta since its [lastY] through the clamped
    gesture formula and remembers the new pointer height, its current value
    and its bounds stay; a knob that is not dragged, the meters, the history
    and the threshold line are left exactly as they were. *)
Theorem handleKnobDrag_moves_dragged_knobs
  (v : Variant) (clientY : Q) (st : GUI) (param : string) (knob : Knob.t) :
  NoDup (keys (knobs st)) ->
  lookup param (knobs st) = Some knob ->
  exists knob',
    lookup param (knobs (handleKnobDrag v clientY st)) = Some knob' /\
    (Knob.isDragging knob = false -> knob' = knob) /\
    (Knob.isDragging knob = true ->
     Knob.targetValue knob' =
       clamp (Knob.min knob) (Knob.max knob)
             (Knob.targetValue knob
              - (clientY - Knob.lastY knob) * sensitivity v
                * (Knob.max knob - Knob.min knob) / 100) /\
     Knob.lastY knob' = clientY /\
     Knob.isDragging knob' = true) /\
    Knob.currentValue knob' = Knob.currentValue knob /\
    Knob.min knob' = Knob.min knob /\
    Knob.max knob' = Knob.max knob /\
    meters (handleKnobDrag v clientY st) = meters st /\
    waveformHistory (handleKnobDrag v clientY st) = waveformHistory st /\
    currentThresholdDb (handleKnobDrag v clientY st) = currentThresholdDb st.
Proof.
  intros Hnd H. exists (dragStep v clientY knob).
  split; [apply handleKnobDrag_lookup; assumption |].
  destruct (dragStep_fields v clientY knob) as (F1 & F2 & F3 & F4).
  split; [apply dragStep_idle |].
  split.
  { intro Hd. unfold dragStep. rewrite Hd. repeat split. }
  split; [exact F2 |]. split; [exact F3 |]. split; [exact F4 |].
  destruct (handleKnobDrag_rest v clientY st) as [-> _].
  repeat split.
Qed.

Lemma handleKnobDrag_moves_dragged_knobs_witness :
  match startKnobDrag 200 "satMixIn" (fst (initializeKnobs knobEls constructor)) with
  | Some st1 =>
      exists knob',
        lookup "satMixIn" (knobs (handleKnobDrag compui 300 st1)) = Some knob' /\
        Knob.targetValue knob' = clamp 0 1 (1.0 - (300 - 200) * 0.3 * (1 - 0) / 100) /\
        Knob.lastY knob' = 300
  | None => False
  end.
Proof.
  destruct (startKnobDrag 200 "satMixIn" (fst (initializeKnobs knobEls constructor)))
    as [st1 |] eqn:E; [| vm_compute in E; discriminate].
  destruct (handleKnobDrag_moves_dragged_knobs compui 300 st1 "satMixIn"
              (Knob.mk 1.0 1.0 0 1 true 200))
    as (knob' & H1 & _ & H3 & _).
  - vm_compute in E. injection E as <-. vm_compute.
    repeat (constructor; [intro Hin; repeat (destruct Hin as [Hin | Hin];
                                             [discriminate |]); exact Hin |]).
    constructor.
  - vm_compute in E. injection E as <-. vm_compute. reflexivity.
  - destruct (H3 eq_refl) as (Ht & Hy & _).
    exists knob'. split; [exact H1 |]. split; [exact Ht | exact Hy].
Defined.

Lemma releaseKnob_lookup (st : GUI) (p q : string) :
  lookup q (knobs (releaseKnob st p)) =
    if String.eqb p q
    then option_map (fun k => set_drag false (Knob.lastY k) k) (lookup q (knobs st))
    else lookup q (knobs st).
Proof.
  unfold releaseKnob.
  destruct (String.eqb p q) eqn:Epq.
  - apply String.eqb_eq in Epq. subst q.
    destruct (lookup p (knobs st)) as [knob |] eqn:E; [| rewrite E; reflexivity].
    cbn. apply lookup_assign_same.
  - apply String.eqb_neq in Epq.
    destruct (lookup p (knobs st)) as [knob |] eqn:E; [| reflexivity].
    cbn. apply lookup_assign_other. exact Epq.
Qed.

Lemma releaseKnob_rest (st : GUI) (p : string) :
  releaseKnob st p = set_knobs (knobs (releaseKnob st p)) st.
Proof.
  unfold releaseKnob.
  destruct (lookup p (knobs st)) as [knob |]; [reflexivity |].
  symmetry. apply set_knobs_same.
Qed.

Lemma releaseKnob_keys (st : GUI) (p : string) :
  keys (knobs (releaseKnob st p)) = keys (knobs st).
Proof.
  unfold releaseKnob.
  destruct (lookup p (knobs st)) as [knob |] eqn:E; [| reflexivity].
  cbn. apply (keys_assign_known _ _ knob). exact E.
Qed.

Lemma stopKnobDrag_keys (st : GUI) : keys (knobs (stopKnobDrag st)) = keys (knobs st).
Proof.
  unfold stopKnobDrag. apply (perKey_keys releaseKnob). apply releaseKnob_keys.
Qed.








Lemma clamp_compat (lo hi x y : Q) : x == y -> clamp lo hi x == clamp lo hi y.
Proof.
  intro H. unfold clamp.
  destruct (min_cases hi x) as [[H1 ->] | [H1 ->]];
    destruct (min_cases hi y) as [[H2 ->] | [H2 ->]];
    repeat match goal with
           | |- context [Math.max ?a ?b] =>
               destruct (max_cases a b) as [[? ->] | [? ->]]
           end; lra.
Qed.

Lemma adjustKnob_target (v : Variant) (knob : Knob.t) (deltaY : Q) :
  Knob.targetValue (adjustKnob v knob deltaY)
    == clamp (Knob.min knob) (Knob.max knob)
             (Knob.targetValue knob
              - deltaY * (sensitivity v * (Knob.max knob - Knob.min knob) * (1 # 100))).
Proof.
  unfold adjustKnob.
  cbn [Knob.set_targetValue Knob.targetValue].
  apply clamp_compat. unfold Qdiv.
  assert (E : / 100 == 1 # 100) by reflexivity. rewrite E. ring.
Qed.

Lemma dragStep_dragging (v : Variant) (clientY : Q) (knob : Knob.t) :
  Knob.isDragging knob = true ->
  Knob.lastY (dragStep v clientY knob) = clientY /\
  Knob.targetValue (dragStep v clientY knob)
    == clamp (Knob.min knob) (Knob.max knob)
             (Knob.targetValue knob
              - (clientY - Knob.lastY knob)
                * (sensitivity v * (Knob.max knob - Knob.min knob) * (1 # 100))).
Proof.
  intro Hd. unfold dragStep. rewrite Hd. split; [reflexivity |].
  rewrite adjustKnob_target. reflexivity.
Qed.

(** X21: a drag is additive as long as nothing is clamped: for a dragged
    knob, moving the pointer to [y1] and then to [y2] leaves the same target
    as moving it to [y2] directly, provided the target after the first move
    was not cut off at a bound; in both cases the knob remembers [y2]. *)
Theorem handleKnobDrag_additive
  (v : Variant) (y1 y2 : Q) (st : GUI) (param : string) (knob : Knob.t) :
  NoDup (keys (knobs st)) ->
  lookup param (knobs st) = Some knob ->
  Knob.isDragging knob = true ->
  Knob.min knob
    <= Knob.targetValue knob
       - (y1 - Knob.lastY knob)
         * (sensitivity v * (Knob.max knob - Knob.min knob) * (1 # 100))
    <= Knob.max knob ->
  exists twice once,
    lookup param (knobs (handleKnobDrag v y2 (handleKnobDrag v y1 st))) = Some twice /\
    lookup param (knobs (handleKnobDrag v y2 st)) = Some once /\
    Knob.targetValue twice == Knob.targetValue once /\
    Knob.lastY twice = y2 /\ Knob.lastY once = y2.
Proof.
  intros Hnd H Hd Hin.
  pose proof (handleKnobDrag_lookup v y1 st param knob Hnd H) as H1.
  assert (Hnd1 : NoDup (keys (knobs (handleKnobDrag v y1 st)))).
  { rewrite (proj2 (handleKnobDrag_rest v y1 st)). exact Hnd. }
  pose proof (handleKnobDrag_lookup v y2 _ param _ Hnd1 H1) as H2.
  pose proof (handleKnobDrag_lookup v y2 st param knob Hnd H) as H3.
  exists (dragStep v y2 (dragStep v y1 knob)), (dragStep v y2 knob).
  split; [exact H2 |]. split; [exact H3 |].
  destruct (dragStep_fields v y1 knob) as (F1 & _ & F3 & F4).
  assert (Hd1 : Knob.isDragging (dragStep v y1 knob) = true) by congruence.
  destruct (dragStep_dragging v y1 knob Hd) as (Ey1 & Et1).
  destruct (dragStep_dragging v y2 knob Hd) as (Ey2 & Et2).
  destruct (dragStep_dragging v y2 (dragStep v y1 knob) Hd1) as (Ey12 & Et12).
  split; [| split; assumption].
  rewrite Et12, Et2, Ey1, F3, F4.
  assert (Et : Knob.targetValue (dragStep v y1 knob)
               == Knob.targetValue knob
                  - (y1 - Knob.lastY knob)
                    * (sensitivity v * (Knob.max knob - Knob.min knob) * (1 # 100))).
  { rewrite Et1. apply clamp_id. exact Hin. }
  apply clamp_compat. rewrite Et. ring.
Qed.

Lemma handleKnobDrag_additive_witness :
  let st := set_knobs [("satMixIn"%string, Knob.mk 0.5 0.5 0 1 true 200)] constructor in
  exists twice once,
    lookup "satMixIn" (knobs (handleKnobDrag compui 180 (handleKnobDrag compui 190 st)))
      = Some twice /\
    lookup "satMixIn" (knobs (handleKnobDrag compui 180 st)) = Some once /\
    Knob.targetValue twice == Knob.targetValue once.
Proof.
  cbv zeta.
  destruct (handleKnobDrag_additive compui 190 180
              (set_knobs [("satMixIn"%string, Knob.mk 0.5 0.5 0 1 true 200)] constructor)
              "satMixIn" (Knob.mk 0.5 0.5 0 1 true 200))
    as (twice & once & H1 & H2 & H3 & _).
  - cbn. constructor; [intros [] | constructor].
  - reflexivity.
  - reflexivity.
  - split; vm_compute; discriminate.
  - exists twice, once. split; [exact H1 |]. split; [exact H2 | exact H3].
Defined.

(** X22: the pointer travel of a full sweep: for a knob of the store, with
    a positive sensitivity and a target within the bounds, a gesture delta
    of at least [100 / sensitivity] pixels upwards puts the target at [max]
    and one of at least as much downwards puts it at [min], wherever it was
    before; the current value, the bounds and the drag fields stay. *)
Theorem adjustKnobValue_full_sweep
  (v : Variant) (param : string) (deltaY : Q) (st : GUI) (knob : Knob.t) :
  lookup param (knobs st) = Some knob ->
  0 < sensitivity v ->
  Knob.min knob <= Knob.targetValue knob <= Knob.max knob ->
  exists st' knob',
    adjustKnobValue v param deltaY st = Some st' /\
    lookup param (knobs st') = Some knob' /\
    Knob.currentValue knob' = Knob.currentValue knob /\
    Knob.min knob' = Knob.min knob /\
    Knob.max knob' = Knob.max knob /\
    Knob.isDragging knob' = Knob.isDragging knob /\
    Knob.lastY knob' = Knob.lastY knob /\
    (deltaY * sensitivity v <= -100 -> Knob.targetValue knob' == Knob.max knob) /\
    (100 <= deltaY * sensitivity v -> Knob.targetValue knob' == Knob.min knob).
Proof.
  intros H Hs [Hlo Hhi]. unfold adjustKnobValue. rewrite H.
  eexists. exists (adjustKnob v knob deltaY).
  split; [reflexivity |]. split; [apply lookup_assign_same |].
  do 5 (split; [reflexivity |]).
  pose proof (adjustKnob_target v knob deltaY) as Ht.
  set (t' := Knob.targetValue (adjustKnob v knob deltaY)) in *.
  set (lo := Knob.min knob) in *. set (hi := Knob.max knob) in *.
  set (t := Knob.targetValue knob) in *. set (s := sensitivity v) in *.
  unfold clamp in Ht.
  split; intro Hd.
  - assert (Hx : hi <= t - deltaY * (s * (hi - lo) * (1 # 100))) by nra.
    destruct (min_cases hi (t - deltaY * (s * (hi - lo) * (1 # 100))))
      as [[H1 E1] | [H1 E1]]; rewrite E1 in Ht;
      match type of Ht with
      | _ == Math.max ?a ?b =>
          destruct (max_cases a b) as [[H2 E2] | [H2 E2]]; rewrite E2 in Ht
      end; lra.
  - assert (Hx : t - deltaY * (s * (hi - lo) * (1 # 100)) <= lo) by nra.
    destruct (min_cases hi (t - deltaY * (s * (hi - lo) * (1 # 100))))
      as [[H1 E1] | [H1 E1]]; rewrite E1 in Ht;
      match type of Ht with
      | _ == Math.max ?a ?b =>
          destruct (max_cases a b) as [[H2 E2] | [H2 E2]]; rewrite E2 in Ht
      end; lra.
Qed.

Lemma adjustKnobValue_full_sweep_witness :
  exists st' knob',
    adjustKnobValue part_000 "thresholdDbIn" (-100)
      (fst (initializeKnobs knobEls constructor)) = Some st' /\
    lookup "thresholdDbIn" (knobs st') = Some knob' /\
    Knob.targetValue knob' == 0.
Proof.
  destruct (adjustKnobValue_full_sweep part_000 "thresholdDbIn" (-100)
              (fst (initializeKnobs knobEls constructor))
              (Knob.mk (-28.0) (-28.0) (-60) 0 false 0))
    as (st' & knob' & H1 & H2 & _ & _ & _ & _ & _ & H3 & _).
  - vm_compute. reflexivity.
  - vm_compute. reflexivity.
  - split; vm_compute; discriminate.
  - exists st', knob'. split; [exact H1 |]. split; [exact H2 |].
    apply H3. vm_compute. discriminate.
Defined.

Lemma touchKnob_dragKnob
  (v : Variant) (clientY : Q) (rest : list Q) (st : GUI) (any : bool) (p : string) :
  touchKnob v (clientY :: rest) (st, any) p =
    (dragKnob v clientY st p,
     any || match lookup p (knobs st) with
            | Some knob => Knob.isDragging knob
            | None => false
            end).
Proof.
  unfold touchKnob, dragKnob.
  destruct (lookup p (knobs st)) as [knob |]; [| rewrite orb_false_r; reflexivity].
  destruct (Knob.isDragging knob);
    [rewrite orb_true_r | rewrite orb_false_r]; reflexivity.
Qed.

Lemma dragKnob_dragging (v : Variant) (clientY : Q) (st : GUI) (p q : string) :
  match lookup q (knobs (dragKnob v clientY st p)) with
  | Some knob => Knob.isDragging knob
  | None => false
  end =
  match lookup q (knobs st) with
  | Some knob => Knob.isDragging knob
  | None => false
  end.
Proof.
  rewrite dragKnob_lookup.
  destruct (String.eqb p q); [| reflexivity].
  destruct (lookup q (knobs st)) as [knob |]; [| reflexivity].
  cbn. apply dragStep_fields.
Qed.

Lemma existsb_pointwise (A : Type) (f g : A -> bool) (l : list A) :
  (forall a, f a = g a) -> existsb f l = existsb g l.
Proof.
  intro H. induction l as [| a l IH]; [reflexivity |].
  cbn. rewrite H, IH. reflexivity.
Qed.

Lemma handleKnobTouch_fold
  (v : Variant) (clientY : Q) (rest : list Q) (ps : list string) :
  forall (st : GUI) (any : bool),
    fold_left (touchKnob v (clientY :: rest)) ps (st, any) =
      (fold_left (dragKnob v clientY) ps st,
       any || existsb (fun p => match lookup p (knobs st) with
                               | Some knob => Knob.isDragging knob
                               | None => false
                               end) ps).
Proof.
  induction ps as [| p ps IH]; intros st any.
  - cbn. rewrite orb_false_r. reflexivity.
  - cbn [fold_left existsb]. rewrite touchKnob_dragKnob, IH.
    f_equal. rewrite <- orb_assoc. f_equal. f_equal.
    apply existsb_pointwise. intro q. apply dragKnob_dragging.
Qed.

Lemma handleKnobTouch_nil (v : Variant) (st : GUI) :
  handleKnobTouch v [] st = (st, false).
Proof.
  unfold handleKnobTouch.
  induction (keys (knobs st)) as [| p ps IH]; [reflexivity |].
  cbn [fold_left].
  assert (E : touchKnob v [] (st, false) p = (st, false)).
  { unfold touchKnob. destruct (lookup p (knobs st)); reflexivity. }
  rewrite E. exact IH.
Qed.

Lemma handleKnobTouch_fst (v : Variant) (touches : list Q) (st : GUI) :
  fst (handleKnobTouch v touches st) =
    match touches with
    | [] => st
    | clientY :: _ => handleKnobDrag v clientY st
    end.
Proof.
  destruct touches as [| clientY rest].
  - rewrite handleKnobTouch_nil. reflexivity.
  - unfold handleKnobTouch. rewrite handleKnobTouch_fold. reflexivity.
Qed.

(** X23: a touch move with at least one touch changes the state exactly as
    a mouse move to the height of the first touch does, and it blocks
    scrolling exactly when some knob is being dragged; a touch move with no
    touches changes nothing and does not block scrolling. *)
Theorem handleKnobTouch_as_mouse
  (v : Variant) (clientY : Q) (rest : list Q) (st : GUI) :
  fst (handleKnobTouch v (clientY :: rest) st) = handleKnobDrag v clientY st /\
  (snd (handleKnobTouch v (clientY :: rest) st) = true <->
   exists param knob,
     lookup param (knobs st) = Some knob /\ Knob.isDragging knob = true) /\
  handleKnobTouch v [] st = (st, false).
Proof.
  split; [| split; [| apply handleKnobTouch_nil]].
  { unfold handleKnobTouch. rewrite handleKnobTouch_fold. reflexivity. }
  unfold handleKnobTouch. rewrite handleKnobTouch_fold. cbn [fst snd orb].
  rewrite existsb_exists. split.
  - intros (p & _ & Hp).
    destruct (lookup p (knobs st)) as [knob |] eqn:E; [| discriminate].
    exists p, knob. split; [exact E | exact Hp].
  - intros (p & knob & E & Hd). exists p.
    split; [apply (lookup_in_keys p knob); exact E |].
    rewrite E. exact Hd.
Qed.

Lemma handleKnobTouch_as_mouse_witness :
  snd (handleKnobTouch compui [300; 310]
         (set_knobs [("satMixIn"%string, Knob.mk 0.5 0.5 0 1 true 200)] constructor))
    = true.
Proof.
  apply (proj1 (proj2 (handleKnobTouch_as_mouse compui 300 [310]
                         (set_knobs [("satMixIn"%string,
                                      Knob.mk 0.5 0.5 0 1 true 200)] constructor)))).
  exists "satMixIn"%string, (Knob.mk 0.5 0.5 0 1 true 200).
  split; reflexivity.
Defined.

(** ** Invariants over all events *)

Lemma paramListener_lookup_all (endpointID : string) (value : Q) (st : GUI) (q : string) :
  lookup q (knobs (fst (paramListener endpointID value st))) =
    if String.eqb endpointID q
    then option_map (fun k => Knob.set_currentValue value (Knob.set_targetValue value k))
                    (lookup q (knobs st))
    else lookup q (knobs st).
Proof.
  destruct (String.eqb endpointID q) eqn:Eq.
  - apply String.eqb_eq in Eq. subst q.
    destruct (lookup endpointID (knobs st)) as [knob |] eqn:E.
    + apply paramListener_lookup. exact E.
    + unfold paramListener. rewrite E. cbn. exact E.
  - apply String.eqb_neq in Eq. unfold paramListener.
    destruct (lookup endpointID (knobs st)) as [knob |]; [| reflexivity].
    destruct (String.eqb endpointID "thresholdDbIn"); cbn;
      apply lookup_assign_other; exact Eq.
Qed.

Lemma startKnobDrag_lookup (clientY : Q) (param : string) (st st' : GUI) (q : string) :
  startKnobDrag clientY param st = Some st' ->
  lookup q (knobs st') =
    (if String.eqb param q
     then option_map (set_drag true clientY) (lookup q (knobs st))
     else lookup q (knobs st)) /\
  keys (knobs st') = keys (knobs st) /\
  st' = set_knobs (knobs st') st.
Proof.
  unfold startKnobDrag.
  destruct (lookup param (knobs st)) as [knob |] eqn:E; [| discriminate].
  intro H. injection H as <-. cbn [set_knobs knobs].
  split; [| split; [apply (keys_assign_known _ _ knob); exact E | reflexivity]].
  rewrite lookup_assign.
  destruct (String.eqb param q) eqn:Eq; [| reflexivity].
  apply String.eqb_eq in Eq. subst q. rewrite E. reflexivity.
Qed.

Lemma smoothKnobs_fold_proj
  (v : Variant) (A : Type) (proj : Knob.t -> A) (q : string) (ps : list string) :
  (forall k, proj (stepKnob v k) = proj k) ->
  forall acc : GUI * list Effect,
    option_map proj (lookup q (knobs (fst (fold_left (smoothKnob v) ps acc))))
      = option_map proj (lookup q (knobs (fst acc))).
Proof.
  intro Hg. induction ps as [| p ps IH]; intro acc; simpl; [reflexivity |].
  rewrite IH. destruct acc as [st out]. rewrite smoothKnob_lookup. cbn [fst].
  destruct (String.eqb p q); [| reflexivity].
  destruct (lookup q (knobs st)) as [k |]; [| reflexivity].
  cbn. rewrite Hg. reflexivity.
Qed.

Lemma animate_knobs_fold (v : Variant) (st : GUI) :
  knobs (fst (animate v st)) =
    knobs (fst (fold_left (smoothKnob v) (keys (knobs st))
                  (set_meters
                     (deadZone (decayPeaks (decayRate st) (silenceFloor (meters st))))
                     st, []))).
Proof.
  rewrite animate_fst.
  destruct (recordHistory_frame
              (fst (smoothKnobs v
                      (set_meters
                         (deadZone (decayPeaks (decayRate st)
                                      (silenceFloor (meters st)))) st))))
    as (_ & -> & _).
  reflexivity.
Qed.

(** Every event keeps the keys and, at every key, the bounds. *)
Lemma uiStep_layout (v : Variant) (st st' : GUI) :
  uiStep v st st' ->
  keys (knobs st') = keys (knobs st) /\
  forall q, boundsAt st' q = boundsAt st q.
Proof.
  intro Hstep.
  destruct Hstep
    as [endpointID value st | value st | value st | value st
        | clientY param st st' Hstart | clientY st | touches st | st | st].
  - split; [apply paramListener_keys |].
    intro q. unfold boundsAt. rewrite paramListener_lookup_all.
    destruct (String.eqb endpointID q); [| reflexivity].
    destruct (lookup q (knobs st)); reflexivity.
  - split; reflexivity.
  - split; reflexivity.
  - split; reflexivity.
  - destruct (startKnobDrag_lookup clientY param st st' param Hstart) as (_ & Hk & _).
    split; [exact Hk |].
    intro q. unfold boundsAt.
    rewrite (proj1 (startKnobDrag_lookup clientY param st st' q Hstart)).
    destruct (String.eqb param q); [| reflexivity].
    destruct (lookup q (knobs st)); reflexivity.
  - split; [apply handleKnobDrag_rest |].
    intro q. unfold boundsAt, handleKnobDrag.
    apply (perKey_proj (dragKnob v clientY) (dragStep v clientY)
             (dragKnob_lookup v clientY)).
    intro k. destruct (dragStep_fields v clientY k) as (_ & _ & -> & ->). reflexivity.
  - rewrite handleKnobTouch_fst. destruct touches as [| clientY rest];
      [split; reflexivity |].
    split; [apply handleKnobDrag_rest |].
    intro q. unfold boundsAt, handleKnobDrag.
    apply (perKey_proj (dragKnob v clientY) (dragStep v clientY)
             (dragKnob_lookup v clientY)).
    intro k. destruct (dragStep_fields v clientY k) as (_ & _ & -> & ->). reflexivity.
  - split; [apply stopKnobDrag_keys |].
    intro q. unfold boundsAt, stopKnobDrag.
    apply (perKey_proj releaseKnob _ releaseKnob_lookup).
    intro k. reflexivity.
  - split; [apply animate_keys |].
    intro q. unfold boundsAt. rewrite animate_knobs_fold.
    apply (smoothKnobs_fold_proj v).
    intro k. destruct (stepKnob_target v k) as (_ & -> & ->). reflexivity.
Qed.

(** X24: no event ever adds, removes, reorders or re-ranges a knob: in
    every state of a connected view the knob store holds the eleven
    parameters of the markup, in document order, each with the bounds the
    markup gives it. *)
Theorem uiReachable_layout (v : Variant) (st : GUI) :
  uiReachable v st ->
  keys (knobs st) = map d_param knobEls /\
  forall el, In el knobEls ->
             boundsAt st (d_param el) = Some (d_min el, d_max el).
Proof.
  intro Hreach.
  assert (Hgen : keys (knobs st) = keys (knobs (fst (initializeKnobs knobEls constructor)))
                 /\ forall q, boundsAt st q
                              = boundsAt (fst (initializeKnobs knobEls constructor)) q).
  { induction Hreach as [| st st' Hreach IH Hstep]; [split; reflexivity |].
    destruct IH as [IH1 IH2].
    destruct (uiStep_layout v st st' Hstep) as [H1 H2].
    split; [congruence |]. intro q. rewrite H2. apply IH2. }
  destruct Hgen as [H1 H2]. split.
  - rewrite H1. reflexivity.
  - intros el Hin. rewrite H2.
    cbn in Hin.
    repeat (destruct Hin as [<- | Hin]; [reflexivity |]).
    destruct Hin.
Qed.

Lemma uiReachable_layout_witness :
  match startKnobDrag 200 "ratioIn" (fst (initializeKnobs knobEls constructor)) with
  | Some st1 =>
      boundsAt (fst (animate compui
                       (handleKnobDrag compui 150
                          (fst (paramListener "ratioIn" 50 st1)))))
               "ratioIn" = Some (1, 10)
  | None => False
  end.
Proof.
  destruct (startKnobDrag 200 "ratioIn" (fst (initializeKnobs knobEls constructor)))
    as [st1 |] eqn:E; [| vm_compute in E; discriminate].
  apply (proj2 (uiReachable_layout compui
                  (fst (animate compui
                          (handleKnobDrag compui 150
                             (fst (paramListener "ratioIn" 50 st1)))))
                  (ui_event compui _ _
                     (ui_event compui _ _
                        (ui_event compui _ _
                           (ui_event compui _ _ (ui_connected compui)
                              (ui_startKnobDrag compui 200 "ratioIn" _ st1 E))
                           (ui_paramListener compui "ratioIn" 50 st1))
                        (ui_handleKnobDrag compui 150 _))
                     (ui_animate compui _)))
          (mkKnobEl "ratioIn" 1 10 4.0)).
  cbn. right. right. right. left. reflexivity.
Defined.

Lemma smoothKnob_synced (v : Variant) (acc : GUI * list Effect) (p : string) :
  thresholdSynced (fst acc) -> thresholdSynced (fst (smoothKnob v acc p)).
Proof.
  destruct acc as [st out]. cbn [fst]. intro H. unfold smoothKnob.
  destruct (lookup p (knobs st)) as [knob |] eqn:E; [| exact H].
  destruct (Math.abs (Knob.targetValue knob - Knob.currentValue knob) >? 0.0001);
    [| exact H].
  destruct (String.eqb p "thresholdDbIn") eqn:Ep; cbn [fst]; intros k.
  - apply String.eqb_eq in Ep. subst p.
    cbn [set_currentThresholdDb set_knobs knobs currentThresholdDb].
    rewrite lookup_assign_same. intro Ek. injection Ek as <-. reflexivity.
  - apply String.eqb_neq in Ep.
    cbn [set_knobs knobs currentThresholdDb].
    rewrite (lookup_assign_other p "thresholdDbIn" _ _ Ep). apply H.
Qed.

Lemma animate_synced (v : Variant) (st : GUI) :
  thresholdSynced st -> thresholdSynced (fst (animate v st)).
Proof.
  intro H. rewrite animate_fst.
  set (st3 := set_meters
                (deadZone (decayPeaks (decayRate st) (silenceFloor (meters st)))) st).
  assert (Hfold : forall ps acc,
             thresholdSynced (fst acc) ->
             thresholdSynced (fst (fold_left (smoothKnob v) ps acc))).
  { induction ps as [| p ps IH]; intros acc Hacc; [exact Hacc |].
    cbn [fold_left]. apply IH. apply smoothKnob_synced. exact Hacc. }
  specialize (Hfold (keys (knobs st3)) (st3, []) H).
  unfold smoothKnobs.
  set (st4 := fst (fold_left (smoothKnob v) (keys (knobs st3)) (st3, []))) in *.
  unfold thresholdSynced, recordHistory.
  destruct (historyUpdateRate st4 <=? frameCount st4 + 1)%Z; exact Hfold.
Qed.

(** An event that changes nothing but drag fields keeps the line in step. *)
Lemma synced_by_currentValue (st st' : GUI) :
  (forall q, option_map Knob.currentValue (lookup q (knobs st'))
             = option_map Knob.currentValue (lookup q (knobs st))) ->
  currentThresholdDb st' = currentThresholdDb st ->
  thresholdSynced st -> thresholdSynced st'.
Proof.
  intros Hc Ht H knob' E.
  specialize (Hc "thresholdDbIn"%string). rewrite E in Hc.
  destruct (lookup "thresholdDbIn" (knobs st)) as [knob |] eqn:E0; [| discriminate].
  cbn in Hc. injection Hc as Hc. rewrite Ht, Hc. apply H. exact E0.
Qed.

Lemma handleKnobDrag_synced (v : Variant) (clientY : Q) (st : GUI) :
  thresholdSynced st -> thresholdSynced (handleKnobDrag v clientY st).
Proof.
  apply synced_by_currentValue.
  - intro q. unfold handleKnobDrag.
    apply (perKey_proj (dragKnob v clientY) (dragStep v clientY)
             (dragKnob_lookup v clientY)).
    intro k. apply dragStep_fields.
  - destruct (handleKnobDrag_rest v clientY st) as [-> _]. reflexivity.
Qed.

(** X25: in every state of a connected view the threshold line of the
    waveform shows the current value of the threshold knob: host echoes and
    frames move both together, and gestures move neither. *)
Theorem uiReachable_threshold_synced (v : Variant) (st : GUI) :
  uiReachable v st -> thresholdSynced st.
Proof.
  intro Hreach. induction Hreach as [| st st' Hreach IH Hstep].
  - intros knob E. vm_compute in E. injection E as <-. reflexivity.
  - destruct Hstep
      as [endpointID value st | value st | value st | value st
          | clientY param st st' Hstart | clientY st | touches st | st | st].
    + intros knob'. rewrite paramListener_lookup_all.
      destruct (String.eqb endpointID "thresholdDbIn") eqn:Ep.
      * apply String.eqb_eq in Ep. subst endpointID.
        destruct (lookup "thresholdDbIn" (knobs st)) as [knob |] eqn:E;
          cbn; [| discriminate].
        intro E'. injection E' as <-.
        unfold paramListener. rewrite E. reflexivity.
      * intro E. unfold paramListener.
        destruct (lookup endpointID (knobs st)) as [knob |]; [| apply IH; exact E].
        rewrite Ep. cbn. apply IH. exact E.
    + exact IH.
    + exact IH.
    + exact IH.
    + destruct (startKnobDrag_lookup clientY param st st' param Hstart)
        as (_ & _ & Hrest).
      apply (synced_by_currentValue st st'); [| rewrite Hrest; reflexivity | exact IH].
      intro q. rewrite (proj1 (startKnobDrag_lookup clientY param st st' q Hstart)).
      destruct (String.eqb param q); [| reflexivity].
      destruct (lookup q (knobs st)); reflexivity.
    + apply handleKnobDrag_synced. exact IH.
    + rewrite handleKnobTouch_fst. destruct touches as [| clientY rest];
        [exact IH | apply handleKnobDrag_synced; exact IH].
    + apply (synced_by_currentValue st (stopKnobDrag st)); [| | exact IH].
      * intro q. unfold stopKnobDrag.
        apply (perKey_proj releaseKnob _ releaseKnob_lookup).
        intro k. reflexivity.
      * unfold stopKnobDrag.
        rewrite (perKey_rest releaseKnob releaseKnob_rest). reflexivity.
    + apply animate_synced. exact IH.
Qed.

Lemma uiReachable_threshold_synced_witness :
  exists knob,
    lookup "thresholdDbIn"
      (knobs (fst (animate compui
                     (fst (paramListener "thresholdDbIn" (-10)
                             (fst (initializeKnobs knobEls constructor)))))))
      = Some knob /\
    currentThresholdDb
      (fst (animate compui
              (fst (paramListener "thresholdDbIn" (-10)
                      (fst (initializeKnobs knobEls constructor))))))
      = Knob.currentValue knob.
Proof.
  exists (Knob.mk (-10) (-10) (-60) 0 false 0).
  assert (E : lookup "thresholdDbIn"
                (knobs (fst (animate compui
                               (fst (paramListener "thresholdDbIn" (-10)
                                       (fst (initializeKnobs knobEls constructor)))))))
              = Some (Knob.mk (-10) (-10) (-60) 0 false 0))
    by (vm_compute; reflexivity).
  split; [exact E |].
  apply (uiReachable_threshold_synced compui
           (fst (animate compui
                   (fst (paramListener "thresholdDbIn" (-10)
                           (fst (initializeKnobs knobEls constructor))))))
           (ui_event compui _ _
              (ui_event compui _ _ (ui_connected compui)
                 (ui_paramListener compui "thresholdDbIn" (-10) _))
              (ui_animate compui _))).
  exact E.
Defined.

(** ** Meter markers and scale labels *)

Lemma clamp01_range (x : Q) : 0 <= Math.max 0 (Math.min 1 x) <= 1.
Proof. apply (clamp_in_range 0 1). lra. Qed.

Lemma markerIndex_range (reversed : bool) (minDb maxDb : Q) (total : nat) (marker : Z) :
  (1 <= total)%nat ->
  (0 <= markerIndex reversed minDb maxDb total marker <= Z.of_nat total - 1)%Z.
Proof.
  intro Ht. unfold markerIndex.
  set (c := Math.max 0 (Math.min 1 _)).
  assert (Hc : 0 <= c <= 1) by apply clamp01_range.
  assert (Hm : ofNat total - 1 == inject_Z (Z.of_nat total - 1)).
  { unfold ofNat, Zminus. rewrite inject_Z_plus. reflexivity. }
  assert (Hm0 : 0 <= ofNat total - 1).
  { pose proof (ofNat_le 1 total Ht) as H1.
    assert (E : ofNat 1 == 1) by reflexivity. lra. }
  apply round_between.
  - change (inject_Z 0) with 0. nra.
  - rewrite <- Hm. nra.
Qed.

Lemma markerIndex_no_dots (reversed : bool) (minDb maxDb : Q) (marker : Z) :
  (-1 <= markerIndex reversed minDb maxDb 0 marker <= 0)%Z.
Proof.
  unfold markerIndex.
  set (c := Math.max 0 (Math.min 1 _)).
  assert (Hc : 0 <= c <= 1) by apply clamp01_range.
  assert (E : ofNat 0 - 1 == -1) by reflexivity.
  apply round_between.
  - change (inject_Z (-1)) with (-1). rewrite E. lra.
  - change (inject_Z 0) with 0. rewrite E. lra.
Qed.

Lemma setDot_length (idx : nat) (marker : Z) (dots : Dots) :
  List.length (setDot idx marker dots) = List.length dots.
Proof.
  revert idx. induction dots as [| d dots IH]; intro idx;
    [destruct idx; reflexivity |].
  destruct idx as [| idx]; simpl; [reflexivity |].
  rewrite IH. reflexivity.
Qed.

Lemma find_app_last (A : Type) (f : A -> bool) (l : list A) (a : A) :
  find f (l ++ [a]) =
    match find f l with
    | Some x => Some x
    | None => if f a then Some a else None
    end.
Proof.
  induction l as [| b l IH]; simpl; [reflexivity |].
  destruct (f b); [reflexivity | exact IH].
Qed.

Lemma setDot_nth_error (idx j : nat) (marker : Z) (dots : Dots) :
  nth_error (setDot idx marker dots) j =
    if Nat.eqb idx j
    then option_map (fun _ => Some marker) (nth_error dots j)
    else nth_error dots j.
Proof.
  revert idx j. induction dots as [| d dots IH]; intros idx j.
  - destruct idx, j; cbn; try reflexivity.
    destruct (Nat.eqb idx j); reflexivity.
  - destruct idx as [| idx], j as [| j]; try reflexivity.
    cbn [setDot nth_error Nat.eqb]. apply IH.
Qed.

(** The fold of [initMeter] on a meter with dots: it fails on no marker,
    keeps the number of dots, and leaves on every dot the last marker that
    indexes it, or what the dot held before when no marker does. *)
Lemma initMeter_fold_some (reversed : bool) (minDb maxDb : Q) (markers : list Z) :
  forall dots : Dots,
    (1 <= List.length dots)%nat ->
    exists dots',
      fold_left (markDot reversed minDb maxDb) markers (Some dots) = Some dots' /\
      List.length dots' = List.length dots /\
      forall j d,
        nth_error dots j = Some d ->
        nth_error dots' j =
          Some match find (fun marker =>
                             (markerIndex reversed minDb maxDb (List.length dots) marker
                              =? Z.of_nat j)%Z)
                          (rev markers) with
               | Some marker => Some marker
               | None => d
               end.
Proof.
  induction markers as [| marker markers IH]; intros dots Hd.
  - exists dots. split; [reflexivity |]. split; [reflexivity |].
    intros j d H. exact H.
  - cbn [fold_left]. unfold markDot at 2.
    pose proof (markerIndex_range reversed minDb maxDb (List.length dots) marker Hd)
      as [H0 H1].
    set (idx := markerIndex reversed minDb maxDb (List.length dots) marker) in *.
    assert (E : ((0 <=? idx)%Z && (idx <? Z.of_nat (List.length dots))%Z)%bool = true).
    { apply andb_true_iff. split; [apply Z.leb_le; lia | apply Z.ltb_lt; lia]. }
    rewrite E.
    destruct (IH (setDot (Z.to_nat idx) marker dots)) as (dots' & H2 & H3 & H4).
    + rewrite setDot_length. exact Hd.
    + rewrite setDot_length in H3, H4.
      exists dots'. split; [exact H2 |]. split; [exact H3 |].
      intros j d Hj. cbn [rev]. rewrite find_app_last.
      fold idx.
      assert (Eidx : (idx =? Z.of_nat j)%Z = Nat.eqb (Z.to_nat idx) j).
      { destruct (Nat.eqb (Z.to_nat idx) j) eqn:En.
        - apply Nat.eqb_eq in En. apply Z.eqb_eq. lia.
        - apply Nat.eqb_neq in En. apply Z.eqb_neq. lia. }
      rewrite Eidx.
      pose proof (setDot_nth_error (Z.to_nat idx) j marker dots) as Hs.
      rewrite Hj in Hs. cbn [option_map] in Hs.
      destruct (Nat.eqb (Z.to_nat idx) j).
      * rewrite (H4 j (Some marker) Hs).
        destruct (find _ (rev markers)); reflexivity.
      * rewrite (H4 j d Hs).
        destruct (find _ (rev markers)); reflexivity.
Qed.

Lemma initMeter_fold_none (reversed : bool) (minDb maxDb : Q) (markers : list Z) :
  fold_left (markDot reversed minDb maxDb) markers None = None.
Proof.
  induction markers as [| marker markers IH]; [reflexivity | exact IH].
Qed.

(** X26: for a scale whose two ends differ, on a meter with at least one
    dot [initMeter] never reaches outside the dots and marks exactly the
    dots its markers index: every marker lands on an existing dot, the
    number of dots stays the same, a dot indexed by some marker carries the
    value of the last such marker and every other dot stays as it was; on a
    meter without dots, marking any marker fails. *)
Theorem initMeter_stays_within_dots
  (markers : list Z) (minDb maxDb : Q) (reversed : bool) (dots : Dots) :
  ~ minDb == maxDb ->
  ((1 <= List.length dots)%nat ->
   exists dots',
     initMeter markers minDb maxDb reversed dots = Some dots' /\
     List.length dots' = List.length dots /\
     forall j d,
       nth_error dots j = Some d ->
       nth_error dots' j =
         Some match find (fun marker =>
                            (markerIndex reversed minDb maxDb (List.length dots) marker
                             =? Z.of_nat j)%Z)
                         (rev markers) with
              | Some marker => Some marker
              | None => d
              end) /\
  (forall marker, (1 <= List.length dots)%nat ->
     (0 <= markerIndex reversed minDb maxDb (List.length dots) marker
        < Z.of_nat (List.length dots))%Z) /\
  (dots = [] -> markers <> [] ->
   initMeter markers minDb maxDb reversed dots = None).
Proof.
  intros _.
  split; [| split].
  - intro Hd. apply initMeter_fold_some. exact Hd.
  - intros marker Hd.
    pose proof (markerIndex_range reversed minDb maxDb (List.length dots) marker Hd).
    lia.
  - intros -> Hm. destruct markers as [| marker markers]; [contradiction |].
    unfold initMeter. cbn [fold_left]. unfold markDot at 2. cbn [List.length].
    pose proof (markerIndex_no_dots reversed minDb maxDb marker) as [H0 H1].
    assert (E : ((0 <=? markerIndex reversed minDb maxDb 0 marker)%Z
                 && (markerIndex reversed minDb maxDb 0 marker <? Z.of_nat 0)%Z)%bool
                = false).
    { destruct (0 <=? markerIndex reversed minDb maxDb 0 marker)%Z eqn:E0;
        [| reflexivity].
      apply Z.leb_le in E0. cbn [andb]. apply Z.ltb_ge. simpl. lia. }
    rewrite E. apply initMeter_fold_none.
Qed.

Lemma initMeter_stays_within_dots_witness :
  (exists dots',
      initMeter inputOutputDbMarkers (-36) 6 false (repeat None makeDots) = Some dots' /\
      List.length dots' = 24%nat /\
      nth_error dots' 7 = Some (Some (-24)%Z) /\
      nth_error dots' 8 = Some None) /\
  initMeter gainReductionDbMarkers 0 (-36) true [] = None.
Proof.
  split.
  - destruct (proj1 (initMeter_stays_within_dots inputOutputDbMarkers (-36) 6 false
                       (repeat None makeDots) ltac:(vm_compute; discriminate)))
      as (dots' & H1 & H2 & H3).
    + simpl. lia.
    + exists dots'. split; [exact H1 |]. split; [exact H2 |].
      split; [exact (H3 7%nat None eq_refl) | exact (H3 8%nat None eq_refl)].
  - apply (proj2 (proj2 (initMeter_stays_within_dots gainReductionDbMarkers 0 (-36)
                           true [] ltac:(vm_compute; discriminate))));
      [reflexivity | discriminate].
Defined.

Lemma round_near (x : Q) :
  inject_Z (Math.round x) <= x + (1 # 2) /\ x + (1 # 2) < inject_Z (Math.round x) + 1.
Proof.
  unfold Math.round. split.
  - apply Qfloor_le.
  - pose proof (Qlt_floor (x + (1 # 2))) as H.
    rewrite inject_Z_plus in H. exact H.
Qed.

Lemma ofNat_to_nat (z : Z) : (0 <= z)%Z -> ofNat (Z.to_nat z) == inject_Z z.
Proof. intro H. unfold ofNat. rewrite Z2Nat.id by exact H. reflexivity. Qed.

(** X27: the marker dots sit where the meter draws their level: on a meter
    with at least two dots, a marker within the range of the meter is put on
    a dot whose own level, as [updateMeters] computes it, is within half a
    dot step of the marker. *)
Theorem marker_dot_is_nearest (param : MeterKey) (total : nat) (marker : Z) :
  (2 <= total)%nat ->
  Math.min (minDb (meterMap param)) (maxDb (meterMap param)) <= inject_Z marker ->
  inject_Z marker <= Math.max (minDb (meterMap param)) (maxDb (meterMap param)) ->
  let idx := markerIndex (negb (ascending (meterMap param)))
                         (minDb (meterMap param)) (maxDb (meterMap param))
                         total marker in
  2 * Math.abs (dotDbOf (meterMap param) total (Z.to_nat idx) - inject_Z marker)
    <= dbStepOf (meterMap param) total.
Proof.
  intros Ht Hlo Hhi idx.
  pose proof (dbStepOf_pos param total Ht) as Hs.
  pose proof (dbStepOf_span param total Ht) as Hspan.
  assert (Hidx : (0 <= idx)%Z).
  { apply (markerIndex_range _ _ _ total marker). lia. }
  pose proof (ofNat_to_nat idx Hidx) as Hn.
  assert (Hn1 : 0 < ofNat total - 1).
  { pose proof (ofNat_lt 1 total Ht) as H1.
    assert (E : ofNat 1 == 1) by reflexivity. lra. }
  set (m := inject_Z marker) in *.
  set (s := dbStepOf (meterMap param) total) in *.
  destruct param.
  - (* input level *)
    assert (Habs : Math.abs (maxDb (meterMap InputLevel) - minDb (meterMap InputLevel))
                   == 42) by reflexivity.
    rewrite Habs in Hspan.
    assert (Hm : -36 <= m <= 6).
    { cbn [meterMap minDb maxDb] in Hlo, Hhi.
      assert (E1 : Math.min (-36) 6 == -36) by reflexivity.
      assert (E2 : Math.max (-36) 6 == 6) by reflexivity. lra. }
    pose proof (round_near
                  (Math.max 0 (Math.min 1 ((m - -36) / Math.abs (6 - -36)))
                   * (ofNat total - 1))) as [R1 R2].
    fold m in R1, R2.
    change (Math.round (Math.max 0 (Math.min 1 ((m - -36) / Math.abs (6 - -36)))
                        * (ofNat total - 1))) with idx in R1, R2.
    assert (Ec : Math.max 0 (Math.min 1 ((m - -36) / Math.abs (6 - -36)))
                 == (m + 36) * (1 # 42)).
    { assert (Ef : (m - -36) / Math.abs (6 - -36) == (m + 36) * (1 # 42)).
      { assert (E : Math.abs (6 - -36) == 42) by reflexivity.
        rewrite E. field. }
      rewrite <- Ef. apply (clamp_id 0 1). rewrite Ef. lra. }
    rewrite Ec in R1, R2.
    assert (Ed : dotDbOf (meterMap InputLevel) total (Z.to_nat idx)
                 == -36 + inject_Z idx * s).
    { unfold dotDbOf. cbn [meterMap ascending minDb]. rewrite Hn. reflexivity. }
    rewrite Ed.
    set (i := inject_Z idx) in *. set (n1 := ofNat total - 1) in *.
    assert (Hx : (m + 36) == (m + 36) * (1 # 42) * n1 * s) by nra.
    destruct (abs_cases (-36 + i * s - m)) as [[H1 H2] | [H1 H2]]; rewrite H2; nra.
  - (* gain reduction *)
    assert (Habs : Math.abs (maxDb (meterMap GainReduction)
                             - minDb (meterMap GainReduction)) == 36) by reflexivity.
    rewrite Habs in Hspan.
    assert (Hm : -36 <= m <= 0).
    { cbn [meterMap minDb maxDb] in Hlo, Hhi.
      assert (E1 : Math.min 0 (-36) == -36) by reflexivity.
      assert (E2 : Math.max 0 (-36) == 0) by reflexivity. lra. }
    pose proof (round_near
                  (Math.max 0 (Math.min 1 ((0 - m) / Math.abs (-36 - 0)))
                   * (ofNat total - 1))) as [R1 R2].
    fold m in R1, R2.
    change (Math.round (Math.max 0 (Math.min 1 ((0 - m) / Math.abs (-36 - 0)))
                        * (ofNat total - 1))) with idx in R1, R2.
    assert (Ec : Math.max 0 (Math.min 1 ((0 - m) / Math.abs (-36 - 0)))
                 == - m * (1 # 36)).
    { assert (Ef : (0 - m) / Math.abs (-36 - 0) == - m * (1 # 36)).
      { assert (E : Math.abs (-36 - 0) == 36) by reflexivity.
        rewrite E. field. }
      rewrite <- Ef. apply (clamp_id 0 1). rewrite Ef. lra. }
    rewrite Ec in R1, R2.
    assert (Ed : dotDbOf (meterMap GainReduction) total (Z.to_nat idx)
                 == 0 - inject_Z idx * s).
    { unfold dotDbOf. cbn [meterMap ascending minDb]. rewrite Hn. reflexivity. }
    rewrite Ed.
    set (i := inject_Z idx) in *. set (n1 := ofNat total - 1) in *.
    assert (Hx : - m == - m * (1 # 36) * n1 * s) by nra.
    destruct (abs_cases (0 - i * s - m)) as [[H1 H2] | [H1 H2]]; rewrite H2; nra.
  - (* output level *)
    assert (Habs : Math.abs (maxDb (meterMap OutputLevel) - minDb (meterMap OutputLevel))
                   == 42) by reflexivity.
    rewrite Habs in Hspan.
    assert (Hm : -36 <= m <= 6).
    { cbn [meterMap minDb maxDb] in Hlo, Hhi.
      assert (E1 : Math.min (-36) 6 == -36) by reflexivity.
      assert (E2 : Math.max (-36) 6 == 6) by reflexivity. lra. }
    pose proof (round_near
                  (Math.max 0 (Math.min 1 ((m - -36) / Math.abs (6 - -36)))
                   * (ofNat total - 1))) as [R1 R2].
    fold m in R1, R2.
    change (Math.round (Math.max 0 (Math.min 1 ((m - -36) / Math.abs (6 - -36)))
                        * (ofNat total - 1))) with idx in R1, R2.
    assert (Ec : Math.max 0 (Math.min 1 ((m - -36) / Math.abs (6 - -36)))
                 == (m + 36) * (1 # 42)).
    { assert (Ef : (m - -36) / Math.abs (6 - -36) == (m + 36) * (1 # 42)).
      { assert (E : Math.abs (6 - -36) == 42) by reflexivity.
        rewrite E. field. }
      rewrite <- Ef. apply (clamp_id 0 1). rewrite Ef. lra. }
    rewrite Ec in R1, R2.
    assert (Ed : dotDbOf (meterMap OutputLevel) total (Z.to_nat idx)
                 == -36 + inject_Z idx * s).
    { unfold dotDbOf. cbn [meterMap ascending minDb]. rewrite Hn. reflexivity. }
    rewrite Ed.
    set (i := inject_Z idx) in *. set (n1 := ofNat total - 1) in *.
    assert (Hx : (m + 36) == (m + 36) * (1 # 42) * n1 * s) by nra.
    destruct (abs_cases (-36 + i * s - m)) as [[H1 H2] | [H1 H2]]; rewrite H2; nra.
Qed.

Lemma marker_dot_is_nearest_witness :
  2 * Math.abs (dotDbOf (meterMap InputLevel) 24
                  (Z.to_nat (markerIndex false (-36) 6 24 (-12))) - inject_Z (-12))
    <= dbStepOf (meterMap InputLevel) 24.
Proof.
  apply (marker_dot_is_nearest InputLevel 24 (-12)).
  - lia.
  - vm_compute. discriminate.
  - vm_compute. discriminate.
Defined.






(** ** The waveform bars *)

Lemma waveformBars_in (w h : Q) (st : GUI) (r : Rect) :
  In r (waveformBars w h st) ->
  exists i sample,
    (i < List.length (waveformHistory st))%nat /\
    In sample (waveformHistory st) /\
    0 < h - dbToY (s_inputLevel sample) h /\
    r = mkRect (ofNat i * (w / ofNat (historyLength st)))
               (dbToY (s_inputLevel sample) h)
               (w / ofNat (historyLength st) - 1)
               (h - dbToY (s_inputLevel sample) h).
Proof.
  unfold waveformBars.
  destruct (0 <? List.length (waveformHistory st))%nat; [| intros []].
  intro Hin. apply in_flat_map in Hin. destruct Hin as ([i sample] & Hc & Hr).
  destruct (h - dbToY (s_inputLevel sample) h >? 0) eqn:E; [| destruct Hr].
  apply Qltb_true in E.
  destruct Hr as [<- | []].
  exists i, sample.
  split; [| split; [| split; [exact E | reflexivity]]].
  - apply in_combine_l in Hc. apply in_seq in Hc. lia.
  - apply in_combine_r in Hc. exact Hc.
Qed.

(** X29: on a canvas of non-negative width and height, with a positive
    capacity and a history within it, every waveform bar stands on the
    bottom edge, has a positive height of at most the canvas height, and its
    slot lies within the canvas width; there are never more bars than
    samples, and samples at or below -60 dB draw no bar. *)
Theorem waveformBars_within_canvas (w h : Q) (st : GUI) :
  0 <= w -> 0 <= h ->
  (0 < historyLength st)%nat ->
  (List.length (waveformHistory st) <= historyLength st)%nat ->
  (forall r, In r (waveformBars w h st) ->
             0 <= ry r /\ 0 < rh r <= h /\ ry r + rh r == h /\
             0 <= rx r /\ rx r + (rw r + 1) <= w) /\
  (List.length (waveformBars w h st) <= List.length (waveformHistory st))%nat /\
  ((forall sample, In sample (waveformHistory st) -> s_inputLevel sample <= -60) ->
   waveformBars w h st = []).
Proof.
  intros Hw Hh HN Hlen. split; [| split].
  - intros r Hin.
    destruct (waveformBars_in w h st r Hin) as (i & sample & Hi & _ & Hpos & ->).
    cbn [rx ry rw rh].
    destruct (dbToY_bounds (s_inputLevel sample) h Hh) as [Hy0 Hy1].
    assert (HNq : 0 < ofNat (historyLength st)).
    { pose proof (ofNat_lt 0 (historyLength st) HN) as H1.
      assert (E : ofNat 0 == 0) by reflexivity. lra. }
    assert (Hi1 : ofNat i + 1 <= ofNat (historyLength st)).
    { apply ofNat_lt. lia. }
    pose proof (ofNat_nonneg i) as Hi0.
    assert (Hb : w / ofNat (historyLength st) * ofNat (historyLength st) == w)
      by (field; lra).
    assert (Hb0 : 0 <= w / ofNat (historyLength st)).
    { apply Qle_shift_div_l; [exact HNq | lra]. }
    set (barW := w / ofNat (historyLength st)) in *.
    set (N := ofNat (historyLength st)) in *.
    set (n := ofNat i) in *.
    repeat split; try lra; try nra.
  - unfold waveformBars.
    destruct (0 <? List.length (waveformHistory st))%nat; [| simpl; lia].
    assert (Hgen : forall l : list (nat * Sample),
               (List.length
                  (flat_map
                     (fun entry : nat * Sample =>
                        let (i, sample) := entry in
                        if h - dbToY (s_inputLevel sample) h >? 0
                        then [mkRect (ofNat i * (w / ofNat (historyLength st)))
                                     (dbToY (s_inputLevel sample) h)
                                     (w / ofNat (historyLength st) - 1)
                                     (h - dbToY (s_inputLevel sample) h)]
                        else []) l)
                <= List.length l)%nat).
    { induction l as [| [i sample] l IH]; [simpl; lia |].
      cbn [flat_map]. rewrite length_app. cbn [List.length].
      destruct (h - dbToY (s_inputLevel sample) h >? 0); simpl; lia. }
    etransitivity; [apply Hgen |].
    rewrite length_combine, length_seq. lia.
  - intro Hq.
    destruct (waveformBars w h st) as [| r rest] eqn:E; [reflexivity |].
    exfalso.
    assert (Hin : In r (waveformBars w h st)) by (rewrite E; left; reflexivity).
    destruct (waveformBars_in w h st r Hin) as (i & sample & _ & Hs & Hpos & _).
    pose proof (dbToY_floor (s_inputLevel sample) h (Hq sample Hs)) as Hbot. lra.
Qed.

Lemma waveformBars_within_canvas_witness :
  waveformBars 300 100 (frames compui 3 (inputMeterListener (-70) constructor)) = [] /\
  (List.length (waveformBars 300 100 (frames compui 3 constructor)) <= 3)%nat.
Proof.
  split.
  - destruct (waveformBars_within_canvas 300 100
                (frames compui 3 (inputMeterListener (-70) constructor)))
      as (_ & _ & H).
    + vm_compute. discriminate.
    + vm_compute. discriminate.
    + vm_compute. lia.
    + vm_compute. lia.
    + apply H. intros sample Hin. vm_compute in Hin.
      repeat (destruct Hin as [<- | Hin]; [vm_compute; discriminate |]).
      destruct Hin.
  - destruct (waveformBars_within_canvas 300 100 (frames compui 3 constructor))
      as (_ & H & _).
    + vm_compute. discriminate.
    + vm_compute. discriminate.
    + vm_compute. lia.
    + vm_compute. lia.
    + exact H.
Defined.

(** ** Initialization of the knob store *)

Lemma initializeKnobs_fold_lookup (els : list KnobEl) (p : string) :
  forall acc : GUI * list Effect,
    lookup p
      (knobs
         (fst (fold_left
                 (fun (acc : GUI * list Effect) el =>
                    let (st, out) := acc in
                    let knob := initKnob el in
                    (set_knobs (assign (d_param el) knob (knobs st)) st,
                     out ++ [KnobRotation (d_param el)
                               (updateKnobRotation knob (d_value el));
                             KnobDisplayValue (d_param el) (d_value el)]))
                 els acc))) =
      match find (fun el => String.eqb (d_param el) p) (rev els) with
      | Some el => Some (initKnob el)
      | None => lookup p (knobs (fst acc))
      end.
Proof.
  induction els as [| el els IH]; intro acc; [reflexivity |].
  cbn [fold_left rev]. rewrite IH. rewrite find_app_last.
  destruct (find (fun el0 => String.eqb (d_param el0) p) (rev els)); [reflexivity |].
  destruct acc as [st out]. cbn [fst set_knobs knobs].
  rewrite lookup_assign.
  destruct (String.eqb (d_param el) p); reflexivity.
Qed.

Lemma initializeKnobs_fold_out (els : list KnobEl) :
  forall acc : GUI * list Effect,
    snd (fold_left
           (fun (acc : GUI * list Effect) el =>
              let (st, out) := acc in
              let knob := initKnob el in
              (set_knobs (assign (d_param el) knob (knobs st)) st,
               out ++ [KnobRotation (d_param el)
                         (updateKnobRotation knob (d_value el));
                       KnobDisplayValue (d_param el) (d_value el)]))
           els acc) =
      snd acc ++
      flat_map (fun el => [KnobRotation (d_param el)
                             (updateKnobRotation (initKnob el) (d_value el));
                           KnobDisplayValue (d_param el) (d_value el)]) els.
Proof.
  induction els as [| el els IH]; intro acc.
  - cbn. rewrite app_nil_r. reflexivity.
  - cbn [fold_left flat_map]. rewrite IH. destruct acc as [st out]. cbn [snd].
    rewrite <- app_assoc. reflexivity.
Qed.

Lemma initializeKnobs_fold_rest (els : list KnobEl) :
  forall acc : GUI * list Effect,
    fst (fold_left
           (fun (acc : GUI * list Effect) el =>
              let (st, out) := acc in
              let knob := initKnob el in
              (set_knobs (assign (d_param el) knob (knobs st)) st,
               out ++ [KnobRotation (d_param el)
                         (updateKnobRotation knob (d_value el));
                       KnobDisplayValue (d_param el) (d_value el)]))
           els acc) =
      set_knobs
        (knobs
           (fst (fold_left
                   (fun (acc : GUI * list Effect) el =>
                      let (st, out) := acc in
                      let knob := initKnob el in
                      (set_knobs (assign (d_param el) knob (knobs st)) st,
                       out ++ [KnobRotation (d_param el)
                                 (updateKnobRotation knob (d_value el));
                               KnobDisplayValue (d_param el) (d_value el)]))
                   els acc)))
        (fst acc).
Proof.
  induction els as [| el els IH]; intro acc.
  - cbn [fold_left]. symmetry. apply set_knobs_same.
  - cbn [fold_left]. rewrite IH at 1. destruct acc as [st out]. reflexivity.
Qed.

(** X30: [initializeKnobs] starts from an empty store whatever knobs were
    there before; afterwards a parameter some element names looks up to the
    freshly initialized knob of the last element that names it (current
    value and target at the element's value, bounds from the element, not
    dragging), each key is stored once and is the name of some element, the
    meters, the waveform history, the frame count and the threshold line
    are untouched, and nothing is sent to the host. *)
Theorem initializeKnobs_lookup
  (els : list KnobEl) (st0 : GUI) (param : string) (el : KnobEl) :
  find (fun e => String.eqb (d_param e) param) (rev els) = Some el ->
  lookup param (knobs (fst (initializeKnobs els st0))) =
    Some (Knob.mk (d_value el) (d_value el) (d_min el) (d_max el) false 0) /\
  NoDup (keys (knobs (fst (initializeKnobs els st0)))) /\
  (forall q, In q (keys (knobs (fst (initializeKnobs els st0)))) ->
             exists e, In e els /\ d_param e = q) /\
  (forall ks, initializeKnobs els (set_knobs ks st0) = initializeKnobs els st0) /\
  meters (fst (initializeKnobs els st0)) = meters st0 /\
  waveformHistory (fst (initializeKnobs els st0)) = waveformHistory st0 /\
  frameCount (fst (initializeKnobs els st0)) = frameCount st0 /\
  currentThresholdDb (fst (initializeKnobs els st0)) = currentThresholdDb st0 /\
  (forall q, sentFor q (snd (initializeKnobs els st0)) = []).
Proof.
  intro Hfind.
  assert (Hl : forall q,
             lookup q (knobs (fst (initializeKnobs els st0))) =
               option_map initKnob
                 (find (fun e => String.eqb (d_param e) q) (rev els))).
  { intro q. unfold initializeKnobs. rewrite initializeKnobs_fold_lookup.
    destruct (find (fun e => String.eqb (d_param e) q) (rev els)); reflexivity. }
  assert (Hrest : fst (initializeKnobs els st0) =
                  set_knobs (knobs (fst (initializeKnobs els st0))) st0).
  { unfold initializeKnobs. rewrite initializeKnobs_fold_rest at 1.
    destruct st0; reflexivity. }
  split; [rewrite Hl, Hfind; reflexivity |].
  split; [apply initializeKnobs_NoDup |].
  split; [| split; [| split; [| split; [| split; [| split]]]]].
  - intros q Hin.
    destruct (find (fun e => String.eqb (d_param e) q) (rev els)) as [e |] eqn:E.
    + apply find_some in E. destruct E as [He Heq].
      exists e. split; [apply in_rev; exact He | apply String.eqb_eq; exact Heq].
    + exfalso. apply (lookup_none_not_in q (knobs (fst (initializeKnobs els st0)))).
      * rewrite Hl, E. reflexivity.
      * exact Hin.
  - intro ks. reflexivity.
  - rewrite Hrest. reflexivity.
  - rewrite Hrest. reflexivity.
  - rewrite Hrest. reflexivity.
  - rewrite Hrest. reflexivity.
  - intro q. unfold initializeKnobs. rewrite initializeKnobs_fold_out.
    cbn [snd app]. clear.
    induction els as [| e els IH]; [reflexivity | exact IH].
Qed.

Lemma initializeKnobs_lookup_witness :
  lookup "ratioIn" (knobs (fst (initializeKnobs knobEls constructor))) =
    Some (Knob.mk 4.0 4.0 1 10 false 0).
Proof.
  apply (initializeKnobs_lookup knobEls constructor "ratioIn"
           (mkKnobEl "ratioIn" 1 10 4.0)).
  vm_compute. reflexivity.
Defined.
